(** * Grid-GE: the game session engine

    A shallow embedding of the engine of the Grid-GE server:
    - [GameLogic]: core/game-logic.ts, the functions over the 3x3 grid;
    - [JsHeap]: the same [makeMove], over a heap of JavaScript arrays,
      where the copies made by [grid.map((row) => [...row])] are visible;
    - [Database]: db/database.ts, the tables and the transactions over them;
    - [Api]: routes/api.ts, the request handlers that compose the two;
    - [GameUtils]: webapp/src/utils/gameUtils.ts, the table of the winning
      lines and the search of the web client for a completed line;
    - [Simulation]: the choice of a move by the simulator
      (simulation/index.ts, [findRandomValidMove]).

    The router reaches a store by its requests ([Api.serve]); [reachable]
    adds the moves that [Database.makeMove] commits when it is called with
    the grid the game logic computes from the stored one. [step] lists the
    writes either can make, and [store_inv] is what every reachable store
    satisfies.

    The cells of a grid are integers ([Z]); a value read from an array is a
    number or [undefined]. The [grid] column of the [games] table holds JSON
    text. The database module writes it with [JSON.stringify] and reads it
    with [JSON.parse], and the model of the tables keeps the matrix the text
    stands for. The two handlers that call [JSON.parse] once more, on the
    matrix [getGameById] returns, are modelled with the call
    ([Api.JSON_parse]). The quotient of the efficiency ordering is a double
    ([Double]); what SQLite does for [ORDER BY] and [ROUND] is a parameter
    ([SqlEngine]). The timestamps ([created_at], [updated_at]) and the [id]
    of a recorded move are left out. A request is one step of the server: a
    handler runs from its first read to its answer before the next request
    starts. *)

From stdpp Require Import gmap strings list fin_maps sorting.
From Stdlib Require Import ZArith QArith Qround Lia Lqa SpecFloat.

Local Open Scope Z_scope.

(** ** JavaScript values, exceptions and arrays *)

Inductive exn :=
  | TypeError                 (* a property read or written on undefined *)
  | SyntaxError               (* [JSON.parse] of text that is not JSON *)
  | Error (message : string)  (* [throw new Error(message)] *)
  | SqliteConstraint.         (* a UNIQUE or PRIMARY KEY violation *)

Inductive result (A : Type) :=
  | Ok (a : A)
  | Throw (e : exn).
Arguments Ok {A} a.
Arguments Throw {A} e.

#[global] Instance result_ret : MRet result := fun A a => Ok a.
#[global] Instance result_bind : MBind result := fun A B f m =>
  match m with Ok a => f a | Throw e => Throw e end.

Inductive jsval :=
  | JNum (n : Z)
  | JUndefined.

#[global] Instance jsval_eq_dec : EqDecision jsval.
Proof. solve_decision. Defined.

(** [a[i]] for an integer [i]: [None] stands for [undefined]. *)
Definition array_get {A} (a : list A) (i : Z) : option A :=
  if decide (0 <= i) then a !! Z.to_nat i else None.

(** [a[i]] on an array of numbers. *)
Definition row_get (r : list jsval) (i : Z) : jsval :=
  default JUndefined (array_get r i).

(** [a[i] = v]: inside the array the element is replaced, past its end the
    array grows (the gap is holes), and a negative index sets a property
    that is no element of the array. *)
Definition array_set (r : list jsval) (i : Z) (v : jsval) : list jsval :=
  if decide (i < 0) then r
  else if decide (i < Z.of_nat (length r)) then <[Z.to_nat i := v]> r
  else r ++ replicate (Z.to_nat i - length r) JUndefined ++ [v].

(** [x && y] and [x || y] over computations that may throw. *)
Definition and_then (x y : result bool) : result bool :=
  b ← x; if b : bool then y else Ok false.
Definition or_else (x y : result bool) : result bool :=
  b ← x; if b : bool then Ok true else y.

(** [for (i of range) { if (f i) return true }], then [false]. *)
Fixpoint for_any (f : Z -> result bool) (range : list Z) : result bool :=
  match range with
  | [] => Ok false
  | i :: rest => b ← f i; if b : bool then Ok true else for_any f rest
  end.

(** ** Doubles

    The REAL values of SQLite and the numbers of JavaScript are IEEE 754
    doubles. Their operations are those of the Standard Library's
    specification of binary floating point, at 53 bits of precision. *)

Module Double.

Abbreviation t := spec_float.

(** An integer as a double: [CAST(n AS FLOAT)], or a JavaScript number. *)
Definition of_Z (n : Z) : t := binary_normalize 53 1024 n 0 false.

Definition mul : t -> t -> t := SFmul 53 1024.
Definition div : t -> t -> t := SFdiv 53 1024.

(** The number a finite double stands for. *)
Definition integer_part (s : bool) (m : positive) : Z := cond_Zopp s (Zpos m).

Definition to_Q (x : t) : option Q :=
  match x with
  | S754_zero _ => Some 0%Q
  | S754_finite s m e => Some (inject_Z (integer_part s m) * Qpower 2 e)%Q
  | _ => None
  end.

(** [Math.floor] of a finite double, as an integer. *)
Definition floor (x : t) : option Z :=
  match x with
  | S754_zero _ => Some 0
  | S754_finite s m e => Some (Z.shiftl (integer_part s m) e)
  | _ => None
  end.

End Double.

(** ** core/game-logic.ts *)

Module GameLogic.

Abbreviation Grid := (list (list jsval)).

Inductive GameStatus := waiting | in_progress | win | draw.

#[global] Instance GameStatus_eq_dec : EqDecision GameStatus.
Proof. solve_decision. Defined.

Definition createEmptyGrid : Grid :=
  [ [JNum 0; JNum 0; JNum 0];
    [JNum 0; JNum 0; JNum 0];
    [JNum 0; JNum 0; JNum 0] ].

(** [grid[row][col]]: reading a column of a missing row throws. *)
Definition cell (grid : Grid) (row col : Z) : result jsval :=
  match array_get grid row with
  | Some r => Ok (row_get r col)
  | None => Throw TypeError
  end.

(** [grid[row][col] === v] *)
Definition cell_is (grid : Grid) (row col v : Z) : result bool :=
  x ← cell grid row col; Ok (bool_decide (x = JNum v)).

Definition isMoveValid (grid : Grid) (row col : Z) : result bool :=
  if bool_decide (row < 0) || bool_decide (row > 2)
     || bool_decide (col < 0) || bool_decide (col > 2)
  then Ok false
  else cell_is grid row col 0.

Definition checkWin (grid : Grid) (playerId : Z) : result bool :=
  or_else
    (for_any (fun row =>
       and_then (cell_is grid row 0 playerId)
         (and_then (cell_is grid row 1 playerId)
                   (cell_is grid row 2 playerId))) [0; 1; 2])
  (or_else
    (for_any (fun col =>
       and_then (cell_is grid 0 col playerId)
         (and_then (cell_is grid 1 col playerId)
                   (cell_is grid 2 col playerId))) [0; 1; 2])
  (or_else
    (and_then (cell_is grid 0 0 playerId)
       (and_then (cell_is grid 1 1 playerId) (cell_is grid 2 2 playerId)))
    (and_then (cell_is grid 0 2 playerId)
       (and_then (cell_is grid 1 1 playerId) (cell_is grid 2 0 playerId))))).

Definition checkDraw (grid : Grid) : result bool :=
  found ← for_any (fun row =>
             for_any (fun col => cell_is grid row col 0) [0; 1; 2])
           [0; 1; 2];
  Ok (negb found).

(** [makeMove] on the matrix as a value: what a caller that holds no other
    reference to the rows observes. [JsHeap.makeMove] is the same function
    over the heap. *)
Definition makeMove (grid : Grid) (row col playerId : Z) : result Grid :=
  match array_get grid row with
  | Some r => Ok (<[Z.to_nat row := array_set r col (JNum playerId)]> grid)
  | None => Throw TypeError
  end.

(** [v === p] *)
Definition is_mark (p : Z) (v : jsval) : bool := bool_decide (v = JNum p).

(** The shape every grid of the server has. *)
Definition grid3x3 (grid : Grid) : Prop :=
  length grid = 3%nat /\ Forall (fun r => length r = 3%nat) grid.

(** The number of cells that are not the number 0. *)
Definition marked_cells (grid : Grid) : Z :=
  Z.of_nat (length (filter (fun v => v <> JNum 0) (concat grid))).

End GameLogic.

(** ** [makeMove] over the heap

    A JavaScript array is an object on the heap; a grid is an array of
    references to its rows. *)

Module JsHeap.

Abbreviation loc := positive.

Inductive object :=
  | Row (cells : list jsval)   (* number[] *)
  | Rows (refs : list loc).    (* number[][] *)

Abbreviation heap := (gmap loc object).

(** A new object, at an address not in use. *)
Definition alloc (h : heap) (o : object) : loc * heap :=
  let l := fresh (dom h) in (l, <[l := o]> h).

(** [grid.map((row) => [...row])]: each row is spread into a new array. *)
Fixpoint copy_rows (h : heap) (refs : list loc) : result (list loc * heap) :=
  match refs with
  | [] => Ok ([], h)
  | r :: rest =>
      match h !! r with
      | Some (Row cells) =>
          let '(l, h1) := alloc h (Row cells) in
          '(ls, h2) ← copy_rows h1 rest;
          Ok (l :: ls, h2)
      | _ => Throw TypeError
      end
  end.

Definition makeMove (h : heap) (grid : loc) (row col playerId : Z)
  : result (loc * heap) :=
  match h !! grid with
  | Some (Rows refs) =>
      '(refs', h1) ← copy_rows h refs;
      let '(newGrid, h2) := alloc h1 (Rows refs') in
      (* newGrid[row][col] = playerId *)
      match array_get refs' row with
      | Some r =>
          match h2 !! r with
          | Some (Row cells) =>
              Ok (newGrid, <[r := Row (array_set cells col (JNum playerId))]> h2)
          | _ => Throw TypeError
          end
      | None => Throw TypeError
      end
  | _ => Throw TypeError
  end.

(** The rows a grid refers to, and the matrix it holds. *)
Definition rows_of (h : heap) (grid : loc) : list loc :=
  match h !! grid with Some (Rows refs) => refs | _ => [] end.

Definition read_row (h : heap) (r : loc) : option (list jsval) :=
  match h !! r with Some (Row cells) => Some cells | _ => None end.

Definition read_grid (h : heap) (grid : loc) : option GameLogic.Grid :=
  match h !! grid with
  | Some (Rows refs) => mapM (read_row h) refs
  | _ => None
  end.

End JsHeap.

(** ** db/database.ts *)

Module Player.
Record t := mk {
  id : Z;
  name : string;
  total_wins : Z;
  total_moves_in_wins : Z }.
End Player.

Module Game.
Import GameLogic.
Record t := mk {
  id : string;
  player1_id : option Z;
  player2_id : option Z;
  current_turn_player_id : option Z;
  status : GameStatus;
  winner_id : option Z;
  grid : Grid;
  move_count : Z }.
End Game.

Module Move.
Record t := mk {
  game_id : string;
  player_id : Z;
  row : Z;
  col : Z;
  move_number : Z }.
End Move.

Module LeaderboardEntry.
Record t := mk {
  rank : Z;
  playerId : Z;
  name : string;
  value : Q }.
End LeaderboardEntry.

(** What the SQL engine does for [ORDER BY expr ASC/DESC] and for
    [ROUND(x, digits)]: the statement names the key and the direction, the
    engine chooses the order of the rows whose keys are equal; and SQLite
    rounds by printing the double with its own printf and reading the text
    back, which is no code of the program. Keys and values are the numbers
    the doubles stand for. *)
Inductive Direction := Asc | Desc.

#[global] Instance Qeq_decision (x y : Q) : Decision (x == y)%Q := Qeq_dec x y.

Definition key_le (d : Direction) (x y : Q) : Prop :=
  match d with Asc => (x <= y)%Q | Desc => (y <= x)%Q end.

Definition key_leb (d : Direction) (x y : Q) : bool :=
  match d with Asc => Qle_bool x y | Desc => Qle_bool y x end.

Class SqlEngine := {
  order_by : forall A : Type, (A -> Q) -> Direction -> list A -> list A;
  sql_round : Q -> Z -> Q }.
Arguments order_by {_ A} key d rows.

(** An engine keeps the rows and returns them in key order. *)
Definition lawful (E : SqlEngine) : Prop :=
  forall (A : Type) (key : A -> Q) (d : Direction) (rows : list A),
    order_by key d rows ≡ₚ rows /\
    Sorted (fun a b => key_le d (key a) (key b)) (order_by key d rows).


(** An engine: a sort that keeps rows of equal key in scan order, and a
    rounding to the nearest multiple of 10^-digits, halves away from zero. *)
Fixpoint insert_row {A} (leb : A -> A -> bool) (x : A) (l : list A) : list A :=
  match l with
  | [] => [x]
  | y :: l' => if leb x y then x :: y :: l' else y :: insert_row leb x l'
  end.

Definition insertion_sort {A} (leb : A -> A -> bool) (l : list A) : list A :=
  foldr (insert_row leb) [] l.

Definition decimal_round (x : Q) (digits : Z) : Q :=
  let scale := inject_Z (10 ^ digits) in
  if Qle_bool 0%Q x
  then (inject_Z (Qfloor (x * scale + (1 # 2))) / scale)%Q
  else (- (inject_Z (Qfloor (- x * scale + (1 # 2))) / scale))%Q.

Definition scan_order_engine : SqlEngine :=
  {| order_by A key d rows :=
       insertion_sort (fun a b => key_leb d (key a) (key b)) rows;
     sql_round := decimal_round |}.

Module Database.
Import GameLogic.

Record Store := mkStore {
  players : list Player.t;       (* rows in insertion order *)
  players_seq : Z;               (* AUTOINCREMENT: the last id given *)
  games : gmap string Game.t;    (* primary key: id *)
  moves : list Move.t }.

Definition empty : Store := mkStore [] 0 ∅ [].

(** [db.transaction(body)]: a body that throws leaves the tables as they
    were. *)
Definition transaction {A} (body : Store -> result A * Store) (st : Store)
  : result A * Store :=
  match body st with
  | (Ok a, st') => (Ok a, st')
  | (Throw e, _) => (Throw e, st)
  end.

Definition createPlayer (name : string) (st : Store) : result Player.t * Store :=
  if existsb (fun p => bool_decide (Player.name p = name)) (players st)
  then (Throw (Error "Could not create player due to a database error."), st)
  else
    let p := Player.mk (players_seq st + 1) name 0 0 in
    (Ok p, mkStore (players st ++ [p]) (players_seq st + 1) (games st) (moves st)).

Definition getPlayerById (id : Z) (st : Store) : option Player.t :=
  find (fun p => bool_decide (Player.id p = id)) (players st).

Definition getPlayerByName (name : string) (st : Store) : option Player.t :=
  find (fun p => bool_decide (Player.name p = name)) (players st).

Definition createGame (playerId : Z) (gameId : string) (grid : Grid) (st : Store)
  : result Game.t * Store :=
  match games st !! gameId with
  | Some _ => (Throw SqliteConstraint, st)
  | None =>
      let g := Game.mk gameId (Some playerId) None (Some playerId) waiting None grid 0 in
      (Ok g, mkStore (players st) (players_seq st) (<[gameId := g]> (games st)) (moves st))
  end.

(** [if (x)] on a [number | null]. *)
Definition truthy (x : option Z) : bool :=
  match x with Some n => negb (bool_decide (n = 0)) | None => false end.

Record GameWithPlayers := mkGameWithPlayers {
  game : Game.t;
  player1 : option (Z * string);
  player2 : option (Z * string) }.

Definition player_info (pid : option Z) (st : Store) : option (Z * string) :=
  if truthy pid then
    id ← pid; p ← getPlayerById id st; Some (id, Player.name p)
  else None.

Definition getGameById (gameId : string) (st : Store) : option GameWithPlayers :=
  g ← games st !! gameId;
  Some (mkGameWithPlayers g (player_info (Game.player1_id g) st)
                            (player_info (Game.player2_id g) st)).

Definition joinGame_body (gameId : string) (playerId : Z) (st : Store)
  : result Game.t * Store :=
  match games st !! gameId with
  | None => (Throw (Error "Game not found"), st)
  | Some gameData =>
      if negb (bool_decide (Game.status gameData = waiting)) then
        (Throw (Error "Game is not in waiting state"), st)
      else if bool_decide (Game.player1_id gameData = Some playerId) then
        (Throw (Error "Cannot join your own game"), st)
      else
        let g := Game.mk gameId (Game.player1_id gameData) (Some playerId)
                   (Game.current_turn_player_id gameData) in_progress
                   (Game.winner_id gameData) (Game.grid gameData)
                   (Game.move_count gameData) in
        (Ok g, mkStore (players st) (players_seq st)
                 (<[gameId := g]> (games st)) (moves st))
  end.

Definition joinGame (gameId : string) (playerId : Z) : Store -> result Game.t * Store :=
  transaction (joinGame_body gameId playerId).

(** [UPDATE players SET total_wins = total_wins + 1,
    total_moves_in_wins = total_moves_in_wins + ? WHERE id = ?] *)
Definition record_win (moveNumber winnerId : Z) (ps : list Player.t) : list Player.t :=
  (fun p =>
     if bool_decide (Player.id p = winnerId)
     then Player.mk (Player.id p) (Player.name p)
            (Player.total_wins p + 1) (Player.total_moves_in_wins p + moveNumber)
     else p) <$> ps.

(** The writes of [makeMove], after its checks: the row of the game, the
    record of the move and, when there is a winner, the row of the
    player. *)
Definition commit_move (game : Game.t) (gameId : string) (playerId row col : Z)
    (newGrid : Grid) (newStatus : GameStatus) (winnerId : option Z) (st : Store)
  : (Game.t * Z) * Store :=
  let moveNumber := Game.move_count game + 1 in
  let nextPlayerId :=
    if bool_decide (Game.player1_id game = Some playerId)
    then Game.player2_id game else Game.player1_id game in
  let updated :=
    Game.mk gameId (Game.player1_id game) (Game.player2_id game)
      (if bool_decide (newStatus = in_progress)
       then nextPlayerId else Game.current_turn_player_id game)
      newStatus winnerId newGrid moveNumber in
  let move := Move.mk gameId playerId row col moveNumber in
  let players' :=
    match winnerId with           (* [if (winnerId)] *)
    | Some w =>
        if bool_decide (w = 0) then players st
        else record_win moveNumber w (players st)
    | None => players st
    end in
  ((updated, moveNumber),
   mkStore players' (players_seq st)
     (<[gameId := updated]> (games st)) (moves st ++ [move])).

Definition makeMove_body (gameId : string) (playerId row col : Z) (newGrid : Grid)
    (newStatus : GameStatus) (winnerId : option Z) (st : Store)
  : result (Game.t * Z) * Store :=
  match games st !! gameId with
  | None => (Throw (Error "Game not found"), st)
  | Some game =>
      if negb (bool_decide (Game.status game = in_progress)) then
        (Throw (Error "Game is not in progress"), st)
      else if negb (bool_decide (Game.current_turn_player_id game = Some playerId)) then
        (Throw (Error "Not your turn"), st)
      else
        match cell (Game.grid game) row col with
        | Throw e => (Throw e, st)
        | Ok v =>
            if negb (bool_decide (v = JNum 0)) then
              (Throw (Error "Cell is already occupied"), st)
            else
              let '(r, st') :=
                commit_move game gameId playerId row col newGrid newStatus
                  winnerId st in
              (Ok r, st')
        end
  end.

Definition makeMove (gameId : string) (playerId row col : Z) (newGrid : Grid)
    (newStatus : GameStatus) (winnerId : option Z)
  : Store -> result (Game.t * Z) * Store :=
  transaction (makeMove_body gameId playerId row col newGrid newStatus winnerId).

(** The leaderboard queries. *)
Inductive By := wins | efficiency.

(** [CAST(total_moves_in_wins AS FLOAT) / total_wins]: the quotient of two
    doubles. It is finite for the rows the queries sort, whose
    [total_wins] is positive. *)
Definition efficiency_ratio (p : Player.t) : Double.t :=
  Double.div (Double.of_Z (Player.total_moves_in_wins p))
             (Double.of_Z (Player.total_wins p)).

Definition sort_key (by_ : By) (p : Player.t) : Q :=
  match by_ with
  | wins => inject_Z (Player.total_wins p)
  | efficiency => default 0%Q (Double.to_Q (efficiency_ratio p))
  end.

Definition direction (by_ : By) : Direction :=
  match by_ with wins => Desc | efficiency => Asc end.

(** The column [value]: [total_wins], or [ROUND(ratio, 2)]. *)
Definition score `{SqlEngine} (by_ : By) (p : Player.t) : Q :=
  match by_ with
  | wins => inject_Z (Player.total_wins p)
  | efficiency => sql_round (sort_key efficiency p) 2
  end.

(** [ROW_NUMBER() OVER (ORDER BY key)] *)
Definition row_number {A} (rows : list A) : list (Z * A) :=
  imap (fun i r => (Z.of_nat i + 1, r)) rows.

(** The columns of the SELECT, for a numbered row. *)
Definition entry `{SqlEngine} (by_ : By) (r : Z * Player.t) : LeaderboardEntry.t :=
  LeaderboardEntry.mk r.1 (Player.id r.2) (Player.name r.2) (score by_ r.2).

Definition getLeaderboard `{SqlEngine} (by_ : By) (st : Store)
  : list LeaderboardEntry.t :=
  let winners := filter (fun p => 0 < Player.total_wins p) (players st) in
  let numbered :=
    row_number (order_by (sort_key by_) (direction by_) winners) in
  let ordered :=
    order_by (fun r => sort_key by_ r.2) (direction by_) numbered in
  entry by_ <$> take 3 ordered.

End Database.

(** ** routes/api.ts *)

Module Api.
Import GameLogic.

(** [JSON.parse(game.grid)] on a game that [getGameById] returned. The
    argument is not the text of the column: [getGameById] has parsed it, so
    it is the matrix. [JSON.parse] first converts its argument to a string,
    and an array becomes the text of its cells separated by commas (the
    rows are flattened, [undefined] gives the empty text). That text is
    JSON only when it is one number, which is then the value; in every
    other case [JSON.parse] throws a SyntaxError. *)
Inductive Parsed := ParsedNumber (n : Z).

Definition JSON_parse (grid : Grid) : result Parsed :=
  match grid with
  | [ [JNum n] ] => Ok (ParsedNumber n)
  | _ => Throw SyntaxError
  end.

(** The value used as a grid. A number has no rows: [n[row]] is
    [undefined] for every row, so that [n[row][col]] throws a TypeError,
    and [n.map] is no function, a TypeError as well; these are the results
    the functions of the game logic give on the array without rows. *)
Definition as_grid (v : Parsed) : Grid := [].

Inductive Body :=
  | ErrorBody (error : string)
  | PlayerBody (id : Z) (name : string)
  | CreatedBody (gameId : string) (status : GameStatus) (grid : Grid)
  | JoinedBody (message gameId : string) (status : GameStatus)
      (current_turn_player_id : option Z)
  | GameBody (gameId : string) (status : GameStatus)
      (player1_id player2_id current_turn_player_id winner_id : option Z)
      (grid : Parsed)
  | MoveBody (message gameId : string) (newStatus : GameStatus)
      (winner_id : option Z)
  | LeaderboardBody (entries : list LeaderboardEntry.t).

Record Response := respond { status : Z; body : Body }.

Definition fail (code : Z) (error : string) : Response :=
  respond code (ErrorBody error).

(** The [catch] of a handler: the messages it knows, then 500. *)
Definition on_error (known : list (string * Z)) (e : exn) : Response :=
  match e with
  | Error m =>
      match find (fun k => bool_decide (k.1 = m)) known with
      | Some k => fail k.2 m
      | None => fail 500 "Internal server error"
      end
  | _ => fail 500 "Internal server error"
  end.

(** [POST /players]; [name] is the trimmed name of the body. *)
Definition postPlayers (name : string) (st : Database.Store)
  : Response * Database.Store :=
  if bool_decide (name = "") then
    (fail 400 "Name is required and must be a non-empty string", st)
  else
    match Database.createPlayer name st with
    | (Ok p, st') => (respond 201 (PlayerBody (Player.id p) (Player.name p)), st')
    | (Throw e, st') =>
        (on_error [("Player with this name already exists", 409)] e, st')
    end.

(** [POST /games]; [gameId] is the identifier drawn by [uuidv4()]. *)
Definition postGames (playerId : Z) (gameId : string) (st : Database.Store)
  : Response * Database.Store :=
  if bool_decide (playerId = 0) then
    (fail 400 "playerId is required and must be a number", st)
  else
    match Database.getPlayerById playerId st with
    | None => (fail 404 "Player not found", st)
    | Some _ =>
        match Database.createGame playerId gameId createEmptyGrid st with
        | (Ok g, st') =>
            (respond 201 (CreatedBody (Game.id g) (Game.status g) (Game.grid g)), st')
        | (Throw e, st') => (on_error [] e, st')
        end
    end.

(** [POST /games/:gameId/join] *)
Definition postJoin (gameId : string) (playerId : Z) (st : Database.Store)
  : Response * Database.Store :=
  if bool_decide (playerId = 0) then
    (fail 400 "playerId is required and must be a number", st)
  else
    match Database.getPlayerById playerId st with
    | None => (fail 404 "Player not found", st)
    | Some _ =>
        match Database.getGameById gameId st with
        | None => (fail 404 "Game not found", st)
        | Some _ =>
            match Database.joinGame gameId playerId st with
            | (Ok g, st') =>
                (respond 200
                   (JoinedBody "Player 2 joined. Game is now in progress."
                      (Game.id g) (Game.status g) (Game.current_turn_player_id g)),
                 st')
            | (Throw e, st') =>
                (on_error [("Game not found", 404);
                           ("Game is not in waiting state", 409);
                           ("Cannot join your own game", 409)] e, st')
            end
        end
    end.

(** [GET /games/:gameId] *)
Definition getGame (gameId : string) (st : Database.Store) : Response :=
  match Database.getGameById gameId st with
  | None => fail 404 "Game not found"
  | Some gp =>
      let g := Database.game gp in
      match JSON_parse (Game.grid g) with
      | Throw _ => fail 500 "Internal server error"
      | Ok grid =>
          respond 200
            (GameBody (Game.id g) (Game.status g) (Game.player1_id g)
               (Game.player2_id g) (Game.current_turn_player_id g)
               (Game.winner_id g) grid)
      end
  end.

(** The state of the game after a mark: the win check comes first, the
    draw check only when it fails. *)
Definition evaluate (newGrid : Grid) (playerNumber playerId : Z)
  : result (GameStatus * option Z) :=
  won ← checkWin newGrid playerNumber;
  if won : bool then Ok (win, Some playerId)
  else
    full ← checkDraw newGrid;
    if full : bool then Ok (draw, None) else Ok (in_progress, None).

(** The mark of a player: 1 for the first player of the game, 2 otherwise. *)
Definition playerNumber (game : Game.t) (playerId : Z) : Z :=
  if bool_decide (Game.player1_id game = Some playerId) then 1 else 2.

(** [POST /games/:gameId/move] *)
Definition postMove (gameId : string) (playerId row col : Z) (st : Database.Store)
  : Response * Database.Store :=
  let known := [("Game not found", 404); ("Game is not in progress", 403);
                ("Not your turn", 403); ("Cell is already occupied", 409)] in
  if bool_decide (playerId = 0) then
    (fail 400 "playerId is required and must be a number", st)
  else
    match Database.getPlayerById playerId st with
    | None => (fail 404 "Player not found", st)
    | Some _ =>
        match Database.getGameById gameId st with
        | None => (fail 404 "Game not found", st)
        | Some gp =>
            let game := Database.game gp in
            if negb (bool_decide (Game.status game = in_progress)) then
              (fail 403 "Game is not in progress", st)
            else if negb (bool_decide
                            (Game.current_turn_player_id game = Some playerId)) then
              (fail 403 "Not your turn", st)
            else
              match JSON_parse (Game.grid game) with
              | Throw e => (on_error known e, st)
              | Ok parsed =>
                  let currentGrid := as_grid parsed in
                  match isMoveValid currentGrid row col with
                  | Throw e => (on_error known e, st)
                  | Ok false =>
                      (fail 409
                         "Invalid move: cell is already occupied or out of bounds",
                       st)
                  | Ok true =>
                      let mark := playerNumber game playerId in
                      match
                        newGrid ← makeMove currentGrid row col mark;
                        outcome ← evaluate newGrid mark playerId;
                        Ok (newGrid, outcome)
                      with
                      | Throw e => (on_error known e, st)
                      | Ok (newGrid, (newStatus, winnerId)) =>
                          match Database.makeMove gameId playerId row col
                                  newGrid newStatus winnerId st with
                          | (Ok (g, _), st') =>
                              (respond 200
                                 (MoveBody "Move accepted." (Game.id g)
                                    (Game.status g) (Game.winner_id g)), st')
                          | (Throw e, st') => (on_error known e, st')
                          end
                      end
                  end
              end
        end
    end.

(** [GET /leaderboard?by=...]; the message of the 400 answer is written
    without the quotation marks it has around by, wins and efficiency. *)
Definition getLeaderboard `{SqlEngine} (by_ : option string) (st : Database.Store)
  : Response :=
  match by_ with
  | Some "wins" => respond 200 (LeaderboardBody (Database.getLeaderboard Database.wins st))
  | Some "efficiency" =>
      respond 200 (LeaderboardBody (Database.getLeaderboard Database.efficiency st))
  | _ => fail 400 "Query parameter by is required and must be wins or efficiency"
  end.

(** The requests of the engine, and the server as a machine over them. *)
Inductive Request :=
  | PostPlayers (name : string)
  | PostGames (playerId : Z) (gameId : string)
  | PostJoin (gameId : string) (playerId : Z)
  | PostMove (gameId : string) (playerId row col : Z).

Definition handle (r : Request) (st : Database.Store) : Response * Database.Store :=
  match r with
  | PostPlayers name => postPlayers name st
  | PostGames playerId gameId => postGames playerId gameId st
  | PostJoin gameId playerId => postJoin gameId playerId st
  | PostMove gameId playerId row col => postMove gameId playerId row col st
  end.

Definition serve (requests : list Request) (st : Database.Store) : Database.Store :=
  foldl (fun s r => (handle r s).2) st requests.

End Api.

(** ** webapp/src/utils/gameUtils.ts *)

Module GameUtils.
Import GameLogic.

Definition WINNING_LINES : list (list (Z * Z)) :=
  [ (* rows *)
    [ (0, 0); (0, 1); (0, 2) ];
    [ (1, 0); (1, 1); (1, 2) ];
    [ (2, 0); (2, 1); (2, 2) ];
    (* columns *)
    [ (0, 0); (1, 0); (2, 0) ];
    [ (0, 1); (1, 1); (2, 1) ];
    [ (0, 2); (1, 2); (2, 2) ];
    (* diagonals *)
    [ (0, 0); (1, 1); (2, 2) ];
    [ (0, 2); (1, 1); (2, 0) ] ].

(** The body of the loop: the three cells are read, then compared. A line
    with fewer than three cells destructures to [undefined], whose [row]
    cannot be read. *)
Definition line_is_won (grid : Grid) (line : list (Z * Z)) : result bool :=
  match line with
  | a :: b :: c :: _ =>
      valueA ← cell grid a.1 a.2;
      valueB ← cell grid b.1 b.2;
      valueC ← cell grid c.1 c.2;
      Ok (negb (bool_decide (valueA = JNum 0))
          && bool_decide (valueA = valueB) && bool_decide (valueB = valueC))
  | _ => Throw TypeError
  end.

Fixpoint first_won_line (grid : Grid) (lines : list (list (Z * Z)))
  : result (list (Z * Z)) :=
  match lines with
  | [] => Ok []
  | line :: rest =>
      won ← line_is_won grid line;
      if won : bool then Ok line else first_won_line grid rest
  end.

Definition findWinningLine (grid : Grid) : result (list (Z * Z)) :=
  first_won_line grid WINNING_LINES.

End GameUtils.

(** ** simulation/index.ts: the choice of a move *)

Module Simulation.
Import GameLogic.

(** [for (i of range) { ... push ... }]: what the iterations push, in
    order. *)
Fixpoint for_collect {A} (f : Z -> result (list A)) (range : list Z)
  : result (list A) :=
  match range with
  | [] => Ok []
  | i :: rest => xs ← f i; ys ← for_collect f rest; Ok (xs ++ ys)
  end.

(** The free cells, row by row. *)
Definition validMoves (grid : Grid) : result (list (Z * Z)) :=
  for_collect (fun row =>
    for_collect (fun col =>
      free ← cell_is grid row col 0;
      Ok (if free : bool then [(row, col)] else [])) [0; 1; 2]) [0; 1; 2].

(** What [findRandomValidMove] returns: [null], a move, or [undefined] (an
    index outside the array). *)
Inductive Choice :=
  | Null
  | Chosen (row col : Z)
  | Undefined.

(** [random] is the value of [Math.random()]. The index is the floor of a
    product of doubles; an index that is no number of an element reads
    [undefined]. *)
Definition findRandomValidMove (random : Double.t) (grid : Grid) : result Choice :=
  moves ← validMoves grid;
  if bool_decide (length moves = 0%nat) then Ok Null
  else
    match
      index ← Double.floor
                (Double.mul random (Double.of_Z (Z.of_nat (length moves))));
      array_get moves index
    with
    | Some (row, col) => Ok (Chosen row col)
    | None => Ok Undefined
    end.

End Simulation.

(** ** Observations used in the statements *)

(** The player of the last recorded move of a game. *)
Definition last_mover (gameId : string) (moves : list Move.t) : option Z :=
  Move.player_id <$> last (filter (fun m => Move.game_id m = gameId) moves).


(** What holds of every game the server stores. *)
Definition game_ok (moves : list Move.t) (gameId : string) (g : Game.t) : Prop :=
  GameLogic.grid3x3 (Game.grid g) /\
  Game.move_count g = GameLogic.marked_cells (Game.grid g) /\
  (Game.status g = GameLogic.win \/ Game.status g = GameLogic.draw ->
   exists p,
     Game.current_turn_player_id g = Some p /\
     last_mover gameId moves = Some p /\
     (Game.status g = GameLogic.win -> Game.winner_id g = Some p)).

Definition store_ok (st : Database.Store) : Prop :=
  forall gameId g,
    Database.games st !! gameId = Some g -> game_ok (Database.moves st) gameId g.

(** ** The transitions of the store *)

(** The stores of the engine. The router reaches them from the empty store
    by its requests. A move is committed by [Database.makeMove], called with
    the grid that [makeMove] computes from the stored grid and with the
    status and the winner that [checkWin] and [checkDraw] give for the new
    grid: the values that lines 219-233 of the move handler compute from
    the grid they are given. *)
Inductive reachable : Database.Store -> Prop :=
  | reachable_empty : reachable Database.empty
  | reachable_request (r : Api.Request) (st : Database.Store) :
      reachable st -> reachable (Api.handle r st).2
  | reachable_move (st st' : Database.Store) (gameId : string)
      (playerId row col : Z) (game : Game.t) (newGrid : GameLogic.Grid)
      (newStatus : GameLogic.GameStatus) (winnerId : option Z)
      (updated : Game.t * Z) :
      reachable st ->
      Database.games st !! gameId = Some game ->
      GameLogic.makeMove (Game.grid game) row col (Api.playerNumber game playerId)
        = Ok newGrid ->
      Api.evaluate newGrid (Api.playerNumber game playerId) playerId
        = Ok (newStatus, winnerId) ->
      Database.makeMove gameId playerId row col newGrid newStatus winnerId st
        = (Ok updated, st') ->
      reachable st'.

(** What a request or a committed move can do to the store: nothing, or one
    of four writes. *)
Inductive step (st : Database.Store) : Database.Store -> Prop :=
  | step_refused : step st st
  | step_player (name : string) :
      name <> "" ->
      (forall p, p ∈ Database.players st -> Player.name p <> name) ->
      step st (Database.mkStore
                 (Database.players st
                  ++ [Player.mk (Database.players_seq st + 1) name 0 0])
                 (Database.players_seq st + 1)
                 (Database.games st) (Database.moves st))
  | step_game (playerId : Z) (gameId : string) :
      playerId <> 0 ->
      is_Some (Database.getPlayerById playerId st) ->
      Database.games st !! gameId = None ->
      step st (Database.mkStore (Database.players st) (Database.players_seq st)
                 (<[gameId := Game.mk gameId (Some playerId) None (Some playerId)
                                 GameLogic.waiting None GameLogic.createEmptyGrid 0]>
                    (Database.games st))
                 (Database.moves st))
  | step_join (gameId : string) (playerId : Z) (g : Game.t) :
      playerId <> 0 ->
      is_Some (Database.getPlayerById playerId st) ->
      Database.games st !! gameId = Some g ->
      Game.status g = GameLogic.waiting ->
      Game.player1_id g <> Some playerId ->
      step st (Database.mkStore (Database.players st) (Database.players_seq st)
                 (<[gameId := Game.mk gameId (Game.player1_id g) (Some playerId)
                                 (Game.current_turn_player_id g) GameLogic.in_progress
                                 (Game.winner_id g) (Game.grid g) (Game.move_count g)]>
                    (Database.games st))
                 (Database.moves st))
  | step_move (gameId : string) (playerId row col : Z) (game : Game.t)
      (newGrid : GameLogic.Grid) (newStatus : GameLogic.GameStatus)
      (winnerId : option Z) :
      playerId <> 0 ->
      is_Some (Database.getPlayerById playerId st) ->
      Database.games st !! gameId = Some game ->
      Game.status game = GameLogic.in_progress ->
      Game.current_turn_player_id game = Some playerId ->
      GameLogic.isMoveValid (Game.grid game) row col = Ok true ->
      GameLogic.makeMove (Game.grid game) row col (Api.playerNumber game playerId)
        = Ok newGrid ->
      Api.evaluate newGrid (Api.playerNumber game playerId) playerId
        = Ok (newStatus, winnerId) ->
      step st (Database.commit_move game gameId playerId row col newGrid newStatus
                 winnerId st).2.

(** A registered player: a non-zero id that [getPlayerById] finds. *)
Definition registered (st : Database.Store) (p : Z) : Prop :=
  p <> 0 /\ is_Some (Database.getPlayerById p st).

(** The ids are the numbers given so far, without repetition, and no name
    is used twice. *)
Definition players_ok (st : Database.Store) : Prop :=
  0 <= Database.players_seq st /\
  (forall p, p ∈ Database.players st -> 0 < Player.id p <= Database.players_seq st) /\
  NoDup (Player.id <$> Database.players st) /\
  NoDup (Player.name <$> Database.players st).

(** The player of the move number k + 1 of a game: the first player moves
    first, then the two alternate. *)
Definition seat (g : Game.t) (k : nat) : option Z :=
  if Nat.even k then Game.player1_id g else Game.player2_id g.

Definition seats_ok (st : Database.Store) (gameId : string) (g : Game.t) : Prop :=
  Game.id g = gameId /\
  (exists p1, Game.player1_id g = Some p1 /\ registered st p1) /\
  (Game.status g = GameLogic.waiting <-> Game.player2_id g = None) /\
  (forall p2, Game.player2_id g = Some p2 ->
     registered st p2 /\ Game.player1_id g <> Some p2).

Definition turn_ok (g : Game.t) : Prop :=
  match Game.status g with
  | GameLogic.waiting =>
      Game.current_turn_player_id g = Game.player1_id g /\
      Game.move_count g = 0 /\ Game.grid g = GameLogic.createEmptyGrid
  | GameLogic.in_progress =>
      Game.current_turn_player_id g = seat g (Z.to_nat (Game.move_count g))
  | _ => True
  end.

Definition no_line (g : Game.t) : Prop :=
  GameLogic.checkWin (Game.grid g) 1 = Ok false /\
  GameLogic.checkWin (Game.grid g) 2 = Ok false.

Definition outcome_ok (g : Game.t) : Prop :=
  match Game.status g with
  | GameLogic.waiting | GameLogic.in_progress =>
      Game.winner_id g = None /\ no_line g /\
      GameLogic.checkDraw (Game.grid g) = Ok false
  | GameLogic.win =>
      exists w, Game.winner_id g = Some w /\
                (Game.player1_id g = Some w \/ Game.player2_id g = Some w) /\
                GameLogic.checkWin (Game.grid g) (Api.playerNumber g w) = Ok true
  | GameLogic.draw =>
      Game.winner_id g = None /\ no_line g /\
      GameLogic.checkDraw (Game.grid g) = Ok true
  end.

(** The recorded moves of a game, in the order of their insertion. *)
Definition trail (gameId : string) (moves : list Move.t) : list Move.t :=
  filter (fun m => Move.game_id m = gameId) moves.

Definition trail_ok (moves : list Move.t) (gameId : string) (g : Game.t) : Prop :=
  Z.of_nat (length (trail gameId moves)) = Game.move_count g /\
  (forall k m, trail gameId moves !! k = Some m ->
     Move.move_number m = Z.of_nat k + 1 /\
     Some (Move.player_id m) = seat g k /\
     GameLogic.cell (Game.grid g) (Move.row m) (Move.col m)
       = Ok (JNum (if Nat.even k then 1 else 2))).

(** The sum of a quantity over the games of the table. *)
Definition games_sum (f : Game.t -> Z) (games : gmap string Game.t) : Z :=
  foldr (fun kg acc => f kg.2 + acc) 0 (map_to_list games).

Definition won_by (p : Z) (g : Game.t) : bool :=
  bool_decide (Game.status g = GameLogic.win /\ Game.winner_id g = Some p).

Definition stats_ok (st : Database.Store) : Prop :=
  forall p, p ∈ Database.players st ->
    Player.total_wins p
      = games_sum (fun g => if won_by (Player.id p) g then 1 else 0)
          (Database.games st) /\
    Player.total_moves_in_wins p
      = games_sum (fun g => if won_by (Player.id p) g then Game.move_count g else 0)
          (Database.games st).

Definition store_inv (st : Database.Store) : Prop :=
  store_ok st /\
  players_ok st /\
  (forall gameId g, Database.games st !! gameId = Some g ->
     seats_ok st gameId g /\ turn_ok g /\ outcome_ok g
     /\ trail_ok (Database.moves st) gameId g) /\
  (forall m, m ∈ Database.moves st -> is_Some (Database.games st !! Move.game_id m)) /\
  stats_ok st.

(** A store without a move: no move is recorded, every game has the empty
    grid, no winner and the status [waiting] or [in_progress], and every
    player has the counters 0. *)
Definition unplayed (st : Database.Store) : Prop :=
  Database.moves st = [] /\
  (forall gameId g,
     Database.games st !! gameId = Some g ->
     Game.move_count g = 0 /\ Game.grid g = GameLogic.createEmptyGrid /\
     Game.winner_id g = None /\
     (Game.status g = GameLogic.waiting \/ Game.status g = GameLogic.in_progress)) /\
  (forall p, p ∈ Database.players st ->
     Player.total_wins p = 0 /\ Player.total_moves_in_wins p = 0).

(** The players after a committed move: the same rows, the winner's row
    with its two counters raised. *)
Definition players_after (moveNumber : Z) (winnerId : option Z)
    (ps : list Player.t) : list Player.t :=
  match winnerId with
  | Some w => if bool_decide (w = 0) then ps else Database.record_win moveNumber w ps
  | None => ps
  end.

(** The order of the statuses in the life of a game. *)
Definition status_rank (s : GameLogic.GameStatus) : Z :=
  match s with
  | GameLogic.waiting => 0
  | GameLogic.in_progress => 1
  | GameLogic.win | GameLogic.draw => 2
  end.

(** Three cells that hold the same value, which is not 0. *)
Definition same_mark (a b c : jsval) : bool :=
  negb (bool_decide (a = JNum 0)) && bool_decide (a = b) && bool_decide (b = c).

(** The move a free cell contributes to [validMoves]. *)
Definition free_at (rc : Z * Z) (v : jsval) : list (Z * Z) :=
  if GameLogic.is_mark 0 v then [rc] else [].

(** The number of cells that hold the mark [p]. *)
Definition marks (p : Z) (grid : GameLogic.Grid) : Z :=
  Z.of_nat (length (filter (fun v => v = JNum p) (concat grid))).

(** The first player has made the moves 1, 3, 5, ..., the second the moves
    2, 4, 6, ... *)
Definition marks_ok (g : Game.t) : Prop :=
  marks 1 (Game.grid g) = (Game.move_count g + 1) / 2 /\
  marks 2 (Game.grid g) = Game.move_count g / 2.

Definition marks_inv (st : Database.Store) : Prop :=
  forall gameId g, Database.games st !! gameId = Some g -> marks_ok g.

(** ** The scenarios of the specification *)

(** Player statistics without a tie: B has two wins, A has one. *)
Definition two_winners : Database.Store :=
  Database.mkStore [ Player.mk 1 "A" 1 5; Player.mk 2 "B" 2 12 ] 2 ∅ [].

(** A heap that holds the empty grid: three rows and the array of them. *)
Definition empty_grid_heap : JsHeap.heap :=
  <[4%positive := JsHeap.Rows [1; 2; 3]%positive]>
    (<[3%positive := JsHeap.Row [JNum 0; JNum 0; JNum 0]]>
       (<[2%positive := JsHeap.Row [JNum 0; JNum 0; JNum 0]]>
          (<[1%positive := JsHeap.Row [JNum 0; JNum 0; JNum 0]]> ∅))).

(** Four players with wins, one more than the leaderboard shows. *)
Definition four_winners : Database.Store :=
  Database.mkStore
    [ Player.mk 1 "A" 1 5; Player.mk 2 "B" 3 20; Player.mk 3 "C" 2 12;
      Player.mk 4 "D" 1 9 ] 4 ∅ [].


(** Scenario A as requests to the router: A and B register, A opens the
    game, B joins, and the five moves are sent, the last one to complete
    the top row. *)
Definition scenario_A : list Api.Request :=
  [ Api.PostPlayers "A"; Api.PostPlayers "B";
    Api.PostGames 1 "g"; Api.PostJoin "g" 2;
    Api.PostMove "g" 1 0 0; Api.PostMove "g" 2 1 1;
    Api.PostMove "g" 1 0 1; Api.PostMove "g" 2 1 0;
    Api.PostMove "g" 1 0 2 ].

(** The store when B has joined, and the game it holds. *)
Definition scenario_A_joined : Database.Store :=
  Api.serve (take 4 scenario_A) Database.empty.

Definition game_after_join : Game.t :=
  Game.mk "g" (Some 1) (Some 2) (Some 1) GameLogic.in_progress None
    GameLogic.createEmptyGrid 0.

(** Scenario A on the database: the five moves committed by
    [Database.makeMove], each with the grid the move gives. *)
Definition commit (gameId : string) (playerId row col : Z)
    (newGrid : GameLogic.Grid) (newStatus : GameLogic.GameStatus)
    (winnerId : option Z) (st : Database.Store) : Database.Store :=
  (Database.makeMove gameId playerId row col newGrid newStatus winnerId st).2.

Definition scenario_A_grid : GameLogic.Grid :=
  [ [JNum 1; JNum 1; JNum 1];
    [JNum 2; JNum 2; JNum 0];
    [JNum 0; JNum 0; JNum 0] ].

Definition scenario_A_before_last : Database.Store :=
  commit "g" 2 1 0
    [ [JNum 1; JNum 1; JNum 0]; [JNum 2; JNum 2; JNum 0]; [JNum 0; JNum 0; JNum 0] ]
    GameLogic.in_progress None
    (commit "g" 1 0 1
       [ [JNum 1; JNum 1; JNum 0]; [JNum 0; JNum 2; JNum 0]; [JNum 0; JNum 0; JNum 0] ]
       GameLogic.in_progress None
       (commit "g" 2 1 1
          [ [JNum 1; JNum 0; JNum 0]; [JNum 0; JNum 2; JNum 0];
            [JNum 0; JNum 0; JNum 0] ]
          GameLogic.in_progress None
          (commit "g" 1 0 0
             [ [JNum 1; JNum 0; JNum 0]; [JNum 0; JNum 0; JNum 0];
               [JNum 0; JNum 0; JNum 0] ]
             GameLogic.in_progress None scenario_A_joined))).

Definition scenario_A_store : Database.Store :=
  commit "g" 1 0 2 scenario_A_grid GameLogic.win (Some 1) scenario_A_before_last.

Definition game_before_last : Game.t :=
  Game.mk "g" (Some 1) (Some 2) (Some 1) GameLogic.in_progress None
    [ [JNum 1; JNum 1; JNum 0]; [JNum 2; JNum 2; JNum 0]; [JNum 0; JNum 0; JNum 0] ] 4.

Definition scenario_A_game : Game.t :=
  Game.mk "g" (Some 1) (Some 2) (Some 1) GameLogic.win (Some 1) scenario_A_grid 5.

(** * Theorems *)

Import GameLogic.

Lemma grid3x3_inv (g : Grid) :
  grid3x3 g ->
  exists a b c d e f x y z : jsval, g = [ [a; b; c]; [d; e; f]; [x; y; z] ].
Proof.
  intros [Hlen Hrows].
  destruct g as [|r0 [|r1 [|r2 [|]]]]; simplify_eq/=.
  repeat match goal with
         | H : Forall _ (_ :: _) |- _ => apply Forall_cons in H; destruct H
         end.
  destruct r0 as [|? [|? [|? [|]]]]; simplify_eq/=.
  destruct r1 as [|? [|? [|? [|]]]]; simplify_eq/=.
  destruct r2 as [|? [|? [|? [|]]]]; simplify_eq/=.
  eauto 10.
Qed.

Lemma range3 (i : Z) : 0 <= i <= 2 -> i = 0 \/ i = 1 \/ i = 2.
Proof. lia. Qed.

Ltac grid_cases g H :=
  destruct (grid3x3_inv g H) as (c00&c01&c02&c10&c11&c12&c20&c21&c22&->).

Lemma array_get_nonneg {A} (a : list A) (i : Z) :
  0 <= i -> array_get a i = a !! Z.to_nat i.
Proof. intros. unfold array_get. by rewrite decide_True. Qed.

Lemma array_get_neg {A} (a : list A) (i : Z) : i < 0 -> array_get a i = None.
Proof. intros. unfold array_get. rewrite decide_False; [done | lia]. Qed.

Lemma grid3x3_lookup (g : Grid) (row col : Z) :
  grid3x3 g -> 0 <= row <= 2 -> 0 <= col <= 2 ->
  exists r v, g !! Z.to_nat row = Some r /\ r !! Z.to_nat col = Some v /\
              length r = 3%nat.
Proof.
  intros [Hlen Hrows] Hr Hc.
  destruct (lookup_lt_is_Some_2 g (Z.to_nat row)) as [r Hg]; [lia|].
  pose proof (Forall_lookup_1 _ _ _ _ Hrows Hg) as Hlr. cbn in Hlr.
  destruct (lookup_lt_is_Some_2 r (Z.to_nat col)) as [v Hv]; [lia|].
  eauto.
Qed.

Lemma cell_in_range (g : Grid) (row col : Z) r v :
  0 <= row -> 0 <= col ->
  g !! Z.to_nat row = Some r -> r !! Z.to_nat col = Some v ->
  cell g row col = Ok v.
Proof.
  intros Hr Hc Hg Hv. unfold cell.
  rewrite array_get_nonneg, Hg by done. unfold row_get.
  by rewrite array_get_nonneg, Hv.
Qed.

(** C9. On a 3x3 grid and integer coordinates, [isMoveValid] returns a
    boolean (it does not throw), and the boolean is [true] exactly when
    both coordinates are in 0..2 and the cell there is the number 0; out of
    range the answer is [false]. *)
Theorem isMoveValid_true_iff (grid : Grid) (row col : Z) :
  grid3x3 grid ->
  exists b : bool,
    isMoveValid grid row col = Ok b /\
    (b = true <->
     0 <= row <= 2 /\ 0 <= col <= 2 /\
     grid !! Z.to_nat row ≫= (fun r => r !! Z.to_nat col) = Some (JNum 0)).
Proof.
  intros H3. unfold isMoveValid.
  destruct (decide (0 <= row <= 2 /\ 0 <= col <= 2)) as [[Hr Hc]|Hout].
  - destruct (grid3x3_lookup grid row col H3 Hr Hc) as (r & v & Hg & Hv & _).
    rewrite (bool_decide_eq_false_2 (row < 0)), (bool_decide_eq_false_2 (row > 2)),
      (bool_decide_eq_false_2 (col < 0)), (bool_decide_eq_false_2 (col > 2)) by lia.
    cbn [orb]. unfold cell_is.
    rewrite (cell_in_range grid row col r v) by (done || lia). cbn.
    eexists; split; [reflexivity|].
    rewrite bool_decide_eq_true, Hg. cbn. rewrite Hv.
    split; [intros ->; done | intros (_ & _ & ?); congruence].
  - exists false. split; [|split; [discriminate | intros (? & ? & _); tauto]].
    assert (bool_decide (row < 0) || bool_decide (row > 2)
            || bool_decide (col < 0) || bool_decide (col > 2) = true) as ->; [|done].
    rewrite !orb_true_iff, !bool_decide_eq_true. lia.
Qed.

Lemma isMoveValid_true_iff_witness :
  exists b : bool,
    isMoveValid createEmptyGrid 3 0 = Ok b /\
    (b = true <->
     0 <= 3 <= 2 /\ 0 <= 0 <= 2 /\
     createEmptyGrid !! Z.to_nat 3 ≫= (fun r => r !! Z.to_nat 0) = Some (JNum 0)).
Proof.
  apply (isMoveValid_true_iff createEmptyGrid 3 0).
  split; [reflexivity | repeat constructor].
Defined.

(** [checkDraw] and [checkWin] on a grid written out cell by cell. *)

Lemma checkDraw_3x3 (a b c d e f x y z : jsval) :
  checkDraw [ [a; b; c]; [d; e; f]; [x; y; z] ] =
  Ok (forallb (forallb (fun v => negb (is_mark 0 v)))
        [ [a; b; c]; [d; e; f]; [x; y; z] ]).
Proof.
  cbv -[bool_decide jsval_eq_dec].
  repeat (case_bool_decide; try reflexivity).
Qed.

Lemma checkWin_3x3 (p : Z) (a b c d e f x y z : jsval) :
  checkWin [ [a; b; c]; [d; e; f]; [x; y; z] ] p =
  Ok (is_mark p a && is_mark p b && is_mark p c
      || is_mark p d && is_mark p e && is_mark p f
      || is_mark p x && is_mark p y && is_mark p z
      || is_mark p a && is_mark p d && is_mark p x
      || is_mark p b && is_mark p e && is_mark p y
      || is_mark p c && is_mark p f && is_mark p z
      || is_mark p a && is_mark p e && is_mark p z
      || is_mark p c && is_mark p e && is_mark p x).
Proof.
  cbv -[bool_decide jsval_eq_dec].
  repeat (case_bool_decide; try reflexivity).
Qed.

Lemma evaluate_draw_iff (g : Grid) (playerNumber playerId : Z) (w : option Z) :
  Api.evaluate g playerNumber playerId = Ok (draw, w) <->
  checkWin g playerNumber = Ok false /\ checkDraw g = Ok true /\ w = None.
Proof.
  unfold Api.evaluate.
  generalize (checkWin g playerNumber) (checkDraw g).
  intros [[]|] [[]|]; cbn;
    (split; [intros ?; by simplify_eq | intros (? & ? & ?); by simplify_eq]).
Qed.

(** C10. On a 3x3 grid [checkDraw] answers [true] exactly when no cell is
    0, whether or not a line is complete (there is a full grid with a
    complete line on which it answers [true]). The handler reaches the
    status [draw] only when [checkWin] has answered [false] before; when
    [checkWin] answers [true] the status is [win], whatever [checkDraw]
    would say. *)
Theorem checkDraw_full_grid_only (grid : Grid) (playerNumber playerId : Z) :
  grid3x3 grid ->
  (exists b : bool,
     checkDraw grid = Ok b /\
     (b = true <-> Forall (Forall (fun v => v <> JNum 0)) grid)) /\
  (exists full : Grid,
     grid3x3 full /\ checkWin full 1 = Ok true /\ checkDraw full = Ok true) /\
  (forall w,
     Api.evaluate grid playerNumber playerId = Ok (draw, w) <->
     checkWin grid playerNumber = Ok false /\ checkDraw grid = Ok true /\ w = None) /\
  (checkWin grid playerNumber = Ok true ->
   Api.evaluate grid playerNumber playerId = Ok (win, Some playerId)).
Proof.
  intros H3. split; [|split; [|split]].
  - grid_cases grid H3. rewrite checkDraw_3x3. eexists; split; [reflexivity|].
    cbn [forallb]. unfold is_mark.
    rewrite !Forall_cons, !Forall_nil, !andb_true_iff, !negb_true_iff,
      !bool_decide_eq_false.
    tauto.
  - exists [ [JNum 1; JNum 1; JNum 1]; [JNum 2; JNum 2; JNum 1];
             [JNum 2; JNum 1; JNum 2] ].
    split; [split; [reflexivity | repeat constructor] | split; reflexivity].
  - intros w. apply evaluate_draw_iff.
  - intros Hwin. unfold Api.evaluate. by rewrite Hwin.
Qed.

Lemma checkDraw_full_grid_only_witness :
  (exists b : bool,
     checkDraw createEmptyGrid = Ok b /\
     (b = true <-> Forall (Forall (fun v => v <> JNum 0)) createEmptyGrid)) /\
  (exists full : Grid,
     grid3x3 full /\ checkWin full 1 = Ok true /\ checkDraw full = Ok true) /\
  (forall w,
     Api.evaluate createEmptyGrid 1 7 = Ok (draw, w) <->
     checkWin createEmptyGrid 1 = Ok false /\
     checkDraw createEmptyGrid = Ok true /\ w = None) /\
  (checkWin createEmptyGrid 1 = Ok true ->
   Api.evaluate createEmptyGrid 1 7 = Ok (win, Some 7)).
Proof.
  apply (checkDraw_full_grid_only createEmptyGrid 1 7).
  split; [reflexivity | repeat constructor].
Defined.

(** ** The session store *)

Arguments Api.evaluate : simpl never.
Arguments isMoveValid : simpl never.
Arguments makeMove : simpl never.
Arguments checkWin : simpl never.
Arguments checkDraw : simpl never.
Arguments cell : simpl never.
Arguments marked_cells : simpl never.
Arguments last_mover : simpl never.
Arguments Database.commit_move : simpl never.
Arguments Database.getPlayerById : simpl never.

Lemma transaction_ok {A} (body : Database.Store -> result A * Database.Store) st a st' :
  body st = (Ok a, st') -> Database.transaction body st = (Ok a, st').
Proof. unfold Database.transaction. by intros ->. Qed.

Lemma transaction_throw {A} (body : Database.Store -> result A * Database.Store) st e st' :
  body st = (Throw e, st') -> Database.transaction body st = (Throw e, st).
Proof. unfold Database.transaction. by intros ->. Qed.

Lemma joinGame_not_found st gameId playerId :
  Database.games st !! gameId = None ->
  Database.joinGame gameId playerId st = (Throw (Error "Game not found"), st).
Proof.
  intros Hg. eapply transaction_throw.
  unfold Database.joinGame_body. by rewrite Hg.
Qed.

Lemma joinGame_not_waiting st gameId playerId g :
  Database.games st !! gameId = Some g -> Game.status g <> waiting ->
  Database.joinGame gameId playerId st =
    (Throw (Error "Game is not in waiting state"), st).
Proof.
  intros Hg Hs. eapply transaction_throw.
  unfold Database.joinGame_body. rewrite Hg.
  by rewrite bool_decide_eq_false_2.
Qed.

Lemma joinGame_own_game st gameId playerId g :
  Database.games st !! gameId = Some g -> Game.status g = waiting ->
  Game.player1_id g = Some playerId ->
  Database.joinGame gameId playerId st =
    (Throw (Error "Cannot join your own game"), st).
Proof.
  intros Hg Hs Hp. eapply transaction_throw.
  unfold Database.joinGame_body. rewrite Hg.
  by rewrite (bool_decide_eq_true_2 _ Hs), (bool_decide_eq_true_2 _ Hp).
Qed.

Lemma joinGame_joined st gameId playerId g :
  Database.games st !! gameId = Some g -> Game.status g = waiting ->
  Game.player1_id g <> Some playerId ->
  let g' := Game.mk gameId (Game.player1_id g) (Some playerId)
              (Game.current_turn_player_id g) in_progress (Game.winner_id g)
              (Game.grid g) (Game.move_count g) in
  Database.joinGame gameId playerId st =
    (Ok g', Database.mkStore (Database.players st) (Database.players_seq st)
              (<[gameId := g']> (Database.games st)) (Database.moves st)).
Proof.
  intros Hg Hs Hp g'. eapply transaction_ok.
  unfold Database.joinGame_body. rewrite Hg.
  by rewrite (bool_decide_eq_true_2 _ Hs), (bool_decide_eq_false_2 _ Hp).
Qed.

(** C4. [joinGame] answers "Game not found" for an unknown id, "Game is not
    in waiting state" for a game whose status is not [waiting], and "Cannot
    join your own game" for the first player of a waiting game; none of
    these changes the store. Otherwise it seats the second player, sets the
    status to [in_progress] and leaves the turn (and everything else) as it
    was: the turn stays with the first player. *)
Theorem joinGame_outcomes (st : Database.Store) (gameId : string) (playerId : Z) :
  (Database.games st !! gameId = None ->
   Database.joinGame gameId playerId st = (Throw (Error "Game not found"), st)) /\
  (forall g,
     Database.games st !! gameId = Some g -> Game.status g <> waiting ->
     Database.joinGame gameId playerId st =
       (Throw (Error "Game is not in waiting state"), st)) /\
  (forall g,
     Database.games st !! gameId = Some g -> Game.status g = waiting ->
     Game.player1_id g = Some playerId ->
     Database.joinGame gameId playerId st =
       (Throw (Error "Cannot join your own game"), st)) /\
  (forall g,
     Database.games st !! gameId = Some g -> Game.status g = waiting ->
     Game.player1_id g <> Some playerId ->
     exists g' st',
       Database.joinGame gameId playerId st = (Ok g', st') /\
       Database.games st' = <[gameId := g']> (Database.games st) /\
       Database.players st' = Database.players st /\
       Database.moves st' = Database.moves st /\
       Game.player2_id g' = Some playerId /\
       Game.status g' = in_progress /\
       Game.current_turn_player_id g' = Game.current_turn_player_id g /\
       (Game.current_turn_player_id g = Game.player1_id g ->
        Game.current_turn_player_id g' = Game.player1_id g') /\
       Game.player1_id g' = Game.player1_id g /\
       Game.winner_id g' = Game.winner_id g /\
       Game.grid g' = Game.grid g /\
       Game.move_count g' = Game.move_count g).
Proof.
  split; [apply joinGame_not_found|].
  split; [intros g; apply joinGame_not_waiting|].
  split; [intros g; apply joinGame_own_game|].
  intros g Hg Hs Hp. eexists _, _.
  split; [by apply joinGame_joined|].
  cbn. repeat split; done.
Qed.

Lemma joinGame_outcomes_witness :
  let st := Api.serve (take 3 scenario_A) Database.empty in
  exists g' st',
    Database.joinGame "g" 2 st = (Ok g', st') /\
    Database.games st' = <["g" := g']> (Database.games st) /\
    Database.players st' = Database.players st /\
    Database.moves st' = Database.moves st /\
    Game.player2_id g' = Some 2 /\
    Game.status g' = in_progress /\
    Game.current_turn_player_id g' = Some 1.
Proof.
  intros st.
  destruct (joinGame_outcomes st "g" 2) as (_ & _ & _ & Hjoin).
  destruct (Hjoin (Game.mk "g" (Some 1) None (Some 1) waiting None createEmptyGrid 0))
    as (g' & st' & H1 & H2 & H3 & H4 & H5 & H6 & H7 & _);
    [reflexivity | reflexivity | discriminate |].
  exists g', st'. repeat split; assumption.
Defined.

Lemma isMoveValid_true_inv (g : Grid) (row col : Z) :
  isMoveValid g row col = Ok true ->
  0 <= row <= 2 /\ 0 <= col <= 2 /\ cell g row col = Ok (JNum 0).
Proof.
  unfold isMoveValid.
  destruct (bool_decide (row < 0) || bool_decide (row > 2)
            || bool_decide (col < 0) || bool_decide (col > 2)) eqn:Hout;
    [discriminate|].
  rewrite !orb_false_iff, !bool_decide_eq_false in Hout.
  unfold cell_is. destruct (cell g row col) as [v|]; cbn; [|discriminate].
  intros [= Hv%bool_decide_eq_true]. subst v. repeat split; lia || done.
Qed.

(** The second [JSON.parse] throws on every grid of three rows of three
    cells. *)
Lemma JSON_parse_3x3 (g : Grid) : grid3x3 g -> Api.JSON_parse g = Throw SyntaxError.
Proof. intros H3. grid_cases g H3. by destruct c00. Qed.

Lemma JSON_parse_cases (g : Grid) :
  (exists n, Api.JSON_parse g = Ok (Api.ParsedNumber n)) \/
  Api.JSON_parse g = Throw SyntaxError.
Proof.
  unfold Api.JSON_parse.
  destruct g as [|[|[n|] [|]] [|]]; eauto.
Qed.

(** On a value without rows a move is out of range, or the read of its
    cell throws. *)
Lemma isMoveValid_no_rows (row col : Z) :
  isMoveValid [] row col = Ok false \/ isMoveValid [] row col = Throw TypeError.
Proof.
  unfold isMoveValid.
  destruct (bool_decide (row < 0) || bool_decide (row > 2)
            || bool_decide (col < 0) || bool_decide (col > 2)); [by left|].
  right. unfold cell_is, cell, array_get. by case_decide.
Qed.

(** The move handler never reaches its call of [Database.makeMove]: it
    answers without a write, whatever the store and the request, and its
    status is never 200. *)
Lemma postMove_refuses st gameId playerId row col :
  (Api.postMove gameId playerId row col st).2 = st /\
  Api.status (Api.postMove gameId playerId row col st).1 <> 200.
Proof.
  unfold Api.postMove, Database.getGameById.
  case_bool_decide as Hpid; [done|].
  destruct (Database.getPlayerById playerId st) as [p|] eqn:Hp; [|done].
  destruct (Database.games st !! gameId) as [game|] eqn:Hg; [|done]. cbn.
  case_bool_decide as Hs; [|done]. cbn.
  case_bool_decide as Ht; [|done]. cbn.
  destruct (JSON_parse_cases (Game.grid game)) as [[n ->] | ->]; [|done].
  unfold Api.as_grid.
  by destruct (isMoveValid_no_rows row col) as [-> | ->].
Qed.

Lemma postMove_store st gameId playerId row col :
  (Api.postMove gameId playerId row col st).2 = st.
Proof. apply postMove_refuses. Qed.

Lemma postMove_on_turn st gameId playerId row col game :
  playerId <> 0 ->
  is_Some (Database.getPlayerById playerId st) ->
  Database.games st !! gameId = Some game ->
  Game.status game = in_progress ->
  Game.current_turn_player_id game = Some playerId ->
  grid3x3 (Game.grid game) ->
  Api.postMove gameId playerId row col st
    = (Api.fail 500 "Internal server error", st).
Proof.
  intros Hpid [p Hp] Hg Hs Ht H3.
  unfold Api.postMove, Database.getGameById.
  rewrite (bool_decide_eq_false_2 _ Hpid), Hp, Hg. cbn.
  rewrite (bool_decide_eq_true_2 _ Hs), (bool_decide_eq_true_2 _ Ht). cbn.
  by rewrite (JSON_parse_3x3 _ H3).
Qed.

(** C5. On a game whose status is [win], [makeMove] answers "Game is not
    in progress" whatever the move, and the store is the one it was given:
    the grid, the move counter and the statistics of the winner are
    untouched. So does the handler for every request of a registered
    player (403), and no request to move changes the store. *)
Theorem won_game_rejects_moves st gameId game playerId row col newGrid newStatus winnerId :
  Database.games st !! gameId = Some game ->
  Game.status game = win ->
  Database.makeMove gameId playerId row col newGrid newStatus winnerId st
    = (Throw (Error "Game is not in progress"), st) /\
  (Api.postMove gameId playerId row col st).2 = st /\
  (playerId <> 0 -> is_Some (Database.getPlayerById playerId st) ->
   (Api.postMove gameId playerId row col st).1
     = Api.fail 403 "Game is not in progress").
Proof.
  intros Hg Hs. split; [|split].
  - eapply transaction_throw. unfold Database.makeMove_body.
    rewrite Hg, Hs. reflexivity.
  - apply postMove_store.
  - intros Hpid [p Hp]. unfold Api.postMove, Database.getGameById.
    rewrite (bool_decide_eq_false_2 _ Hpid), Hp, Hg. cbn. rewrite Hs.
    reflexivity.
Qed.

Lemma won_game_rejects_moves_witness :
  let st := scenario_A_store in
  Database.makeMove "g" 1 0 2 createEmptyGrid win (Some 1) st
    = (Throw (Error "Game is not in progress"), st) /\
  (Api.postMove "g" 1 0 2 st).2 = st /\
  (1 <> 0 -> is_Some (Database.getPlayerById 1 st) ->
   (Api.postMove "g" 1 0 2 st).1 = Api.fail 403 "Game is not in progress").
Proof.
  intros st.
  apply (won_game_rejects_moves st "g"
           (Game.mk "g" (Some 1) (Some 2) (Some 1) win (Some 1)
              [ [JNum 1; JNum 1; JNum 1]; [JNum 2; JNum 2; JNum 0];
                [JNum 0; JNum 0; JNum 0] ] 5));
    reflexivity.
Defined.

Lemma find_record_win (n w q : Z) (ps : list Player.t) :
  find (fun p => bool_decide (Player.id p = q)) (Database.record_win n w ps) =
  if decide (q = w)
  then (fun p => Player.mk (Player.id p) (Player.name p) (Player.total_wins p + 1)
                   (Player.total_moves_in_wins p + n))
       <$> find (fun p => bool_decide (Player.id p = q)) ps
  else find (fun p => bool_decide (Player.id p = q)) ps.
Proof.
  unfold Database.record_win.
  induction ps as [|p ps IH]; [by destruct (decide (q = w))|].
  cbn [fmap list_fmap find]. fold (@fmap list _ Player.t Player.t).
  destruct (bool_decide (Player.id p = w)) eqn:Hpw; cbn [Player.id].
  - apply bool_decide_eq_true in Hpw.
    destruct (decide (q = w)) as [->|Hne].
    + by rewrite !(bool_decide_eq_true_2 (Player.id p = w)).
    + rewrite (bool_decide_eq_false_2 (Player.id p = q)) by congruence.
      exact IH.
  - destruct (bool_decide (Player.id p = q)) eqn:Hpq.
    + apply bool_decide_eq_true in Hpq. apply bool_decide_eq_false in Hpw.
      rewrite decide_False by congruence. done.
    + exact IH.
Qed.

(** What [Database.makeMove] commits, and when. *)
Lemma makeMove_commits st gameId playerId row col newGrid newStatus winnerId game :
  Database.games st !! gameId = Some game ->
  Game.status game = in_progress ->
  Game.current_turn_player_id game = Some playerId ->
  cell (Game.grid game) row col = Ok (JNum 0) ->
  Database.makeMove gameId playerId row col newGrid newStatus winnerId st
    = (Ok (Database.commit_move game gameId playerId row col newGrid newStatus
             winnerId st).1,
       (Database.commit_move game gameId playerId row col newGrid newStatus
          winnerId st).2).
Proof.
  intros Hg Hs Ht Hcell.
  unfold Database.makeMove, Database.transaction, Database.makeMove_body.
  rewrite Hg, (bool_decide_eq_true_2 _ Hs), (bool_decide_eq_true_2 _ Ht), Hcell.
  cbn. by destruct (Database.commit_move _ _ _ _ _ _ _ _ _).
Qed.

Lemma makeMove_Ok_inv st st' gameId playerId row col newGrid newStatus winnerId r :
  Database.makeMove gameId playerId row col newGrid newStatus winnerId st
    = (Ok r, st') ->
  exists game,
    Database.games st !! gameId = Some game /\
    Game.status game = in_progress /\
    Game.current_turn_player_id game = Some playerId /\
    cell (Game.grid game) row col = Ok (JNum 0) /\
    st' = (Database.commit_move game gameId playerId row col newGrid newStatus
             winnerId st).2.
Proof.
  unfold Database.makeMove, Database.transaction, Database.makeMove_body.
  destruct (Database.games st !! gameId) as [game|] eqn:Hg; [|discriminate].
  case_bool_decide as Hs; [|discriminate]. cbn.
  case_bool_decide as Ht; [|discriminate]. cbn.
  destruct (cell (Game.grid game) row col) as [v|] eqn:Hcell; [|discriminate].
  case_bool_decide as Hv; [|discriminate]. cbn.
  destruct (Database.commit_move _ _ _ _ _ _ _ _ _) as [r' st''] eqn:Hc.
  intros [= <- <-]. exists game. subst v. by rewrite Hc.
Qed.

(** C1, on the code. The handler of [POST /games/:gameId/move] reads the
    game with [getGameById], which returns the grid as a matrix, and calls
    [JSON.parse] on the matrix again. On every grid of three rows of three
    cells that call throws, so the player whose turn it is, in a game in
    progress, is answered 500 whatever the cell, also when the mark would
    complete a line, and the store stays as it was: the status, the winner
    and the statistics do not change. *)
Theorem move_on_turn_is_answered_500 st gameId game playerId row col :
  playerId <> 0 ->
  is_Some (Database.getPlayerById playerId st) ->
  Database.games st !! gameId = Some game ->
  Game.status game = in_progress ->
  Game.current_turn_player_id game = Some playerId ->
  grid3x3 (Game.grid game) ->
  Api.postMove gameId playerId row col st
    = (Api.fail 500 "Internal server error", st) /\
  Database.games (Api.postMove gameId playerId row col st).2 !! gameId = Some game /\
  Database.players (Api.postMove gameId playerId row col st).2 = Database.players st.
Proof.
  intros Hpid Hp Hg Hs Ht H3.
  rewrite (postMove_on_turn st gameId playerId row col game) by done.
  done.
Qed.

(** The fifth move of scenario A, which completes the top row, and the
    whole of scenario A sent to the router. *)
Lemma move_on_turn_is_answered_500_witness :
  makeMove (Game.grid game_before_last) 0 2 1 = Ok scenario_A_grid /\
  checkWin scenario_A_grid 1 = Ok true /\
  (Api.postMove "g" 1 0 2 scenario_A_before_last
     = (Api.fail 500 "Internal server error", scenario_A_before_last) /\
   Database.games (Api.postMove "g" 1 0 2 scenario_A_before_last).2 !! "g"
     = Some game_before_last /\
   Database.players (Api.postMove "g" 1 0 2 scenario_A_before_last).2
     = Database.players scenario_A_before_last) /\
  Database.games (Api.serve scenario_A Database.empty) !! "g" = Some game_after_join /\
  Database.players (Api.serve scenario_A Database.empty)
    = [ Player.mk 1 "A" 0 0; Player.mk 2 "B" 0 0 ].
Proof.
  split; [reflexivity|]. split; [reflexivity|]. split; [|split; reflexivity].
  apply (move_on_turn_is_answered_500 scenario_A_before_last "g" game_before_last
           1 0 2);
    try reflexivity; [discriminate | by eexists | split; [reflexivity|repeat constructor]].
Defined.

(** ** What every reachable store satisfies *)

Lemma marked_cells_3x3 (a b c d e f x y z : jsval) :
  let n v := if is_mark 0 v then 0 else 1 in
  marked_cells [ [a; b; c]; [d; e; f]; [x; y; z] ] =
  n a + n b + n c + n d + n e + n f + n x + n y + n z.
Proof.
  assert (forall v l,
            Z.of_nat (length (filter (fun v => v <> JNum 0) (v :: l))) =
            (if is_mark 0 v then 0 else 1)
            + Z.of_nat (length (filter (fun v => v <> JNum 0) l))) as Hstep.
  { intros v l. rewrite filter_cons. unfold is_mark.
    destruct (decide (v <> JNum 0)) as [Hv|Hv].
    - rewrite bool_decide_eq_false_2 by done. cbn [length]. lia.
    - rewrite bool_decide_eq_true_2 by (by apply dec_stable). lia. }
  intros n. unfold marked_cells. cbn [concat app].
  rewrite !Hstep. cbn. subst n. cbn. lia.
Qed.

(** A valid move adds exactly one mark to a 3x3 grid and keeps its shape. *)
Lemma makeMove_valid (g g' : Grid) (row col p : Z) :
  grid3x3 g -> p <> 0 ->
  isMoveValid g row col = Ok true ->
  makeMove g row col p = Ok g' ->
  grid3x3 g' /\ marked_cells g' = marked_cells g + 1.
Proof.
  intros H3 Hp Hv Hm.
  destruct (isMoveValid_true_inv _ _ _ Hv) as (Hr & Hc & Hcell).
  grid_cases g H3.
  assert (is_mark 0 (JNum p) = false) as Hmark.
  { unfold is_mark. apply bool_decide_eq_false. congruence. }
  assert (is_mark 0 (JNum 0) = true) as Hzero by done.
  destruct (range3 row Hr) as [-> | [-> | ->]];
    destruct (range3 col Hc) as [-> | [-> | ->]];
    cbv in Hcell; cbv in Hm; simplify_eq;
    (split; [split; [reflexivity | repeat constructor]|]);
    rewrite !marked_cells_3x3; cbv zeta; rewrite Hmark, Hzero; lia.
Qed.

Lemma last_mover_other (gameId : string) (m : Move.t) (moves : list Move.t) :
  Move.game_id m <> gameId ->
  last_mover gameId (moves ++ [m]) = last_mover gameId moves.
Proof.
  intros Hne. unfold last_mover.
  by rewrite filter_app, filter_cons_False, filter_nil, app_nil_r.
Qed.

Lemma last_mover_same (gameId : string) (m : Move.t) (moves : list Move.t) :
  Move.game_id m = gameId ->
  last_mover gameId (moves ++ [m]) = Some (Move.player_id m).
Proof.
  intros He. unfold last_mover.
  by rewrite filter_app, filter_cons_True, filter_nil, last_snoc.
Qed.

Lemma game_ok_other_move moves m gameId g :
  Move.game_id m <> gameId -> game_ok moves gameId g -> game_ok (moves ++ [m]) gameId g.
Proof.
  intros Hne (H3 & Hcount & Hterm). repeat split; [apply H3.. | done |].
  intros Hs. destruct (Hterm Hs) as (p & ? & ? & ?).
  exists p. by rewrite last_mover_other.
Qed.

Lemma evaluate_cases (g : Grid) (mark playerId : Z) s w :
  Api.evaluate g mark playerId = Ok (s, w) ->
  (s = win /\ w = Some playerId) \/ (s = draw /\ w = None)
  \/ (s = in_progress /\ w = None).
Proof.
  unfold Api.evaluate.
  generalize (checkWin g mark) (checkDraw g).
  intros [[]|] [[]|]; cbn; intros ?; simplify_eq; auto.
Qed.

Lemma playerNumber_nonzero (game : Game.t) (playerId : Z) :
  Api.playerNumber game playerId <> 0.
Proof. unfold Api.playerNumber. by case_bool_decide. Qed.

Lemma postPlayers_store name st :
  Database.games (Api.postPlayers name st).2 = Database.games st /\
  Database.moves (Api.postPlayers name st).2 = Database.moves st.
Proof.
  unfold Api.postPlayers, Database.createPlayer.
  case_bool_decide as Hname; [done|].
  by destruct (existsb _ _).
Qed.

Lemma postGames_store playerId gameId st :
  (Api.postGames playerId gameId st).2 = st \/
  Database.games st !! gameId = None /\
  Database.games (Api.postGames playerId gameId st).2 =
    <[gameId := Game.mk gameId (Some playerId) None (Some playerId) waiting None
                  createEmptyGrid 0]> (Database.games st) /\
  Database.moves (Api.postGames playerId gameId st).2 = Database.moves st.
Proof.
  unfold Api.postGames, Database.createGame.
  case_bool_decide as Hpid; [by left|].
  destruct (Database.getPlayerById playerId st); [|by left].
  destruct (Database.games st !! gameId) eqn:Hg; [by left|].
  right. done.
Qed.

Lemma postJoin_store gameId playerId st :
  (Api.postJoin gameId playerId st).2 = st \/
  exists g g',
    Database.games st !! gameId = Some g /\
    Database.games (Api.postJoin gameId playerId st).2 =
      <[gameId := g']> (Database.games st) /\
    Database.moves (Api.postJoin gameId playerId st).2 = Database.moves st /\
    Game.status g' = in_progress /\
    Game.grid g' = Game.grid g /\
    Game.move_count g' = Game.move_count g.
Proof.
  unfold Api.postJoin, Database.getGameById.
  case_bool_decide as Hpid; [by left|].
  destruct (Database.getPlayerById playerId st); [|by left].
  destruct (Database.games st !! gameId) as [g|] eqn:Hg; [|by left]. cbn.
  destruct (decide (Game.status g = waiting)) as [Hs|Hs].
  - destruct (decide (Game.player1_id g = Some playerId)) as [Hp|Hp].
    + rewrite (joinGame_own_game st gameId playerId g Hg Hs Hp). by left.
    + rewrite (joinGame_joined st gameId playerId g Hg Hs Hp).
      right. eexists g, _. cbn. done.
  - rewrite (joinGame_not_waiting st gameId playerId g Hg Hs). by left.
Qed.

Lemma store_ok_empty : store_ok Database.empty.
Proof. intros gameId g Hg. cbn in Hg. by rewrite lookup_empty in Hg. Qed.

Lemma game_ok_created moves gameId playerId :
  game_ok moves gameId
    (Game.mk gameId (Some playerId) None (Some playerId) waiting None
       createEmptyGrid 0).
Proof.
  split; [split; [reflexivity | repeat constructor]|].
  split; [reflexivity|]. cbn. intros [?|?]; discriminate.
Qed.

(** On a grid of three rows of three cells, a cell that reads 0 is a cell
    of the grid. *)
Lemma cell_free_in_range (g : Grid) (row col : Z) :
  grid3x3 g -> cell g row col = Ok (JNum 0) -> isMoveValid g row col = Ok true.
Proof.
  intros H3 Hcell. grid_cases g H3.
  assert (0 <= row <= 2 /\ 0 <= col <= 2) as [Hr Hc].
  { unfold cell, row_get, array_get in Hcell.
    destruct (decide (0 <= row)) as [Hr|]; [|done].
    destruct (Z.to_nat row) as [|[|[|n]]] eqn:Hn; cbn in Hcell; [| | |done];
      (destruct (decide (0 <= col)) as [Hc|]; [|done]);
      (destruct (Z.to_nat col) as [|[|[|k]]] eqn:Hk; cbn in Hcell; [| | |done]);
      lia. }
  unfold isMoveValid. rewrite !bool_decide_eq_false_2 by lia. cbn.
  unfold cell_is. by rewrite Hcell.
Qed.

Lemma commit_move_store_ok st gameId playerId row col game newGrid newStatus winnerId :
  store_ok st ->
  Database.games st !! gameId = Some game ->
  Game.current_turn_player_id game = Some playerId ->
  isMoveValid (Game.grid game) row col = Ok true ->
  makeMove (Game.grid game) row col (Api.playerNumber game playerId) = Ok newGrid ->
  Api.evaluate newGrid (Api.playerNumber game playerId) playerId
    = Ok (newStatus, winnerId) ->
  store_ok (Database.commit_move game gameId playerId row col newGrid newStatus
              winnerId st).2.
Proof.
  intros Hok Hg Ht Hv Hm He.
  destruct (Hok _ _ Hg) as (H3 & Hcount & _).
  destruct (makeMove_valid _ _ _ _ _ H3 (playerNumber_nonzero game playerId) Hv Hm)
    as [H3' Hcount'].
  intros other g. unfold Database.commit_move. cbn.
  destruct (decide (other = gameId)) as [->|Hne].
  - rewrite lookup_insert_eq. intros [= <-]. unfold game_ok. cbn.
    split; [done|]. split; [lia|].
    intros Hterm. exists playerId.
    split; [|split].
    + rewrite bool_decide_eq_false_2; [done|]. by destruct Hterm as [-> | ->].
    + by apply last_mover_same.
    + intros Hwon.
      destruct (evaluate_cases _ _ _ _ _ He) as [[_ ?]|[[? _]|[? _]]];
        [done | congruence | congruence].
  - rewrite lookup_insert_ne by done. intros Hother.
    apply game_ok_other_move; [cbn; congruence | by apply Hok].
Qed.

Lemma handle_store_ok (r : Api.Request) (st : Database.Store) :
  store_ok st -> store_ok (Api.handle r st).2.
Proof.
  intros Hok. destruct r as [name|playerId gameId|gameId playerId|gameId playerId row col];
    cbn [Api.handle].
  - destruct (postPlayers_store name st) as [Hg Hm].
    intros gameId g. rewrite Hg, Hm. apply Hok.
  - destruct (postGames_store playerId gameId st) as [-> | (Hnew & Hg & Hm)]; [done|].
    intros other g. rewrite Hg, Hm.
    destruct (decide (other = gameId)) as [->|Hne].
    + rewrite lookup_insert_eq. intros [= <-]. apply game_ok_created.
    + rewrite lookup_insert_ne by done. apply Hok.
  - destruct (postJoin_store gameId playerId st)
      as [-> | (g0 & g' & Hg0 & Hg & Hm & Hs & Hgrid & Hcount)]; [done|].
    intros other g. rewrite Hg, Hm.
    destruct (decide (other = gameId)) as [->|Hne].
    + rewrite lookup_insert_eq. intros [= <-].
      destruct (Hok _ _ Hg0) as (H3 & Hc & _).
      split; [by rewrite Hgrid|]. split; [by rewrite Hgrid, Hcount|].
      rewrite Hs. intros [?|?]; discriminate.
    + rewrite lookup_insert_ne by done. apply Hok.
  - by rewrite postMove_store.
Qed.

Lemma serve_store_ok (requests : list Api.Request) (st : Database.Store) :
  store_ok st -> store_ok (Api.serve requests st).
Proof.
  revert st. induction requests as [|r requests IH]; intros st Hok; [done|].
  cbn. apply IH. by apply handle_store_ok.
Qed.

Lemma serve_reachable (requests : list Api.Request) (st : Database.Store) :
  reachable st -> reachable (Api.serve requests st).
Proof.
  revert st. induction requests as [|r requests IH]; intros st Hst; [done|].
  cbn. apply IH. by constructor.
Qed.

(** A committed move, by the store it gives. *)
Lemma reachable_commit st gameId playerId row col game newGrid newStatus winnerId :
  reachable st ->
  Database.games st !! gameId = Some game ->
  makeMove (Game.grid game) row col (Api.playerNumber game playerId) = Ok newGrid ->
  Api.evaluate newGrid (Api.playerNumber game playerId) playerId
    = Ok (newStatus, winnerId) ->
  (exists updated,
     (Database.makeMove gameId playerId row col newGrid newStatus winnerId st).1
       = Ok updated) ->
  reachable (commit gameId playerId row col newGrid newStatus winnerId st).
Proof.
  intros Hst Hg Hm He [updated Hok]. unfold commit.
  destruct (Database.makeMove gameId playerId row col newGrid newStatus winnerId st)
    as [r st'] eqn:Hmove.
  cbn in Hok. subst r. by eapply reachable_move.
Qed.

Lemma reachable_store_ok (st : Database.Store) : reachable st -> store_ok st.
Proof.
  induction 1 as [|r st _ IH
                  |st st' gameId playerId row col game newGrid newStatus winnerId
                     updated _ IH Hg Hm He Hmove].
  - apply store_ok_empty.
  - by apply handle_store_ok.
  - apply makeMove_Ok_inv in Hmove as (game' & Hg' & Hs & Ht & Hcell & ->).
    assert (game' = game) as -> by congruence.
    destruct (IH _ _ Hg) as (H3 & _).
    apply commit_move_store_ok; try done.
    by apply cell_free_in_range.
Qed.

Lemma scenario_A_joined_reachable : reachable scenario_A_joined.
Proof. apply serve_reachable. constructor. Qed.

Lemma scenario_A_before_last_reachable : reachable scenario_A_before_last.
Proof.
  unfold scenario_A_before_last.
  repeat (eapply reachable_commit;
          [ | vm_compute; reflexivity | reflexivity | reflexivity
            | eexists; vm_compute; reflexivity ]).
  apply scenario_A_joined_reachable.
Qed.

Lemma scenario_A_store_reachable : reachable scenario_A_store.
Proof.
  unfold scenario_A_store.
  eapply reachable_commit;
    [ apply scenario_A_before_last_reachable | vm_compute; reflexivity
    | reflexivity | reflexivity | eexists; vm_compute; reflexivity ].
Qed.

(** C3. In every store the engine reaches (registrations, new games and
    joins through the router, moves committed by [Database.makeMove] with
    the grid that [makeMove] gives for the stored one), every game has a
    move counter equal to the number of cells of its grid that are not 0. *)
Theorem move_count_is_marked_cells (st : Database.Store) gameId g :
  reachable st ->
  Database.games st !! gameId = Some g ->
  Game.move_count g = marked_cells (Game.grid g).
Proof.
  intros Hst Hg.
  by destruct (reachable_store_ok st Hst _ _ Hg) as (_ & ? & _).
Qed.

Lemma move_count_is_marked_cells_witness :
  Game.move_count scenario_A_game = marked_cells (Game.grid scenario_A_game).
Proof.
  apply (move_count_is_marked_cells scenario_A_store "g");
    [apply scenario_A_store_reachable | reflexivity].
Defined.

Lemma getGameById_Some gameId st gp :
  Database.getGameById gameId st = Some gp ->
  Database.games st !! gameId = Some (Database.game gp).
Proof.
  unfold Database.getGameById.
  destruct (Database.games st !! gameId) as [g|]; cbn; [|discriminate].
  by intros [= <-].
Qed.

(** C2, as the specification states it, fails: at the end of scenario A
    the game is won and the game that [getGameById] returns still carries a
    turn. *)
Lemma won_game_exposes_turn :
  ~ (forall st gameId gp,
       reachable st ->
       Database.getGameById gameId st = Some gp ->
       Game.status (Database.game gp) = win \/ Game.status (Database.game gp) = draw ->
       Game.current_turn_player_id (Database.game gp) = None).
Proof.
  intros Hclaim.
  specialize (Hclaim scenario_A_store "g"
                (Database.mkGameWithPlayers scenario_A_game (Some (1, "A"))
                   (Some (2, "B")))
                scenario_A_store_reachable eq_refl (or_introl eq_refl)).
  discriminate Hclaim.
Qed.

(** C2, amended. In every store the engine reaches, the game that
    [getGameById] returns for a game whose status is [win] or [draw]
    carries a turn: the id of the player who made the last move of the
    game, which is the winner when the status is [win]. *)
Theorem terminal_game_turn_is_last_mover (st : Database.Store) gameId gp :
  reachable st ->
  Database.getGameById gameId st = Some gp ->
  Game.status (Database.game gp) = win \/ Game.status (Database.game gp) = draw ->
  exists p,
    Game.current_turn_player_id (Database.game gp) = Some p /\
    last_mover gameId (Database.moves st) = Some p /\
    (Game.status (Database.game gp) = win -> Game.winner_id (Database.game gp) = Some p).
Proof.
  intros Hst Hget Hs. apply getGameById_Some in Hget.
  destruct (reachable_store_ok st Hst _ _ Hget) as (_ & _ & Hterm).
  exact (Hterm Hs).
Qed.

Lemma terminal_game_turn_is_last_mover_witness :
  exists p,
    Game.current_turn_player_id scenario_A_game = Some p /\
    last_mover "g" (Database.moves scenario_A_store) = Some p /\
    (Game.status scenario_A_game = win -> Game.winner_id scenario_A_game = Some p).
Proof.
  apply (terminal_game_turn_is_last_mover scenario_A_store "g"
           (Database.mkGameWithPlayers scenario_A_game (Some (1, "A"))
              (Some (2, "B"))));
    [apply scenario_A_store_reachable | reflexivity | left; reflexivity].
Defined.

(** ** [makeMove] over the heap *)

Lemma read_row_Some (h : JsHeap.heap) (l : JsHeap.loc) cells :
  JsHeap.read_row h l = Some cells <-> h !! l = Some (JsHeap.Row cells).
Proof.
  unfold JsHeap.read_row. destruct (h !! l) as [[?|?]|]; split; congruence.
Qed.

(** The copies are new arrays, one per row, holding what the rows hold; the
    objects that were on the heap stay as they were. *)
Lemma copy_rows_spec (refs : list JsHeap.loc) :
  forall (h : JsHeap.heap) (m : Grid),
    Forall2 (fun l cells => JsHeap.read_row h l = Some cells) refs m ->
    exists refs' h',
      JsHeap.copy_rows h refs = Ok (refs', h') /\
      (forall l, l ∈ dom h -> h' !! l = h !! l) /\
      Forall (fun l => l ∉ dom h) refs' /\
      NoDup refs' /\
      Forall2 (fun l cells => h' !! l = Some (JsHeap.Row cells)) refs' m.
Proof.
  induction refs as [|r rest IH]; intros h m Hrows.
  - apply Forall2_nil_inv_l in Hrows as ->.
    exists [], h. repeat split; constructor.
  - apply Forall2_cons_inv_l in Hrows as (cells & m0 & Hr & Hrest & ->).
    apply read_row_Some in Hr.
    pose proof (is_fresh (dom h)) as Hfresh.
    set (l := fresh (dom h)) in *.
    set (h1 := <[l := JsHeap.Row cells]> h).
    assert (forall x, x ∈ dom h -> h1 !! x = h !! x) as Hh1.
    { intros x Hx. unfold h1. rewrite lookup_insert_ne; [done|]. congruence. }
    destruct (IH h1 m0) as (refs' & h2 & Hcopy & Hold & Hnew & Hnd & Hread).
    { eapply Forall2_impl; [exact Hrest|]. intros x c Hx. cbn in Hx.
      apply read_row_Some in Hx. apply read_row_Some.
      rewrite Hh1; [done|]. apply elem_of_dom. eauto. }
    assert (l ∈ dom h1) as Hl1.
    { unfold h1. rewrite dom_insert_L. apply elem_of_union_l, elem_of_singleton_2.
      reflexivity. }
    assert (forall x, x ∈ dom h -> x ∈ dom h1) as Hsub.
    { intros x Hx. unfold h1. rewrite dom_insert_L. by apply elem_of_union_r. }
    exists (l :: refs'), h2. split.
    { cbn. rewrite Hr. cbn. fold l. fold h1. by rewrite Hcopy. }
    split; [|split; [|split]].
    + intros x Hx. rewrite Hold by auto. by apply Hh1.
    + constructor; [done|].
      eapply Forall_impl; [exact Hnew|]. cbn. intros x Hx1 Hx. auto.
    + constructor; [|done].
      intros Hin. rewrite Forall_forall in Hnew. by apply (Hnew l Hin).
    + constructor; [|done].
      rewrite Hold by done. unfold h1. apply lookup_insert_eq.
Qed.

Lemma read_grid_Some (h : JsHeap.heap) (grid : JsHeap.loc) (m : Grid) :
  JsHeap.read_grid h grid = Some m <->
  exists refs,
    (h !! grid = Some (JsHeap.Rows refs)) /\
    Forall2 (fun l cells => JsHeap.read_row h l = Some cells) refs m.
Proof.
  unfold JsHeap.read_grid. destruct (h !! grid) as [[cells|refs]|]; split.
  - discriminate.
  - intros (? & ? & _); discriminate.
  - intros Hm%mapM_Some. eauto.
  - intros (? & [= <-] & ?). by apply mapM_Some.
  - discriminate.
  - intros (? & ? & _); discriminate.
Qed.

(** [JsHeap.makeMove] refines [GameLogic.makeMove]: the grid it returns
    holds the matrix the latter computes, and it is made of new objects. *)
Lemma makeMove_heap_refines (h : JsHeap.heap) (grid : JsHeap.loc) (m m' : Grid)
    (row col p : Z) :
  JsHeap.read_grid h grid = Some m ->
  GameLogic.makeMove m row col p = Ok m' ->
  exists newGrid h',
    JsHeap.makeMove h grid row col p = Ok (newGrid, h') /\
    JsHeap.read_grid h' newGrid = Some m' /\
    (forall l, l ∈ dom h -> h' !! l = h !! l) /\
    (newGrid ∉ dom h) /\
    Forall (fun l => l ∉ dom h) (JsHeap.rows_of h' newGrid).
Proof.
  intros (refs & Hg & Hrows)%read_grid_Some Hm.
  destruct (copy_rows_spec refs h m Hrows)
    as (refs' & h1 & Hcopy & Hold & Hnew & Hnd & Hread).
  unfold GameLogic.makeMove in Hm.
  destruct (array_get m row) as [r0|] eqn:Hrow; [|discriminate].
  injection Hm as <-.
  unfold array_get in Hrow. case_decide as Hrow0; [|discriminate].
  destruct (Forall2_lookup_r _ _ _ _ _ Hread Hrow) as (r & Hr & Hr1).
  pose proof (is_fresh (dom h1)) as Hfresh.
  set (newGrid := fresh (dom h1)) in *.
  assert (forall l, l ∈ dom h -> l ∈ dom h1) as Hsub.
  { intros l Hl. apply elem_of_dom. rewrite Hold by done. by apply elem_of_dom. }
  assert (forall i x, refs' !! i = Some x -> x ∈ dom h1 /\ x ∉ dom h) as Hrefs.
  { intros i x Hx. split.
    - destruct (Forall2_lookup_l _ _ _ _ _ Hread Hx) as (? & _ & ?).
      apply elem_of_dom. eauto.
    - by apply (Forall_lookup_1 _ _ _ _ Hnew Hx). }
  assert (r <> newGrid) as Hrn.
  { intros ->. by destruct (Hrefs _ _ Hr). }
  set (cells' := array_set r0 col (JNum p)).
  exists newGrid, (<[r := JsHeap.Row cells']> (<[newGrid := JsHeap.Rows refs']> h1)).
  split; [|split; [|split; [|split]]].
  - unfold JsHeap.makeMove. rewrite Hg. cbn. rewrite Hcopy. cbn.
    fold newGrid. unfold array_get. rewrite decide_True, Hr by done.
    rewrite lookup_insert_ne, Hr1 by done. reflexivity.
  - apply read_grid_Some. exists refs'. split.
    { rewrite lookup_insert_ne by done. apply lookup_insert_eq. }
    apply Forall2_same_length_lookup_2.
    { rewrite length_insert. by eapply Forall2_length. }
    intros i x y Hx Hy. apply read_row_Some.
    destruct (decide (i = Z.to_nat row)) as [->|Hi].
    + rewrite list_lookup_insert_eq in Hy by (by eapply lookup_lt_Some).
      injection Hy as <-. rewrite Hr in Hx. injection Hx as <-.
      apply lookup_insert_eq.
    + rewrite list_lookup_insert_ne in Hy by done.
      assert (x <> r) as Hxr.
      { intros ->. apply Hi. by eapply NoDup_lookup. }
      assert (x <> newGrid) as Hxn.
      { intros ->. by destruct (Hrefs _ _ Hx). }
      rewrite !lookup_insert_ne by done.
      exact (Forall2_lookup_lr _ _ _ _ _ _ Hread Hx Hy).
  - intros l Hl.
    assert (l <> r) by (intros ->; by destruct (Hrefs _ _ Hr)).
    assert (l <> newGrid) by (intros ->; auto).
    rewrite !lookup_insert_ne by done. by apply Hold.
  - auto.
  - unfold JsHeap.rows_of. rewrite lookup_insert_ne by done.
    by rewrite lookup_insert_eq.
Qed.

(** C8. For a grid on the heap and coordinates inside it, [makeMove]
    returns a new grid that holds the matrix of the input with the cell at
    (row, col) replaced by the mark; the input grid still holds its matrix,
    every object that was on the heap is as it was, and the new grid and
    its rows are objects that were not on the heap: the two grids share no
    array. *)
Theorem makeMove_copies_the_grid (h : JsHeap.heap) (grid : JsHeap.loc) (m : Grid)
    (r : list jsval) (row col mark : Z) :
  JsHeap.read_grid h grid = Some m ->
  0 <= row -> m !! Z.to_nat row = Some r ->
  0 <= col < Z.of_nat (length r) ->
  exists newGrid h',
    JsHeap.makeMove h grid row col mark = Ok (newGrid, h') /\
    JsHeap.read_grid h' newGrid
      = Some (<[Z.to_nat row := <[Z.to_nat col := JNum mark]> r]> m) /\
    JsHeap.read_grid h' grid = Some m /\
    (forall l, l ∈ dom h -> h' !! l = h !! l) /\
    (newGrid ∉ dom h) /\
    Forall (fun l => l ∉ dom h) (JsHeap.rows_of h' newGrid).
Proof.
  intros Hread Hrow Hr Hcol.
  destruct (makeMove_heap_refines h grid m
              (<[Z.to_nat row := <[Z.to_nat col := JNum mark]> r]> m) row col mark Hread)
    as (newGrid & h' & Hmove & Hnew & Hold & Hfresh & Hrows).
  { unfold GameLogic.makeMove. rewrite array_get_nonneg, Hr by done.
    unfold array_set. rewrite decide_False, decide_True by lia. reflexivity. }
  exists newGrid, h'. repeat split; try done.
  apply read_grid_Some in Hread as (refs & Hg & Hcells).
  apply read_grid_Some. exists refs. split.
  - rewrite Hold; [done|]. apply elem_of_dom. eauto.
  - eapply Forall2_impl; [exact Hcells|]. cbn. intros l cells Hl.
    apply read_row_Some in Hl. apply read_row_Some.
    rewrite Hold; [done|]. apply elem_of_dom. eauto.
Qed.

Lemma makeMove_copies_the_grid_witness :
  exists newGrid h',
    JsHeap.makeMove empty_grid_heap 4%positive 1 1 1 = Ok (newGrid, h') /\
    JsHeap.read_grid h' newGrid
      = Some (<[Z.to_nat 1 := <[Z.to_nat 1 := JNum 1]> [JNum 0; JNum 0; JNum 0]]>
                createEmptyGrid) /\
    JsHeap.read_grid h' 4%positive = Some createEmptyGrid /\
    (forall l, l ∈ dom empty_grid_heap -> h' !! l = empty_grid_heap !! l) /\
    (newGrid ∉ dom empty_grid_heap) /\
    Forall (fun l => l ∉ dom empty_grid_heap) (JsHeap.rows_of h' newGrid).
Proof.
  apply (makeMove_copies_the_grid empty_grid_heap 4%positive createEmptyGrid
           [JNum 0; JNum 0; JNum 0] 1 1 1).
  - reflexivity.
  - lia.
  - reflexivity.
  - cbn. lia.
Defined.

(** ** The leaderboard *)

Lemma key_leb_le (d : Direction) (x y : Q) : key_leb d x y = true <-> key_le d x y.
Proof. destruct d; apply Qle_bool_iff. Qed.

Lemma key_le_total (d : Direction) (x y : Q) : key_le d x y \/ key_le d y x.
Proof.
  destruct d; cbn; destruct (Qlt_le_dec x y) as [H|H];
    auto using Qlt_le_weak.
Qed.

Lemma key_le_trans (d : Direction) (x y z : Q) :
  key_le d x y -> key_le d y z -> key_le d x z.
Proof. destruct d; cbn; eauto using Qle_trans. Qed.


Section insertion_sort.
Context {A : Type} (key : A -> Q) (d : Direction).

Let leb (a b : A) : bool := key_leb d (key a) (key b).
Let le (a b : A) : Prop := key_le d (key a) (key b).

Lemma insert_row_perm (x : A) (l : list A) : insert_row leb x l ≡ₚ x :: l.
Proof.
  induction l as [|y l IH]; [done|]. cbn.
  destruct (leb x y); [done|]. rewrite IH. apply Permutation_swap.
Qed.

Lemma insertion_sort_perm (l : list A) : insertion_sort leb l ≡ₚ l.
Proof.
  induction l as [|x l IH]; [done|].
  cbn. rewrite insert_row_perm. by f_equiv.
Qed.

Lemma insert_row_sorted (x : A) (l : list A) :
  Sorted le l -> Sorted le (insert_row leb x l).
Proof.
  induction 1 as [|y l Hl IH Hhd]; cbn; [by repeat constructor|].
  destruct (leb x y) eqn:Hxy.
  - apply key_leb_le in Hxy. by repeat constructor.
  - assert (le y x) as Hyx.
    { destruct (key_le_total d (key x) (key y)) as [H|H]; [|done].
      apply key_leb_le in H. unfold leb in Hxy. congruence. }
    constructor; [done|].
    destruct Hhd as [|z l' Hyz]; cbn; [by constructor|].
    destruct (leb x z); by constructor.
Qed.

Lemma insertion_sort_sorted (l : list A) : Sorted le (insertion_sort leb l).
Proof.
  induction l as [|x l IH]; [constructor|]. by apply insert_row_sorted.
Qed.
End insertion_sort.

Lemma scan_order_engine_lawful : lawful scan_order_engine.
Proof.
  intros A key d rows. split.
  - apply insertion_sort_perm.
  - apply insertion_sort_sorted.
Qed.

Lemma order_by_elem_of `{E : SqlEngine} {A} (key : A -> Q) d (rows : list A) x :
  lawful E -> x ∈ order_by key d rows <-> x ∈ rows.
Proof. intros HE. destruct (HE A key d rows) as [Hperm _]. by rewrite Hperm. Qed.

Lemma order_by_nil `{E : SqlEngine} {A} (key : A -> Q) d :
  lawful E -> order_by key d (@nil A) = [].
Proof.
  intros HE. destruct (HE A key d []) as [Hperm _].
  by apply Permutation_nil_r.
Qed.

(** C7. With either ordering and any lawful engine, the leaderboard has at
    most 3 entries, every entry carries the id and the name of a player of
    the table whose wins are positive, and when no player has a positive
    number of wins the query returns the empty list, which the handler
    answers with status 200. *)
Theorem leaderboard_top3_of_winners `{E : SqlEngine} (by_ : Database.By)
    (st : Database.Store) :
  lawful E ->
  (length (Database.getLeaderboard by_ st) <= 3)%nat /\
  (forall e, e ∈ Database.getLeaderboard by_ st ->
     exists p, p ∈ Database.players st /\
               Player.id p = LeaderboardEntry.playerId e /\
               Player.name p = LeaderboardEntry.name e /\
               0 < Player.total_wins p) /\
  ((forall p, p ∈ Database.players st -> Player.total_wins p <= 0) ->
   Database.getLeaderboard by_ st = [] /\
   Api.getLeaderboard (Some "wins") st = Api.respond 200 (Api.LeaderboardBody []) /\
   Api.getLeaderboard (Some "efficiency") st
     = Api.respond 200 (Api.LeaderboardBody [])).
Proof.
  intros HE. split; [|split].
  - unfold Database.getLeaderboard. rewrite length_fmap, length_take. lia.
  - intros e He. unfold Database.getLeaderboard in He.
    apply list_elem_of_fmap in He as (r & -> & Hr).
    apply subseteq_take in Hr.
    apply order_by_elem_of in Hr; [|done].
    apply elem_of_lookup_imap in Hr as (i & p & -> & Hp).
    apply list_elem_of_lookup_2 in Hp.
    apply order_by_elem_of in Hp; [|done].
    apply list_elem_of_filter in Hp as [Hwins Hp].
    exists p. cbn. done.
  - intros Hnone.
    assert (forall b, Database.getLeaderboard b st = []) as Hempty.
    { intros b. unfold Database.getLeaderboard.
      assert (filter (fun p => 0 < Player.total_wins p) (Database.players st) = [])
        as ->.
      { apply elem_of_nil_inv. intros p [Hwins Hp]%list_elem_of_filter.
        specialize (Hnone p Hp). lia. }
      rewrite order_by_nil by done. cbn. by rewrite order_by_nil. }
    split; [apply Hempty|]. cbn. by rewrite !Hempty.
Qed.

Lemma leaderboard_top3_of_winners_witness :
  let st := scenario_A_store in
  (length (Database.getLeaderboard (H := scan_order_engine) Database.wins st) <= 3)%nat /\
  (forall e, e ∈ Database.getLeaderboard (H := scan_order_engine) Database.wins st ->
     exists p, p ∈ Database.players st /\
               Player.id p = LeaderboardEntry.playerId e /\
               Player.name p = LeaderboardEntry.name e /\
               0 < Player.total_wins p) /\
  ((forall p, p ∈ Database.players st -> Player.total_wins p <= 0) ->
   Database.getLeaderboard (H := scan_order_engine) Database.wins st = [] /\
   Api.getLeaderboard (H := scan_order_engine) (Some "wins") st
     = Api.respond 200 (Api.LeaderboardBody []) /\
   Api.getLeaderboard (H := scan_order_engine) (Some "efficiency") st
     = Api.respond 200 (Api.LeaderboardBody [])).
Proof.
  intros st.
  apply (leaderboard_top3_of_winners (E := scan_order_engine) Database.wins st).
  apply scan_order_engine_lawful.
Defined.




Lemma row_number_lookup {A} (l : list A) (k : nat) (r : Z * A) :
  Database.row_number l !! k = Some r <->
  r.1 = Z.of_nat k + 1 /\ l !! k = Some r.2.
Proof.
  unfold Database.row_number. rewrite list_lookup_imap.
  destruct (l !! k) as [x|]; cbn; destruct r as [i y]; cbn.
  - split; [intros [= <- <-]; done | intros [-> [= ->]]; done].
  - split; [discriminate | intros [_ ?]; discriminate].
Qed.

(** *** Stable engines *)

Section stable_sort.
Context {A : Type} (key : A -> Q) (d : Direction).

Let leb (a b : A) : bool := key_leb d (key a) (key b).
Let le (a b : A) : Prop := key_le d (key a) (key b).




End stable_sort.






(** ** More of the grid logic *)

Lemma Ok_inj {A} (a b : A) : Ok a = Ok b <-> a = b.
Proof. split; [by intros [= ->] | by intros ->]. Qed.

Lemma is_mark_true (p : Z) (v : jsval) : is_mark p v = true <-> v = JNum p.
Proof. apply bool_decide_eq_true. Qed.

(** The nine cells of a grid written out. *)
Lemma cells_3x3 (a b c d e f x y z : jsval) :
  let g := [ [a; b; c]; [d; e; f]; [x; y; z] ] in
  cell g 0 0 = Ok a /\ cell g 0 1 = Ok b /\ cell g 0 2 = Ok c /\
  cell g 1 0 = Ok d /\ cell g 1 1 = Ok e /\ cell g 1 2 = Ok f /\
  cell g 2 0 = Ok x /\ cell g 2 1 = Ok y /\ cell g 2 2 = Ok z.
Proof. repeat split; reflexivity. Qed.

Ltac rewrite_cells :=
  match goal with
  | |- context [cell [ [?a; ?b; ?c]; [?d; ?e; ?f]; [?x; ?y; ?z] ] _ _] =>
      destruct (cells_3x3 a b c d e f x y z)
        as (Hc00 & Hc01 & Hc02 & Hc10 & Hc11 & Hc12 & Hc20 & Hc21 & Hc22);
      cbv zeta in Hc00, Hc01, Hc02, Hc10, Hc11, Hc12, Hc20, Hc21, Hc22;
      rewrite ?Hc00, ?Hc01, ?Hc02, ?Hc10, ?Hc11, ?Hc12, ?Hc20, ?Hc21, ?Hc22
  end.

(** X1. On a 3x3 grid [checkWin] returns a boolean without throwing, and
    the boolean is true exactly when one of the eight lines of
    [WINNING_LINES], the table of the web client, holds the mark of the
    player in its three cells: the loops of the server and the table of the
    client describe the same lines. *)
Theorem checkWin_iff_winning_line (grid : Grid) (playerId : Z) :
  grid3x3 grid ->
  exists b : bool,
    checkWin grid playerId = Ok b /\
    (b = true <->
     Exists (fun line =>
               Forall (fun rc : Z * Z => cell grid rc.1 rc.2 = Ok (JNum playerId)) line)
       GameUtils.WINNING_LINES).
Proof.
  intros H3. grid_cases grid H3. rewrite checkWin_3x3.
  eexists; split; [reflexivity|].
  unfold GameUtils.WINNING_LINES.
  rewrite !Exists_cons, Exists_nil, !Forall_cons, !Forall_nil. cbn [fst snd].
  rewrite_cells. rewrite !Ok_inj, <- !is_mark_true.
  rewrite !orb_true_iff, !andb_true_iff. tauto.
Qed.

Lemma checkWin_iff_winning_line_witness :
  exists b : bool,
    checkWin scenario_A_grid 1 = Ok b /\
    (b = true <->
     Exists (fun line =>
               Forall (fun rc : Z * Z => cell scenario_A_grid rc.1 rc.2 = Ok (JNum 1))
                 line)
       GameUtils.WINNING_LINES).
Proof.
  apply (checkWin_iff_winning_line scenario_A_grid 1).
  split; [reflexivity | repeat constructor].
Defined.

Lemma same_mark_true (a b c : jsval) :
  same_mark a b c = true <-> a <> JNum 0 /\ a = b /\ b = c.
Proof.
  unfold same_mark.
  rewrite !andb_true_iff, negb_true_iff, bool_decide_eq_false, !bool_decide_eq_true.
  tauto.
Qed.

Lemma same_mark_is_mark (p : Z) (a b c : jsval) :
  p <> 0 -> is_mark p a && is_mark p b && is_mark p c = true -> same_mark a b c = true.
Proof.
  intros Hp. rewrite !andb_true_iff, !is_mark_true, same_mark_true.
  intros [[-> ->] ->]. split; [congruence | done].
Qed.

Lemma is_mark_same_mark (p : Z) (a b c : jsval) :
  same_mark a b c = true -> a = JNum p ->
  is_mark p a && is_mark p b && is_mark p c = true.
Proof.
  rewrite same_mark_true, !andb_true_iff, !is_mark_true.
  intros (_ & <- & <-) ->. done.
Qed.

Lemma findWinningLine_3x3 (a b c d e f x y z : jsval) :
  GameUtils.findWinningLine [ [a; b; c]; [d; e; f]; [x; y; z] ] =
  Ok (if same_mark a b c then [ (0, 0); (0, 1); (0, 2) ]
      else if same_mark d e f then [ (1, 0); (1, 1); (1, 2) ]
      else if same_mark x y z then [ (2, 0); (2, 1); (2, 2) ]
      else if same_mark a d x then [ (0, 0); (1, 0); (2, 0) ]
      else if same_mark b e y then [ (0, 1); (1, 1); (2, 1) ]
      else if same_mark c f z then [ (0, 2); (1, 2); (2, 2) ]
      else if same_mark a e z then [ (0, 0); (1, 1); (2, 2) ]
      else if same_mark c e x then [ (0, 2); (1, 1); (2, 0) ]
      else []).
Proof.
  unfold GameUtils.findWinningLine, GameUtils.WINNING_LINES.
  cbn [GameUtils.first_won_line GameUtils.line_is_won fst snd].
  rewrite_cells. cbn [mbind result_bind].
  fold (same_mark a b c) (same_mark d e f) (same_mark x y z) (same_mark a d x)
    (same_mark b e y) (same_mark c f z) (same_mark a e z) (same_mark c e x).
  repeat (match goal with |- context [same_mark ?u ?v ?w] =>
                            destruct (same_mark u v w); try reflexivity end).
Qed.

(** X2. On a 3x3 grid [findWinningLine] returns without throwing. When
    it returns the empty list, [checkWin] is false for every mark other than
    0. Otherwise the line is one of [WINNING_LINES], its three cells hold
    one value, which is not 0, and [checkWin] is true for the player whose
    mark that value is. *)
Theorem findWinningLine_agrees_with_checkWin (grid : Grid) :
  grid3x3 grid ->
  exists line,
    GameUtils.findWinningLine grid = Ok line /\
    (line = [] -> forall p, p <> 0 -> checkWin grid p = Ok false) /\
    (line <> [] ->
     line ∈ GameUtils.WINNING_LINES /\
     exists v, v <> JNum 0 /\
       Forall (fun rc : Z * Z => cell grid rc.1 rc.2 = Ok v) line /\
       forall p, v = JNum p -> checkWin grid p = Ok true).
Proof.
  intros Hg. grid_cases grid Hg. rewrite findWinningLine_3x3.
  eexists; split; [reflexivity|].
  destruct (same_mark c00 c01 c02) eqn:H1;
    [|destruct (same_mark c10 c11 c12) eqn:H2;
      [|destruct (same_mark c20 c21 c22) eqn:H3;
        [|destruct (same_mark c00 c10 c20) eqn:H4;
          [|destruct (same_mark c01 c11 c21) eqn:H5;
            [|destruct (same_mark c02 c12 c22) eqn:H6;
              [|destruct (same_mark c00 c11 c22) eqn:H7;
                [|destruct (same_mark c02 c11 c20) eqn:H8]]]]]]].
  9: { split; [|done]. intros _ p Hp. rewrite checkWin_3x3. f_equal.
       apply not_true_is_false. rewrite !orb_true_iff.
       intros [[[[[[[H|H]|H]|H]|H]|H]|H]|H];
         apply (same_mark_is_mark p) in H; congruence. }
  all: split; [discriminate|]; intros _;
    (split; [unfold GameUtils.WINNING_LINES; set_solver|]);
    match goal with
    | Hs : same_mark ?u ?v ?w = true |- _ =>
        exists u; pose proof Hs as Hs'; apply same_mark_true in Hs' as (Hu & Huv & Hvw);
        split; [done|]; split;
        [ rewrite !Forall_cons, Forall_nil; cbn [fst snd]; rewrite_cells;
          rewrite !Ok_inj; repeat split; congruence
        | intros p Hp; rewrite checkWin_3x3;
          pose proof (is_mark_same_mark p _ _ _ Hs Hp) as Hm;
          rewrite Hm, ?orb_true_r; reflexivity ]
    end.
Qed.

Lemma findWinningLine_agrees_with_checkWin_witness :
  exists line,
    GameUtils.findWinningLine scenario_A_grid = Ok line /\
    (line = [] -> forall p, p <> 0 -> checkWin scenario_A_grid p = Ok false) /\
    (line <> [] ->
     line ∈ GameUtils.WINNING_LINES /\
     exists v, v <> JNum 0 /\
       Forall (fun rc : Z * Z => cell scenario_A_grid rc.1 rc.2 = Ok v) line /\
       forall p, v = JNum p -> checkWin scenario_A_grid p = Ok true).
Proof.
  apply (findWinningLine_agrees_with_checkWin scenario_A_grid).
  split; [reflexivity | repeat constructor].
Defined.

Lemma isMoveValid_out_of_range (g : Grid) (row col : Z) :
  ~ (0 <= row <= 2 /\ 0 <= col <= 2) -> isMoveValid g row col = Ok false.
Proof.
  intros Hout. unfold isMoveValid.
  assert (bool_decide (row < 0) || bool_decide (row > 2)
          || bool_decide (col < 0) || bool_decide (col > 2) = true) as ->; [|done].
  rewrite !orb_true_iff, !bool_decide_eq_true. lia.
Qed.

Lemma isMoveValid_in_range (g : Grid) (row col : Z) :
  0 <= row <= 2 -> 0 <= col <= 2 -> isMoveValid g row col = cell_is g row col 0.
Proof.
  intros Hr Hc. unfold isMoveValid.
  by rewrite !bool_decide_eq_false_2 by lia.
Qed.

Lemma makeMove_succeeds (g : Grid) (row col p : Z) :
  isMoveValid g row col = Ok true -> exists g', makeMove g row col p = Ok g'.
Proof.
  intros Hv. destruct (isMoveValid_true_inv _ _ _ Hv) as (_ & _ & Hcell).
  unfold cell in Hcell. unfold makeMove.
  destruct (array_get g row); [eauto | discriminate].
Qed.

(** The cases of a valid move on a 3x3 grid: the grid and the coordinates
    written out, and the new grid computed. *)
Ltac valid_move_cases g H3 Hv Hm :=
  let Hr := fresh "Hr" in
  let Hc := fresh "Hc" in
  let Hcell := fresh "Hcell" in
  destruct (isMoveValid_true_inv _ _ _ Hv) as (Hr & Hc & Hcell);
  grid_cases g H3;
  destruct (range3 _ Hr) as [-> | [-> | ->]];
  destruct (range3 _ Hc) as [-> | [-> | ->]];
  cbv in Hcell; cbv in Hm; simplify_eq.

(** X3. A move that [isMoveValid] accepts on a 3x3 grid: [makeMove]
    returns a 3x3 grid whose cell at the coordinates holds the mark, the
    same move is not valid on the new grid, and every other move is valid on
    the new grid exactly when it was on the old one. *)
Theorem valid_move_takes_one_cell (g : Grid) (row col p : Z) :
  grid3x3 g -> p <> 0 ->
  isMoveValid g row col = Ok true ->
  exists g',
    makeMove g row col p = Ok g' /\
    grid3x3 g' /\
    cell g' row col = Ok (JNum p) /\
    isMoveValid g' row col = Ok false /\
    (forall r c, (r, c) <> (row, col) -> isMoveValid g' r c = isMoveValid g r c).
Proof.
  intros H3 Hp Hv.
  destruct (makeMove_succeeds g row col p Hv) as [g' Hm].
  exists g'. split; [done|].
  assert (bool_decide (JNum p = JNum 0) = false) as Hp0.
  { apply bool_decide_eq_false. congruence. }
  pose proof Hm as Hm'.
  valid_move_cases g H3 Hv Hm';
    (split; [split; [reflexivity | repeat constructor]|]);
    (split; [reflexivity|]);
    (split; [rewrite isMoveValid_in_range by lia; unfold cell_is; rewrite_cells;
              cbn; by rewrite Hp0|]);
    intros r c Hne;
    (destruct (decide (0 <= r <= 2 /\ 0 <= c <= 2)) as [[Hr' Hc']|Hout];
     [|by rewrite !isMoveValid_out_of_range]);
    rewrite !isMoveValid_in_range by lia; unfold cell_is;
    destruct (range3 r Hr') as [-> | [-> | ->]];
    destruct (range3 c Hc') as [-> | [-> | ->]];
    try congruence; reflexivity.
Qed.

Lemma valid_move_takes_one_cell_witness :
  exists g',
    makeMove createEmptyGrid 1 1 1 = Ok g' /\
    grid3x3 g' /\
    cell g' 1 1 = Ok (JNum 1) /\
    isMoveValid g' 1 1 = Ok false /\
    (forall r c, (r, c) <> (1, 1) -> isMoveValid g' r c = isMoveValid createEmptyGrid r c).
Proof.
  apply (valid_move_takes_one_cell createEmptyGrid 1 1 1).
  - split; [reflexivity | repeat constructor].
  - discriminate.
  - reflexivity.
Defined.

Lemma makeMove_heap_throws (h : JsHeap.heap) (grid : JsHeap.loc) (m : Grid)
    (row col p : Z) :
  JsHeap.read_grid h grid = Some m ->
  array_get m row = None ->
  JsHeap.makeMove h grid row col p = Throw TypeError.
Proof.
  intros (refs & Hg & Hrows)%read_grid_Some Hrow.
  destruct (copy_rows_spec refs h m Hrows)
    as (refs' & h1 & Hcopy & _ & _ & _ & Hread).
  unfold JsHeap.makeMove. rewrite Hg. cbn. rewrite Hcopy. cbn.
  assert (array_get refs' row = None) as ->; [|done].
  unfold array_get in *. case_decide; [|done].
  apply lookup_ge_None. apply lookup_ge_None in Hrow.
  by rewrite (Forall2_length _ _ _ Hread).
Qed.

(** X4. [makeMove] outside the grid, on the matrix and on the heap. A
    row index that names no row throws a TypeError. With a row of the grid
    and a column index that is negative or at least the length of the row,
    no exception is thrown: a negative index leaves the elements of the
    copied row as they are, an index beyond the end extends the copied row,
    the cells in between reading [undefined]. In both cases every object
    that was on the heap is unchanged. *)
Theorem makeMove_outside_the_grid (h : JsHeap.heap) (grid : JsHeap.loc) (m : Grid)
    (row col p : Z) :
  JsHeap.read_grid h grid = Some m ->
  (row < 0 \/ Z.of_nat (length m) <= row ->
   makeMove m row col p = Throw TypeError /\
   JsHeap.makeMove h grid row col p = Throw TypeError) /\
  (forall r,
     0 <= row -> m !! Z.to_nat row = Some r ->
     col < 0 \/ Z.of_nat (length r) <= col ->
     let r' := if decide (col < 0) then r
               else r ++ replicate (Z.to_nat col - length r) JUndefined ++ [JNum p] in
     makeMove m row col p = Ok (<[Z.to_nat row := r']> m) /\
     exists newGrid h',
       JsHeap.makeMove h grid row col p = Ok (newGrid, h') /\
       JsHeap.read_grid h' newGrid = Some (<[Z.to_nat row := r']> m) /\
       (forall l, l ∈ dom h -> h' !! l = h !! l)).
Proof.
  intros Hread. split.
  - intros Hrow.
    assert (array_get m row = None) as Hnone.
    { unfold array_get. case_decide; [|done]. apply lookup_ge_None. lia. }
    split; [|by eapply makeMove_heap_throws].
    unfold makeMove. by rewrite Hnone.
  - intros r Hrow Hr Hcol r'.
    assert (makeMove m row col p = Ok (<[Z.to_nat row := r']> m)) as Hm.
    { unfold makeMove. rewrite array_get_nonneg, Hr by done.
      unfold array_set, r'. destruct (decide (col < 0)); [done|].
      rewrite decide_False by lia. done. }
    split; [done|].
    destruct (makeMove_heap_refines h grid m _ row col p Hread Hm)
      as (newGrid & h' & ? & ? & ? & _).
    eauto.
Qed.

Lemma makeMove_outside_the_grid_witness :
  makeMove createEmptyGrid 3 0 1 = Throw TypeError /\
  JsHeap.makeMove empty_grid_heap 4%positive 3 0 1 = Throw TypeError.
Proof.
  destruct (makeMove_outside_the_grid empty_grid_heap 4%positive createEmptyGrid 3 0 1)
    as [Hrow _]; [reflexivity|].
  apply Hrow. right. cbn. lia.
Defined.

(** ** The simulator's choice of a move *)

Lemma validMoves_3x3 (a b c d e f x y z : jsval) :
  Simulation.validMoves [ [a; b; c]; [d; e; f]; [x; y; z] ] =
  Ok (free_at (0, 0) a ++ free_at (0, 1) b ++ free_at (0, 2) c
      ++ free_at (1, 0) d ++ free_at (1, 1) e ++ free_at (1, 2) f
      ++ free_at (2, 0) x ++ free_at (2, 1) y ++ free_at (2, 2) z).
Proof.
  unfold Simulation.validMoves. cbn [Simulation.for_collect].
  unfold cell_is. rewrite_cells. cbn [mbind result_bind].
  unfold free_at, is_mark. rewrite <- !app_assoc, !app_nil_r. reflexivity.
Qed.

Lemma Forall_free_at (P : Z * Z -> Prop) rc v l :
  Forall P (free_at rc v ++ l) <-> (v = JNum 0 -> P rc) /\ Forall P l.
Proof.
  unfold free_at. destruct (is_mark 0 v) eqn:Hv.
  - apply is_mark_true in Hv. cbn. rewrite Forall_cons. tauto.
  - cbn. assert (v <> JNum 0) by (intros Hv'; apply is_mark_true in Hv'; congruence).
    tauto.
Qed.

Lemma free_at_nil rc v l : free_at rc v ++ l = [] <-> is_mark 0 v = false /\ l = [].
Proof.
  unfold free_at. destruct (is_mark 0 v); cbn; split;
    try discriminate; try tauto; intros [? ?]; discriminate.
Qed.

(** X5. On a 3x3 grid and for every double in the place of
    [Math.random()], [findRandomValidMove] returns without throwing,
    returns [null] exactly when the grid has no free cell ([checkDraw]),
    and every move it returns is one that [isMoveValid] accepts. *)
Theorem findRandomValidMove_is_valid (random : Double.t) (grid : Grid) :
  grid3x3 grid ->
  exists c,
    Simulation.findRandomValidMove random grid = Ok c /\
    (c = Simulation.Null <-> checkDraw grid = Ok true) /\
    (forall row col,
       c = Simulation.Chosen row col -> isMoveValid grid row col = Ok true).
Proof.
  intros H3. grid_cases grid H3.
  unfold Simulation.findRandomValidMove. rewrite validMoves_3x3. cbn [mbind result_bind].
  set (g := [ [c00; c01; c02]; [c10; c11; c12]; [c20; c21; c22] ]).
  set (moves := free_at (0, 0) c00 ++ _).
  assert (Forall (fun rc : Z * Z => isMoveValid g rc.1 rc.2 = Ok true) moves) as Hvalid.
  { unfold moves. rewrite <- (app_nil_r (free_at (2, 2) c22)).
    rewrite !Forall_free_at. cbn [fst snd].
    repeat split; try (by constructor); intros ->; reflexivity. }
  assert (moves = [] <-> checkDraw g = Ok true) as Hfull.
  { unfold g. rewrite checkDraw_3x3, Ok_inj. cbn [forallb].
    unfold moves. rewrite <- (app_nil_r (free_at (2, 2) c22)).
    rewrite !free_at_nil, !andb_true_iff, !negb_true_iff. tauto. }
  case_bool_decide as Hlen.
  - apply length_zero_iff_nil in Hlen.
    exists Simulation.Null. split; [done|]. split.
    + split; [intros _; by apply Hfull | done].
    + discriminate.
  - assert (moves <> []) as Hne by (intros Hnil; by rewrite Hnil in Hlen).
    destruct (Double.floor _ ≫= array_get moves) as [[row col]|] eqn:Hrc.
    + exists (Simulation.Chosen row col). split; [done|]. split.
      * split; [discriminate|]. by intros Hd%Hfull.
      * intros ? ? [= <- <-].
        destruct (Double.floor _) as [index|]; [|done]. cbn in Hrc.
        unfold array_get in Hrc. case_decide; [|done].
        apply (Forall_lookup_1 _ _ _ _ Hvalid Hrc).
    + exists Simulation.Undefined. split; [done|]. split.
      * split; [discriminate|]. by intros Hd%Hfull.
      * discriminate.
Qed.

(** The value 0.5714285714285714 of [Math.random()] on a grid with seven
    free cells: the product of the doubles is 4, the fifth free cell. *)
Lemma findRandomValidMove_is_valid_witness :
  let random := Double.div (Double.of_Z 4) (Double.of_Z 7) in
  let grid := [ [JNum 1; JNum 0; JNum 0]; [JNum 0; JNum 2; JNum 0];
                [JNum 0; JNum 0; JNum 0] ] in
  Simulation.findRandomValidMove random grid = Ok (Simulation.Chosen 2 0) /\
  exists c,
    Simulation.findRandomValidMove random grid = Ok c /\
    (c = Simulation.Null <-> checkDraw grid = Ok true) /\
    (forall row col,
       c = Simulation.Chosen row col -> isMoveValid grid row col = Ok true).
Proof.
  split; [reflexivity|].
  apply (findRandomValidMove_is_valid
           (Double.div (Double.of_Z 4) (Double.of_Z 7))
           [ [JNum 1; JNum 0; JNum 0]; [JNum 0; JNum 2; JNum 0];
             [JNum 0; JNum 0; JNum 0] ]).
  split; [reflexivity | repeat constructor].
Defined.

(** ** Every request is a transition *)

Lemma handle_step (r : Api.Request) (st : Database.Store) :
  step st (Api.handle r st).2.
Proof.
  destruct r as [name|playerId gameId|gameId playerId|gameId playerId row col];
    cbn [Api.handle].
  - unfold Api.postPlayers, Database.createPlayer.
    case_bool_decide as Hname; [constructor|].
    destruct (existsb _ _) eqn:Hex; [constructor|]. cbn.
    apply step_player; [done|].
    intros p Hp Hpn.
    assert (existsb (fun p => bool_decide (Player.name p = name)) (Database.players st)
            = true) as Hex'; [|congruence].
    apply existsb_exists. exists p. split; [by apply list_elem_of_In|].
    by apply bool_decide_eq_true.
  - unfold Api.postGames, Database.createGame.
    case_bool_decide as Hpid; [constructor|].
    destruct (Database.getPlayerById playerId st) as [p|] eqn:Hp; [|constructor].
    destruct (Database.games st !! gameId) eqn:Hg; [constructor|]. cbn.
    apply step_game; [done | by rewrite Hp | done].
  - unfold Api.postJoin, Database.getGameById.
    case_bool_decide as Hpid; [constructor|].
    destruct (Database.getPlayerById playerId st) as [p|] eqn:Hp; [|constructor].
    destruct (Database.games st !! gameId) as [g|] eqn:Hg; [|constructor]. cbn.
    destruct (decide (Game.status g = waiting)) as [Hs|Hs].
    + destruct (decide (Game.player1_id g = Some playerId)) as [Hp1|Hp1].
      * rewrite (joinGame_own_game st gameId playerId g Hg Hs Hp1). constructor.
      * rewrite (joinGame_joined st gameId playerId g Hg Hs Hp1). cbn.
        apply step_join; [done | by rewrite Hp | done..].
    + rewrite (joinGame_not_waiting st gameId playerId g Hg Hs). constructor.
  - rewrite postMove_store. constructor.
Qed.

(** ** Sums over the games table *)

Lemma games_sum_perm (f : Game.t -> Z) (l l' : list (string * Game.t)) :
  l ≡ₚ l' ->
  foldr (fun kg acc => f kg.2 + acc) 0 l = foldr (fun kg acc => f kg.2 + acc) 0 l'.
Proof. induction 1; cbn; lia. Qed.

Lemma games_sum_insert_None (f : Game.t -> Z) (games : gmap string Game.t) k g :
  games !! k = None -> games_sum f (<[k := g]> games) = f g + games_sum f games.
Proof.
  intros Hk. unfold games_sum.
  by rewrite (games_sum_perm f _ _ (map_to_list_insert games k g Hk)).
Qed.

Lemma games_sum_insert_Some (f : Game.t -> Z) (games : gmap string Game.t) k g0 g :
  games !! k = Some g0 ->
  games_sum f (<[k := g]> games) = games_sum f games - f g0 + f g.
Proof.
  intros Hk.
  rewrite <- (insert_delete_eq games), games_sum_insert_None by apply lookup_delete_eq.
  rewrite <- (insert_delete_id games k g0 Hk) at 2.
  rewrite games_sum_insert_None by apply lookup_delete_eq. lia.
Qed.

Lemma games_sum_zero (f : Game.t -> Z) (games : gmap string Game.t) :
  (forall k g, games !! k = Some g -> f g = 0) -> games_sum f games = 0.
Proof.
  intros Hf. unfold games_sum.
  assert (Forall (fun kg : string * Game.t => f kg.2 = 0) (map_to_list games)) as Hall.
  { apply Forall_forall. intros [k g] Hkg. apply elem_of_map_to_list in Hkg.
    by apply (Hf k). }
  induction Hall as [|kg l Hkg _ IH]; cbn; lia.
Qed.

(** ** Cells and lines after a valid move *)

Lemma array_get_insert_ne {A} (l : list A) (i j : Z) (x : A) :
  0 <= i -> i <> j -> array_get (<[Z.to_nat i := x]> l) j = array_get l j.
Proof.
  intros Hi Hne. unfold array_get. case_decide; [|done].
  apply list_lookup_insert_ne. lia.
Qed.

Lemma makeMove_other_cells (g g' : Grid) (row col p r c : Z) :
  isMoveValid g row col = Ok true ->
  makeMove g row col p = Ok g' ->
  (r, c) <> (row, col) ->
  cell g' r c = cell g r c.
Proof.
  intros Hv Hm Hne.
  destruct (isMoveValid_true_inv _ _ _ Hv) as (Hr & Hc & Hcell).
  unfold makeMove in Hm. unfold cell in *.
  destruct (array_get g row) as [r0|] eqn:Hrow; [|discriminate].
  injection Hm as <-.
  destruct (decide (r = row)) as [->|Hrr].
  - assert (c <> col) by congruence.
    rewrite Hrow. unfold array_get in Hrow |- *.
    rewrite decide_True in Hrow |- * by lia.
    rewrite list_lookup_insert_eq by (by eapply lookup_lt_Some).
    f_equal. unfold row_get, array_set.
    rewrite decide_False by lia.
    case_decide; [by rewrite array_get_insert_ne by lia|].
    unfold row_get, array_get in Hcell. rewrite decide_True in Hcell by lia.
    destruct (r0 !! Z.to_nat col) eqn:Hcol; [|discriminate].
    apply lookup_lt_Some in Hcol. lia.
  - by rewrite array_get_insert_ne by lia.
Qed.

Lemma makeMove_cell_marked (g g' : Grid) (row col p : Z) :
  grid3x3 g ->
  isMoveValid g row col = Ok true ->
  makeMove g row col p = Ok g' ->
  cell g' row col = Ok (JNum p).
Proof.
  intros H3 Hv Hm. valid_move_cases g H3 Hv Hm; reflexivity.
Qed.

Lemma checkWin_other_mark (g g' : Grid) (row col p q : Z) :
  grid3x3 g -> q <> p -> q <> 0 ->
  isMoveValid g row col = Ok true ->
  makeMove g row col p = Ok g' ->
  checkWin g' q = checkWin g q.
Proof.
  intros H3 Hqp Hq Hv Hm.
  assert (is_mark q (JNum p) = false) as Hqp'.
  { apply bool_decide_eq_false. congruence. }
  assert (is_mark q (JNum 0) = false) as Hq0.
  { apply bool_decide_eq_false. congruence. }
  valid_move_cases g H3 Hv Hm; rewrite !checkWin_3x3, ?Hqp', ?Hq0; reflexivity.
Qed.

(** ** Registered players *)

Lemma getPlayerById_Some (st : Database.Store) (p : Z) (q : Player.t) :
  Database.getPlayerById p st = Some q -> q ∈ Database.players st /\ Player.id q = p.
Proof.
  unfold Database.getPlayerById. intros [Hin Hid]%find_some.
  split; [by apply list_elem_of_In | by apply bool_decide_eq_true in Hid].
Qed.

Lemma getPlayerById_is_Some (st : Database.Store) (p : Z) :
  is_Some (Database.getPlayerById p st) <-> p ∈ Player.id <$> Database.players st.
Proof.
  unfold Database.getPlayerById. split.
  - intros [q [Hin Hid]%find_some]. apply list_elem_of_fmap.
    exists q. split; [by apply bool_decide_eq_true in Hid | by apply list_elem_of_In].
  - intros (q & -> & Hq)%list_elem_of_fmap.
    destruct (find _ _) as [q'|] eqn:Hfind; [eauto|].
    apply find_none with (x := q) in Hfind; [|by apply list_elem_of_In].
    by rewrite bool_decide_eq_true_2 in Hfind.
Qed.

Lemma registered_mono (st st' : Database.Store) (p : Z) :
  (forall q, q ∈ Player.id <$> Database.players st ->
             q ∈ Player.id <$> Database.players st') ->
  registered st p -> registered st' p.
Proof.
  intros Hsub [Hp Hreg]. split; [done|].
  apply getPlayerById_is_Some, Hsub. by apply getPlayerById_is_Some.
Qed.

Lemma registered_bound (st : Database.Store) (p : Z) :
  players_ok st -> registered st p -> 0 < p <= Database.players_seq st.
Proof.
  intros (_ & Hids & _ & _) [_ [q Hq]].
  apply getPlayerById_Some in Hq as [Hin <-]. by apply Hids.
Qed.

Lemma seats_ok_mono (st st' : Database.Store) gameId g :
  (forall q, q ∈ Player.id <$> Database.players st ->
             q ∈ Player.id <$> Database.players st') ->
  seats_ok st gameId g -> seats_ok st' gameId g.
Proof.
  intros Hsub (Hid & (p1 & Hp1 & Hr1) & Hwait & Hp2).
  split; [done|]. split; [eauto using registered_mono|]. split; [done|].
  intros p2 H2. destruct (Hp2 p2 H2). eauto using registered_mono.
Qed.

Lemma record_win_ids (n w : Z) (ps : list Player.t) :
  Player.id <$> Database.record_win n w ps = Player.id <$> ps.
Proof.
  unfold Database.record_win. rewrite <- list_fmap_compose.
  apply list_fmap_ext. intros ? p _. cbn. by case_bool_decide.
Qed.

Lemma record_win_names (n w : Z) (ps : list Player.t) :
  Player.name <$> Database.record_win n w ps = Player.name <$> ps.
Proof.
  unfold Database.record_win. rewrite <- list_fmap_compose.
  apply list_fmap_ext. intros ? p _. cbn. by case_bool_decide.
Qed.

Lemma players_after_ids n w ps :
  Player.id <$> players_after n w ps = Player.id <$> ps.
Proof.
  unfold players_after. destruct w as [w|]; [|done].
  case_bool_decide; [done | apply record_win_ids].
Qed.

Lemma players_after_names n w ps :
  Player.name <$> players_after n w ps = Player.name <$> ps.
Proof.
  unfold players_after. destruct w as [w|]; [|done].
  case_bool_decide; [done | apply record_win_names].
Qed.

Lemma commit_move_store game gameId playerId row col newGrid newStatus winnerId st :
  (Database.commit_move game gameId playerId row col newGrid newStatus winnerId st).2 =
  Database.mkStore
    (players_after (Game.move_count game + 1) winnerId (Database.players st))
    (Database.players_seq st)
    (<[gameId :=
         Game.mk gameId (Game.player1_id game) (Game.player2_id game)
           (if bool_decide (newStatus = in_progress)
            then (if bool_decide (Game.player1_id game = Some playerId)
                  then Game.player2_id game else Game.player1_id game)
            else Game.current_turn_player_id game)
           newStatus winnerId newGrid (Game.move_count game + 1)]>
       (Database.games st))
    (Database.moves st
     ++ [Move.mk gameId playerId row col (Game.move_count game + 1)]).
Proof. reflexivity. Qed.

(** ** The invariant is kept by every transition *)

Lemma evaluate_inv (g : Grid) (mark playerId : Z) s w :
  Api.evaluate g mark playerId = Ok (s, w) ->
  (s = win /\ w = Some playerId /\ checkWin g mark = Ok true) \/
  (s = draw /\ w = None /\ checkWin g mark = Ok false /\ checkDraw g = Ok true) \/
  (s = in_progress /\ w = None /\ checkWin g mark = Ok false
   /\ checkDraw g = Ok false).
Proof.
  unfold Api.evaluate.
  destruct (checkWin g mark) as [[]|]; cbn; [intros ?; simplify_eq; auto| |done].
  destruct (checkDraw g) as [[]|]; cbn; intros ?; simplify_eq; auto 10.
Qed.

Lemma marked_cells_nonneg (g : Grid) : 0 <= marked_cells g.
Proof. unfold marked_cells. lia. Qed.

Lemma seat_S (g : Game.t) (k : nat) :
  seat g (S k) = if Nat.even k then Game.player2_id g else Game.player1_id g.
Proof. unfold seat. rewrite Nat.even_succ, <- Nat.negb_even. by destruct (Nat.even k). Qed.

(** The mover of a game in progress is the seat of the next move, and the
    mark is the one of that seat. *)
Lemma mover_seat (st : Database.Store) gameId game playerId :
  seats_ok st gameId game -> turn_ok game ->
  Game.status game = in_progress ->
  Game.current_turn_player_id game = Some playerId ->
  let k := Z.to_nat (Game.move_count game) in
  seat game k = Some playerId /\
  Api.playerNumber game playerId = (if Nat.even k then 1 else 2) /\
  (if bool_decide (Game.player1_id game = Some playerId)
   then Game.player2_id game else Game.player1_id game) = seat game (S k) /\
  (Game.player1_id game = Some playerId \/ Game.player2_id game = Some playerId).
Proof.
  intros (_ & _ & _ & Hp2) Hturn Hs Ht k.
  unfold turn_ok in Hturn. rewrite Hs, Ht in Hturn. fold k in Hturn.
  split; [done|]. rewrite seat_S. unfold Api.playerNumber.
  unfold seat in Hturn. destruct (Nat.even k).
  - rewrite bool_decide_eq_true_2 by done. auto.
  - destruct (Hp2 playerId) as [_ Hne]; [done|].
    rewrite bool_decide_eq_false_2 by done. auto.
Qed.

Lemma players_ok_ids (st : Database.Store) :
  players_ok st <->
  0 <= Database.players_seq st /\
  Forall (fun i => 0 < i <= Database.players_seq st) (Player.id <$> Database.players st) /\
  NoDup (Player.id <$> Database.players st) /\
  NoDup (Player.name <$> Database.players st).
Proof.
  unfold players_ok. rewrite Forall_fmap, Forall_forall. done.
Qed.

Lemma trail_other (gameId : string) (m : Move.t) (moves : list Move.t) :
  Move.game_id m <> gameId -> trail gameId (moves ++ [m]) = trail gameId moves.
Proof.
  intros Hne. unfold trail.
  by rewrite filter_app, filter_cons_False, filter_nil, app_nil_r.
Qed.

Lemma trail_same (gameId : string) (m : Move.t) (moves : list Move.t) :
  Move.game_id m = gameId -> trail gameId (moves ++ [m]) = trail gameId moves ++ [m].
Proof.
  intros He. unfold trail. by rewrite filter_app, filter_cons_True, filter_nil.
Qed.

Lemma won_by_not_won (p : Z) (g : Game.t) : Game.status g <> win -> won_by p g = false.
Proof. intros Hs. unfold won_by. apply bool_decide_eq_false. tauto. Qed.

Lemma inv_move_game (st : Database.Store) gameId playerId row col game newGrid
    newStatus winnerId :
  store_inv st ->
  Database.games st !! gameId = Some game ->
  Game.status game = in_progress ->
  Game.current_turn_player_id game = Some playerId ->
  isMoveValid (Game.grid game) row col = Ok true ->
  makeMove (Game.grid game) row col (Api.playerNumber game playerId) = Ok newGrid ->
  Api.evaluate newGrid (Api.playerNumber game playerId) playerId
    = Ok (newStatus, winnerId) ->
  let updated :=
    Game.mk gameId (Game.player1_id game) (Game.player2_id game)
      (if bool_decide (newStatus = in_progress)
       then (if bool_decide (Game.player1_id game = Some playerId)
             then Game.player2_id game else Game.player1_id game)
       else Game.current_turn_player_id game)
      newStatus winnerId newGrid (Game.move_count game + 1) in
  seats_ok st gameId updated /\ turn_ok updated /\ outcome_ok updated /\
  trail_ok (Database.moves st
            ++ [Move.mk gameId playerId row col (Game.move_count game + 1)])
    gameId updated.
Proof.
  intros (Hok & Hplayers & Hgames & Hmoves & Hstats) Hg Hs Ht Hv Hm He updated.
  destruct (Hgames _ _ Hg) as (Hseats & Hturn & Hout & Htrail).
  destruct (Hok _ _ Hg) as (H3 & Hcount & _).
  destruct (mover_seat st gameId game playerId Hseats Hturn Hs Ht)
    as (Hseat & Hmark & Hnext & Hseated).
  pose proof (marked_cells_nonneg (Game.grid game)) as Hnonneg.
  set (k := Z.to_nat (Game.move_count game)) in *.
  assert (Z.of_nat k = Game.move_count game) as Hk by lia.
  assert (Z.to_nat (Game.move_count game + 1) = S k) as HSk by lia.
  assert (forall j, seat updated j = seat game j) as Hseat_upd by done.
  assert (newStatus <> waiting) as Hnw.
  { destruct (evaluate_inv _ _ _ _ _ He) as [(-> & _)|[(-> & _)|(-> & _)]]; done. }
  unfold outcome_ok in Hout. rewrite Hs in Hout.
  destruct Hout as (Hwinner & [Hline1 Hline2] & Hfull).
  assert (forall q, q <> Api.playerNumber game playerId -> q <> 0 ->
            checkWin newGrid q = checkWin (Game.grid game) q) as Hother.
  { intros q Hq1 Hq2. exact (checkWin_other_mark _ _ _ _ _ _ H3 Hq1 Hq2 Hv Hm). }
  assert (checkWin newGrid (Api.playerNumber game playerId) = Ok false ->
          checkWin newGrid 1 = Ok false /\ checkWin newGrid 2 = Ok false) as Hno.
  { intros Hmine. rewrite Hmark in Hmine.
    destruct (Nat.even k); split; try done;
      rewrite Hother; try done; rewrite Hmark; done. }
  split; [|split; [|split]].
  - destruct Hseats as (Hid & Hp1 & Hwait & Hp2).
    split; [done|]. split; [done|]. split; [|done]. cbn.
    split; [done|]. intros Hnone. apply Hwait in Hnone. congruence.
  - unfold turn_ok. cbn.
    destruct (evaluate_inv _ _ _ _ _ He) as [(-> & _)|[(-> & _)|(-> & _)]];
      [done | done |].
    cbn. rewrite HSk, Hseat_upd. exact Hnext.
  - unfold outcome_ok, no_line. cbn.
    destruct (evaluate_inv _ _ _ _ _ He)
      as [(-> & -> & Hw)|[(-> & -> & Hw & Hd)|(-> & -> & Hw & Hd)]].
    + exists playerId. done.
    + split; [done|]. split; [by apply Hno | done].
    + split; [done|]. split; [by apply Hno | done].
  - destruct Htrail as [Hlen Hrec]. unfold trail_ok.
    rewrite trail_same by done. split.
    { rewrite length_app. cbn. lia. }
    intros j m Hj.
    assert (j < length (trail gameId (Database.moves st)) \/
            j = length (trail gameId (Database.moves st)))%nat as [Hlt | ->].
    { apply lookup_lt_Some in Hj. rewrite length_app in Hj. cbn in Hj. lia. }
    + rewrite lookup_app_l in Hj by done.
      destruct (Hrec j m Hj) as (Hnum & Hpl & Hcell).
      split; [done|]. split; [by rewrite Hseat_upd|]. cbn.
      rewrite (makeMove_other_cells _ _ _ _ _ _ _ Hv Hm); [done|].
      intros [= Hr Hc]. rewrite Hr, Hc in Hcell.
      destruct (isMoveValid_true_inv _ _ _ Hv) as (_ & _ & Hzero).
      rewrite Hzero in Hcell. by destruct (Nat.even j).
    + rewrite list_lookup_middle in Hj by done. injection Hj as <-. cbn.
      assert (length (trail gameId (Database.moves st)) = k) as -> by lia.
      split; [lia|]. split; [by rewrite Hseat_upd, Hseat|].
      rewrite <- Hmark.
      exact (makeMove_cell_marked _ _ _ _ _ H3 Hv Hm).
Qed.

Lemma winner_registered (st : Database.Store) gameId g w :
  store_inv st ->
  Database.games st !! gameId = Some g ->
  Game.status g = win -> Game.winner_id g = Some w ->
  registered st w.
Proof.
  intros (_ & _ & Hgames & _) Hg Hs Hw.
  destruct (Hgames _ _ Hg) as ((_ & (p1 & Hp1 & Hr1) & _ & Hp2) & _ & Hout & _).
  unfold outcome_ok in Hout. rewrite Hs in Hout.
  destruct Hout as (w' & Hw' & [H1|H2] & _); simplify_eq; [done|].
  by destruct (Hp2 _ H2).
Qed.

Lemma trail_unknown_game (st : Database.Store) gameId :
  (forall m, m ∈ Database.moves st -> is_Some (Database.games st !! Move.game_id m)) ->
  Database.games st !! gameId = None ->
  trail gameId (Database.moves st) = [].
Proof.
  intros Hmoves Hnone. apply elem_of_nil_inv.
  intros m [Hid Hm]%list_elem_of_filter.
  destruct (Hmoves m Hm) as [g Hg]. congruence.
Qed.

Lemma step_inv (st st' : Database.Store) :
  store_inv st -> step st st' -> store_ok st' -> store_inv st'.
Proof.
  intros Hinv Hstep Hok'. pose proof Hinv as (Hok & Hplayers & Hgames & Hmoves & Hstats).
  destruct Hstep as [|name Hname Hfresh|playerId gameId Hpid Hreg Hnone
                     |gameId playerId g Hpid Hreg Hg Hs Hp1
                     |gameId playerId row col game newGrid newStatus winnerId
                        Hpid Hreg Hg Hs Ht Hv Hm He]; [done| | | |].
  - (* a player is registered *)
    assert (forall q, q ∈ Player.id <$> Database.players st ->
              q ∈ Player.id <$> (Database.players st
                ++ [Player.mk (Database.players_seq st + 1) name 0 0])) as Hsub.
    { intros q Hq. rewrite fmap_app. by apply elem_of_app; left. }
    split; [done|]. split; [|split; [|split]].
    + apply players_ok_ids in Hplayers as (Hseq & Hids & Hnd & Hnames).
      apply players_ok_ids. cbn. rewrite !fmap_app. cbn.
      split; [lia|]. split; [|split].
      * apply Forall_app. split; [|apply Forall_singleton; lia].
        eapply Forall_impl; [exact Hids|]. cbn. lia.
      * apply NoDup_app. split; [done|]. split; [|apply NoDup_singleton].
        intros i Hi ->%list_elem_of_singleton.
        rewrite Forall_forall in Hids. specialize (Hids _ Hi). lia.
      * apply NoDup_app. split; [done|]. split; [|apply NoDup_singleton].
        intros n (p & -> & Hp)%list_elem_of_fmap Hn%list_elem_of_singleton.
        by apply (Hfresh p).
    + intros k g Hg. cbn in Hg. destruct (Hgames k g Hg) as (? & ? & ? & ?).
      split; [by eapply seats_ok_mono|]. done.
    + done.
    + intros p [Hp | ->%list_elem_of_singleton]%elem_of_app; [by apply Hstats|].
      cbn. assert (forall k g, Database.games st !! k = Some g ->
                     won_by (Database.players_seq st + 1) g = false) as Hnot.
      { intros k g Hg. apply bool_decide_eq_false. intros [Hs Hw].
        pose proof (winner_registered st k g _ Hinv Hg Hs Hw) as Hr.
        apply registered_bound in Hr; [lia | done]. }
      split; symmetry; apply games_sum_zero; intros k g Hg; by rewrite (Hnot k g Hg).
  - (* a game is created *)
    set (new := Game.mk gameId (Some playerId) None (Some playerId) waiting None
                  createEmptyGrid 0) in *.
    split; [done|]. split; [done|]. split; [|split].
    + intros k g. cbn. destruct (decide (k = gameId)) as [->|Hne].
      * rewrite lookup_insert_eq. intros [= <-].
        split; [|split; [|split]].
        -- split; [done|]. split; [by exists playerId|]. split; [done|].
           intros p2 [=].
        -- done.
        -- unfold outcome_ok, no_line. cbn. repeat split; reflexivity.
        -- unfold trail_ok. rewrite (trail_unknown_game st gameId) by done.
           split; [done|]. intros j m Hj. by rewrite lookup_nil in Hj.
      * rewrite lookup_insert_ne by done. intros Hg.
        destruct (Hgames k g Hg) as (? & ? & ? & ?). done.
    + intros m Hm. cbn in *. destruct (Hmoves m Hm) as [g Hg].
      destruct (decide (Move.game_id m = gameId)) as [He|Hne];
        [rewrite He in Hg; rewrite Hnone in Hg; discriminate|].
      rewrite lookup_insert_ne by done. eauto.
    + intros p Hp. cbn in *. destruct (Hstats p Hp) as [Hw Hmv].
      rewrite !games_sum_insert_None by done.
      rewrite (won_by_not_won _ new) by done. lia.
  - (* the second player joins *)
    set (joined := Game.mk gameId (Game.player1_id g) (Some playerId)
                     (Game.current_turn_player_id g) in_progress (Game.winner_id g)
                     (Game.grid g) (Game.move_count g)) in *.
    destruct (Hgames _ _ Hg) as (Hseats & Hturn & Hout & Htrail).
    unfold turn_ok in Hturn. unfold outcome_ok in Hout. rewrite Hs in Hturn, Hout.
    destruct Hturn as (Hturn & Hcount & Hgrid).
    split; [done|]. split; [done|]. split; [|split].
    + intros k g'. cbn. destruct (decide (k = gameId)) as [->|Hne].
      * rewrite lookup_insert_eq. intros [= <-].
        destruct Hseats as (Hid & Hp1' & Hwait & Hp2).
        split; [|split; [|split]].
        -- split; [done|]. split; [done|]. split; [done|]. cbn.
           intros p2 [= <-]. done.
        -- unfold turn_ok. cbn. by rewrite Hcount.
        -- done.
        -- destruct Htrail as [Hlen Hrec]. split; [done|].
           intros j m Hj. apply lookup_lt_Some in Hj. lia.
      * rewrite lookup_insert_ne by done. intros Hg'.
        destruct (Hgames k g' Hg') as (? & ? & ? & ?). done.
    + intros m Hm. cbn in *. destruct (Hmoves m Hm) as [g' Hg'].
      destruct (decide (Move.game_id m = gameId)) as [->|Hne];
        [rewrite lookup_insert_eq | rewrite lookup_insert_ne by done]; eauto.
    + intros p Hp. cbn in *. destruct (Hstats p Hp) as [Hw Hmv].
      rewrite !(games_sum_insert_Some _ _ _ g) by done.
      rewrite (won_by_not_won _ g), (won_by_not_won _ joined) by (done || congruence).
      lia.
  - (* a move is committed *)
    rewrite commit_move_store in *.
    set (updated := Game.mk gameId _ _ _ _ _ _ _) in *.
    set (move := Move.mk gameId playerId row col (Game.move_count game + 1)) in *.
    destruct (inv_move_game st gameId playerId row col game newGrid newStatus winnerId
                Hinv Hg Hs Ht Hv Hm He) as (Hseats' & Hturn' & Hout' & Htrail').
    assert (forall q, q ∈ Player.id <$> Database.players st ->
              q ∈ Player.id <$> players_after (Game.move_count game + 1) winnerId
                                  (Database.players st)) as Hsub.
    { intros q. by rewrite players_after_ids. }
    split; [done|]. split; [|split; [|split]].
    + apply players_ok_ids in Hplayers. apply players_ok_ids. cbn.
      by rewrite players_after_ids, players_after_names.
    + intros k g. cbn. destruct (decide (k = gameId)) as [->|Hne].
      * rewrite lookup_insert_eq. intros [= <-].
        split; [by eapply seats_ok_mono|]. done.
      * rewrite lookup_insert_ne by done. intros Hg'.
        destruct (Hgames k g Hg') as (? & ? & ? & Htr).
        split; [by eapply seats_ok_mono|]. split; [done|]. split; [done|].
        unfold trail_ok. rewrite trail_other by (cbn; congruence). done.
    + intros m. cbn. intros [Hm' | ->%list_elem_of_singleton]%elem_of_app.
      * destruct (Hmoves m Hm') as [g' Hg'].
        destruct (decide (Move.game_id m = gameId)) as [->|Hne];
          [rewrite lookup_insert_eq | rewrite lookup_insert_ne by done]; eauto.
      * cbn. rewrite lookup_insert_eq. eauto.
    + intros p'. cbn. intros Hp'.
      rewrite !(games_sum_insert_Some _ _ _ game) by done.
      rewrite !(won_by_not_won _ game) by congruence.
      destruct (evaluate_inv _ _ _ _ _ He)
        as [(-> & -> & _)|[(-> & -> & _)|(-> & -> & _)]].
      * unfold players_after in Hp'. rewrite bool_decide_eq_false_2 in Hp' by done.
        unfold Database.record_win in Hp'.
        apply list_elem_of_fmap in Hp' as (p & -> & Hp).
        destruct (Hstats p Hp) as [Hw Hmv].
        destruct (decide (Player.id p = playerId)) as [Hid|Hid].
        -- rewrite !(bool_decide_eq_true_2 (Player.id p = playerId)) by done.
           cbn [Player.id Player.total_wins Player.total_moves_in_wins].
           assert (won_by (Player.id p) updated = true) as ->.
           { apply bool_decide_eq_true. cbn. split; congruence. }
           cbn. lia.
        -- rewrite !(bool_decide_eq_false_2 (Player.id p = playerId)) by done.
           assert (won_by (Player.id p) updated = false) as ->.
           { apply bool_decide_eq_false. cbn. intros [_ ?]. congruence. }
           lia.
      * destruct (Hstats p' Hp') as [Hw Hmv].
        rewrite !(won_by_not_won _ updated) by done. lia.
      * destruct (Hstats p' Hp') as [Hw Hmv].
        rewrite !(won_by_not_won _ updated) by done. lia.
Qed.

Lemma store_inv_empty : store_inv Database.empty.
Proof.
  split; [apply store_ok_empty|]. split; [|split; [|split]].
  - split; [done|]. split; [|split; constructor].
    intros p Hp. by apply elem_of_nil in Hp.
  - intros gameId g Hg. cbn in Hg. by rewrite lookup_empty in Hg.
  - intros m Hm. by apply elem_of_nil in Hm.
  - intros p Hp. by apply elem_of_nil in Hp.
Qed.

Lemma handle_inv (r : Api.Request) (st : Database.Store) :
  store_inv st -> store_inv (Api.handle r st).2.
Proof.
  intros Hinv. apply (step_inv st); [done | apply handle_step|].
  apply handle_store_ok. by destruct Hinv.
Qed.

Lemma serve_inv (requests : list Api.Request) (st : Database.Store) :
  store_inv st -> store_inv (Api.serve requests st).
Proof.
  revert st. induction requests as [|r requests IH]; intros st Hinv; [done|].
  cbn. apply IH. by apply handle_inv.
Qed.

Lemma reachable_inv (requests : list Api.Request) :
  store_inv (Api.serve requests Database.empty).
Proof. apply serve_inv, store_inv_empty. Qed.

(** A move that [Database.makeMove] commits, with the grid, the status and
    the winner of the game logic, is the transition [step_move]. *)
Lemma move_is_step st st' gameId playerId row col game newGrid newStatus winnerId
    updated :
  store_inv st ->
  Database.games st !! gameId = Some game ->
  makeMove (Game.grid game) row col (Api.playerNumber game playerId) = Ok newGrid ->
  Api.evaluate newGrid (Api.playerNumber game playerId) playerId
    = Ok (newStatus, winnerId) ->
  Database.makeMove gameId playerId row col newGrid newStatus winnerId st
    = (Ok updated, st') ->
  step st st'.
Proof.
  intros (Hok & _ & Hgames & _) Hg Hm He Hmove.
  apply makeMove_Ok_inv in Hmove as (game' & Hg' & Hs & Ht & Hcell & ->).
  assert (game' = game) as -> by congruence.
  destruct (Hok _ _ Hg) as (H3 & _).
  destruct (Hgames _ _ Hg) as (Hseats & Hturn & _).
  destruct (mover_seat st gameId game playerId Hseats Hturn Hs Ht)
    as (_ & _ & _ & Hseated).
  assert (registered st playerId) as [Hpid Hreg].
  { destruct Hseats as (_ & (p1 & Hp1 & Hreg1) & _ & Hp2).
    destruct Hseated as [Hp|Hp]; [by simplify_eq|].
    by destruct (Hp2 _ Hp). }
  eapply step_move; try done. by apply cell_free_in_range.
Qed.

Lemma reachable_store_inv (st : Database.Store) : reachable st -> store_inv st.
Proof.
  induction 1 as [|r st _ IH
                  |st st' gameId playerId row col game newGrid newStatus winnerId
                     updated Hst IH Hg Hm He Hmove].
  - apply store_inv_empty.
  - by apply handle_inv.
  - apply (step_inv st); [done | by eapply move_is_step|].
    apply reachable_store_ok. by eapply reachable_move.
Qed.

(** ** What holds of every game, player and move of a reachable store *)

Lemma even_to_nat (c : Z) : 0 <= c -> Nat.even (Z.to_nat c) = Z.even c.
Proof.
  intros Hc. rewrite <- (Z2Nat.id c) at 2 by done.
  generalize (Z.to_nat c). intros n.
  induction n as [|n IH]; [done|].
  rewrite Nat2Z.inj_succ, Z.even_succ, Nat.even_succ.
  rewrite <- Z.negb_even, <- Nat.negb_even. by rewrite IH.
Qed.

(** X6. Every game of a store the server reaches from the empty one
    carries its key as id and has a registered first player; it has no
    second player exactly while it is [waiting], and a second player is
    registered and is not the first player. While it is waiting the turn is
    the first player's, no move is counted, the grid is empty and there is
    no winner. *)
Theorem seats_of_stored_games (requests : list Api.Request) gameId g :
  let st := Api.serve requests Database.empty in
  Database.games st !! gameId = Some g ->
  Game.id g = gameId /\
  (exists p1, Game.player1_id g = Some p1 /\ registered st p1) /\
  (Game.status g = waiting <-> Game.player2_id g = None) /\
  (forall p2, Game.player2_id g = Some p2 ->
     registered st p2 /\ Game.player1_id g <> Some p2) /\
  (Game.status g = waiting ->
   Game.current_turn_player_id g = Game.player1_id g /\
   Game.move_count g = 0 /\ Game.grid g = createEmptyGrid /\
   Game.winner_id g = None).
Proof.
  intros st Hg.
  destruct (reachable_inv requests) as (_ & _ & Hgames & _).
  destruct (Hgames _ _ Hg) as ((Hid & Hp1 & Hwait & Hp2) & Hturn & Hout & _).
  repeat (split; [done|]). intros Hs.
  unfold turn_ok in Hturn. unfold outcome_ok in Hout. rewrite Hs in Hturn, Hout.
  destruct Hturn as (? & ? & ?), Hout as (? & _). done.
Qed.

Lemma seats_of_stored_games_witness :
  let st := Api.serve scenario_A Database.empty in
  Game.id game_after_join = "g" /\
  (exists p1, Game.player1_id game_after_join = Some p1 /\ registered st p1) /\
  (Game.status game_after_join = waiting <-> Game.player2_id game_after_join = None) /\
  (forall p2, Game.player2_id game_after_join = Some p2 ->
     registered st p2 /\ Game.player1_id game_after_join <> Some p2) /\
  (Game.status game_after_join = waiting ->
   Game.current_turn_player_id game_after_join = Game.player1_id game_after_join /\
   Game.move_count game_after_join = 0 /\
   Game.grid game_after_join = createEmptyGrid /\
   Game.winner_id game_after_join = None).
Proof.
  apply (seats_of_stored_games scenario_A "g" game_after_join). reflexivity.
Defined.

(** X7. In every game in progress of a store the engine reaches the two
    players are different, and the turn is the first player's after an even
    number of moves and the second player's after an odd number. *)
Theorem turn_follows_the_move_count (st : Database.Store) gameId g :
  reachable st ->
  Database.games st !! gameId = Some g ->
  Game.status g = in_progress ->
  exists p1 p2,
    Game.player1_id g = Some p1 /\ Game.player2_id g = Some p2 /\ p1 <> p2 /\
    Game.current_turn_player_id g
      = Some (if Z.even (Game.move_count g) then p1 else p2).
Proof.
  intros Hst Hg Hs.
  destruct (reachable_store_inv st Hst) as (Hok & _ & Hgames & _).
  destruct (Hgames _ _ Hg) as ((_ & (p1 & Hp1 & _) & Hwait & Hp2) & Hturn & _).
  destruct (Hok _ _ Hg) as (_ & Hcount & _).
  pose proof (marked_cells_nonneg (Game.grid g)).
  destruct (Game.player2_id g) as [p2|] eqn:H2.
  - exists p1, p2. destruct (Hp2 p2 eq_refl) as [_ Hne].
    split; [done|]. split; [done|]. split; [congruence|].
    unfold turn_ok in Hturn. rewrite Hs in Hturn. rewrite Hturn.
    unfold seat. rewrite even_to_nat by lia.
    destruct (Z.even _); congruence.
  - destruct Hwait as [_ Hw]. rewrite Hw in Hs; done.
Qed.

(** Scenario A after its third move: the turn is B's. *)
Lemma turn_follows_the_move_count_witness :
  let st := commit "g" 1 0 1
              [ [JNum 1; JNum 1; JNum 0]; [JNum 0; JNum 2; JNum 0];
                [JNum 0; JNum 0; JNum 0] ] in_progress None
              (commit "g" 2 1 1
                 [ [JNum 1; JNum 0; JNum 0]; [JNum 0; JNum 2; JNum 0];
                   [JNum 0; JNum 0; JNum 0] ] in_progress None
                 (commit "g" 1 0 0
                    [ [JNum 1; JNum 0; JNum 0]; [JNum 0; JNum 0; JNum 0];
                      [JNum 0; JNum 0; JNum 0] ] in_progress None
                    scenario_A_joined)) in
  Database.games st !! "g"
    = Some (Game.mk "g" (Some 1) (Some 2) (Some 2) in_progress None
              [ [JNum 1; JNum 1; JNum 0]; [JNum 0; JNum 2; JNum 0];
                [JNum 0; JNum 0; JNum 0] ] 3) /\
  exists p1 p2,
    Some 1 = Some p1 /\ Some 2 = Some p2 /\ p1 <> p2 /\
    Some 2 = Some (if Z.even 3 then p1 else p2).
Proof.
  intros st. split; [reflexivity|].
  apply (turn_follows_the_move_count st "g"
           (Game.mk "g" (Some 1) (Some 2) (Some 2) in_progress None
              [ [JNum 1; JNum 1; JNum 0]; [JNum 0; JNum 2; JNum 0];
                [JNum 0; JNum 0; JNum 0] ] 3));
    [|reflexivity|reflexivity].
  unfold st.
  repeat (eapply reachable_commit;
          [ | vm_compute; reflexivity | reflexivity | reflexivity
            | eexists; vm_compute; reflexivity ]).
  apply scenario_A_joined_reachable.
Defined.

(** X8. The moves table of a store the engine reaches is the history of
    its games. Every recorded move belongs to a stored game. The moves of a
    game are as many as its move count; in insertion order they are
    numbered 1, 2, 3, ..., the first player and the second player
    alternate, and the cell of each move holds the mark of its player: 1
    for the odd move numbers, 2 for the even ones. *)
Theorem moves_are_an_audit_trail (st : Database.Store) :
  reachable st ->
  (forall m, m ∈ Database.moves st -> is_Some (Database.games st !! Move.game_id m)) /\
  (forall gameId g,
     Database.games st !! gameId = Some g ->
     Z.of_nat (length (trail gameId (Database.moves st))) = Game.move_count g /\
     (forall k m,
        trail gameId (Database.moves st) !! k = Some m ->
        Move.move_number m = Z.of_nat k + 1 /\
        Some (Move.player_id m)
          = (if Nat.even k then Game.player1_id g else Game.player2_id g) /\
        cell (Game.grid g) (Move.row m) (Move.col m)
          = Ok (JNum (if Nat.even k then 1 else 2)))).
Proof.
  intros Hst. destruct (reachable_store_inv st Hst) as (_ & _ & Hgames & Hmoves & _).
  split; [done|]. intros gameId g Hg.
  by destruct (Hgames _ _ Hg) as (_ & _ & _ & Htrail).
Qed.

Lemma moves_are_an_audit_trail_witness :
  let st := scenario_A_store in
  length (Database.moves st) = 5%nat /\
  ((forall m, m ∈ Database.moves st -> is_Some (Database.games st !! Move.game_id m)) /\
   (forall gameId g,
      Database.games st !! gameId = Some g ->
      Z.of_nat (length (trail gameId (Database.moves st))) = Game.move_count g /\
      (forall k m,
         trail gameId (Database.moves st) !! k = Some m ->
         Move.move_number m = Z.of_nat k + 1 /\
         Some (Move.player_id m)
           = (if Nat.even k then Game.player1_id g else Game.player2_id g) /\
         cell (Game.grid g) (Move.row m) (Move.col m)
           = Ok (JNum (if Nat.even k then 1 else 2))))).
Proof.
  split; [reflexivity|].
  apply (moves_are_an_audit_trail scenario_A_store scenario_A_store_reachable).
Defined.

(** X9. In a store the engine reaches the two counters of every player say
    what the games table says: [total_wins] is the number of won games whose
    winner is the player, and [total_moves_in_wins] is the sum of the move
    counts of these games. *)
Theorem statistics_count_the_won_games (st : Database.Store) (p : Player.t) :
  reachable st ->
  p ∈ Database.players st ->
  Player.total_wins p
    = games_sum (fun g => if won_by (Player.id p) g then 1 else 0)
        (Database.games st) /\
  Player.total_moves_in_wins p
    = games_sum (fun g => if won_by (Player.id p) g then Game.move_count g else 0)
        (Database.games st).
Proof.
  intros Hst Hp. destruct (reachable_store_inv st Hst) as (_ & _ & _ & _ & Hstats).
  by apply Hstats.
Qed.

Lemma statistics_count_the_won_games_witness :
  let st := scenario_A_store in
  let a := Player.mk 1 "A" 1 5 in
  Player.total_wins a
    = games_sum (fun g => if won_by 1 g then 1 else 0) (Database.games st) /\
  Player.total_moves_in_wins a
    = games_sum (fun g => if won_by 1 g then Game.move_count g else 0)
        (Database.games st).
Proof.
  apply (statistics_count_the_won_games scenario_A_store (Player.mk 1 "A" 1 5));
    [apply scenario_A_store_reachable | left].
Defined.

(** X10. In a store the engine reaches the status of a game tells the
    state of its grid. A won game names one of its two players as winner,
    and the mark of that player completes a line. A drawn game has no
    winner, no complete line of either mark and no free cell. A waiting
    game or a game in progress has no winner, no complete line and a free
    cell. *)
Theorem status_tells_the_outcome (st : Database.Store) gameId g :
  reachable st ->
  Database.games st !! gameId = Some g ->
  match Game.status g with
  | win =>
      exists w, Game.winner_id g = Some w /\
                (Game.player1_id g = Some w \/ Game.player2_id g = Some w) /\
                checkWin (Game.grid g) (Api.playerNumber g w) = Ok true
  | draw =>
      Game.winner_id g = None /\
      checkWin (Game.grid g) 1 = Ok false /\ checkWin (Game.grid g) 2 = Ok false /\
      checkDraw (Game.grid g) = Ok true
  | waiting | in_progress =>
      Game.winner_id g = None /\
      checkWin (Game.grid g) 1 = Ok false /\ checkWin (Game.grid g) 2 = Ok false /\
      checkDraw (Game.grid g) = Ok false
  end.
Proof.
  intros Hst Hg. destruct (reachable_store_inv st Hst) as (_ & _ & Hgames & _).
  destruct (Hgames _ _ Hg) as (_ & _ & Hout & _).
  unfold outcome_ok, no_line in Hout. destruct (Game.status g); tauto.
Qed.

Lemma status_tells_the_outcome_witness :
  exists w, Game.winner_id scenario_A_game = Some w /\
            (Game.player1_id scenario_A_game = Some w \/
             Game.player2_id scenario_A_game = Some w) /\
            checkWin (Game.grid scenario_A_game) (Api.playerNumber scenario_A_game w)
              = Ok true.
Proof.
  apply (status_tells_the_outcome scenario_A_store "g" scenario_A_game);
    [apply scenario_A_store_reachable | reflexivity].
Defined.

(** ** Games only advance *)

Lemma step_advance (st st' : Database.Store) gameId g :
  step st st' ->
  Database.games st !! gameId = Some g ->
  exists g',
    Database.games st' !! gameId = Some g' /\
    Game.player1_id g' = Game.player1_id g /\
    Game.move_count g <= Game.move_count g' /\
    status_rank (Game.status g) <= status_rank (Game.status g') /\
    (status_rank (Game.status g) = 2 -> g' = g).
Proof.
  intros Hstep Hg.
  destruct Hstep as [|name Hname Hfresh|playerId gid Hpid Hreg Hnone
                     |gid playerId g0 Hpid Hreg Hg0 Hs Hp1
                     |gid playerId row col game newGrid newStatus winnerId
                        Hpid Hreg Hg0 Hs Ht Hv Hm He].
  - exists g. repeat split; (done || lia).
  - exists g. repeat split; (done || lia).
  - exists g. cbn. rewrite lookup_insert_ne by congruence.
    repeat split; (done || lia).
  - cbn. destruct (decide (gid = gameId)) as [->|Hne].
    + rewrite lookup_insert_eq. simplify_eq. eexists. split; [done|]. cbn.
      rewrite Hs. cbn. repeat split; (done || lia).
    + rewrite lookup_insert_ne by done. exists g. repeat split; (done || lia).
  - rewrite commit_move_store. cbn.
    destruct (decide (gid = gameId)) as [->|Hne].
    + rewrite lookup_insert_eq. simplify_eq. eexists. split; [done|]. cbn.
      rewrite Hs. cbn.
      destruct (evaluate_inv _ _ _ _ _ He) as [(-> & _)|[(-> & _)|(-> & _)]];
        cbn; repeat split; (done || lia).
    + rewrite lookup_insert_ne by done. exists g. repeat split; (done || lia).
Qed.

Lemma serve_advance (requests : list Api.Request) :
  forall (st : Database.Store) gameId g,
    Database.games st !! gameId = Some g ->
    exists g',
      Database.games (Api.serve requests st) !! gameId = Some g' /\
      Game.player1_id g' = Game.player1_id g /\
      Game.move_count g <= Game.move_count g' /\
      status_rank (Game.status g) <= status_rank (Game.status g') /\
      (status_rank (Game.status g) = 2 -> g' = g).
Proof.
  induction requests as [|r requests IH]; intros st gameId g Hg.
  - exists g. repeat split; (done || lia).
  - destruct (step_advance st _ gameId g (handle_step r st) Hg)
      as (g1 & Hg1 & Hp1 & Hc1 & Hr1 & Ht1).
    destruct (IH _ gameId g1 Hg1) as (g' & Hg' & Hp' & Hc' & Hr' & Ht').
    exists g'. cbn. split; [done|]. split; [congruence|]. split; [lia|].
    split; [lia|]. intros Hterm. rewrite <- (Ht1 Hterm). apply Ht'.
    rewrite (Ht1 Hterm). done.
Qed.

(** X11. Whatever requests the server handles, from any store: a
    stored game stays stored and keeps its first player, its move count
    never decreases, its status never goes back (waiting, then in progress,
    then won or drawn), and a won or drawn game is never changed again. *)
Theorem games_only_advance (requests : list Api.Request) (st : Database.Store)
    gameId g :
  Database.games st !! gameId = Some g ->
  exists g',
    Database.games (Api.serve requests st) !! gameId = Some g' /\
    Game.player1_id g' = Game.player1_id g /\
    Game.move_count g <= Game.move_count g' /\
    status_rank (Game.status g) <= status_rank (Game.status g') /\
    (Game.status g = win \/ Game.status g = draw -> g' = g).
Proof.
  intros Hg.
  destruct (serve_advance requests st gameId g Hg) as (g' & ? & ? & ? & ? & Hterm).
  exists g'. repeat (split; [done|]).
  intros [Hs|Hs]; apply Hterm; by rewrite Hs.
Qed.

Lemma games_only_advance_witness :
  let st := Api.serve (take 4 scenario_A) Database.empty in
  exists g',
    Database.games (Api.serve (drop 4 scenario_A) st) !! "g" = Some g' /\
    Game.player1_id g' = Game.player1_id game_after_join /\
    Game.move_count game_after_join <= Game.move_count g' /\
    status_rank (Game.status game_after_join) <= status_rank (Game.status g') /\
    (Game.status game_after_join = win \/ Game.status game_after_join = draw ->
     g' = game_after_join).
Proof.
  apply (games_only_advance (drop 4 scenario_A)
           (Api.serve (take 4 scenario_A) Database.empty) "g" game_after_join).
  reflexivity.
Defined.

(** ** The answers of the move handler *)

Lemma isMoveValid_total (g : Grid) (row col : Z) :
  grid3x3 g -> exists b, isMoveValid g row col = Ok b.
Proof.
  intros H3.
  destruct (decide (0 <= row <= 2 /\ 0 <= col <= 2)) as [[Hr Hc]|Hout];
    [|rewrite isMoveValid_out_of_range by done; eauto].
  rewrite isMoveValid_in_range by done.
  destruct (grid3x3_lookup g row col H3 Hr Hc) as (r & v & Hg & Hv & _).
  unfold cell_is. rewrite (cell_in_range g row col r v) by (done || lia).
  cbn. eauto.
Qed.

Lemma isMoveValid_free_cell (g : Grid) (row col : Z) :
  0 <= row <= 2 -> 0 <= col <= 2 -> cell g row col = Ok (JNum 0) ->
  isMoveValid g row col = Ok true.
Proof.
  intros Hr Hc Hcell. rewrite isMoveValid_in_range by done.
  unfold cell_is. by rewrite Hcell.
Qed.

Lemma evaluate_total (g : Grid) (mark playerId : Z) :
  grid3x3 g -> exists s w, Api.evaluate g mark playerId = Ok (s, w).
Proof.
  intros H3. grid_cases g H3. unfold Api.evaluate.
  rewrite checkWin_3x3, checkDraw_3x3. cbn [mbind result_bind].
  destruct (_ || _); [eauto|]. cbn [mbind result_bind].
  destruct (forallb _ _); eauto.
Qed.

(** X12. The answers of [POST /games/:gameId/move], on any store. No
    answer comes with a write: the store is the one the handler was given,
    and the status is 400, 403, 404, 409 or 500, never 200. A request
    without a player id is answered 400, one of an unknown player or for an
    unknown game 404, one for a game that is not in progress or of a player
    whose turn it is not 403. The player whose turn it is, in a game in
    progress whose grid has three rows of three cells, is answered 500
    whatever the cell: the second [JSON.parse] throws. *)
Theorem postMove_answers (st : Database.Store) gameId playerId row col :
  let answer := Api.postMove gameId playerId row col st in
  answer.2 = st /\
  Api.status answer.1 ∈ [400; 403; 404; 409; 500] /\
  (playerId = 0 ->
   answer.1 = Api.fail 400 "playerId is required and must be a number") /\
  (playerId <> 0 -> Database.getPlayerById playerId st = None ->
   answer.1 = Api.fail 404 "Player not found") /\
  (registered st playerId -> Database.games st !! gameId = None ->
   answer.1 = Api.fail 404 "Game not found") /\
  (forall game,
     registered st playerId -> Database.games st !! gameId = Some game ->
     (Game.status game <> in_progress ->
      answer.1 = Api.fail 403 "Game is not in progress") /\
     (Game.status game = in_progress ->
      Game.current_turn_player_id game <> Some playerId ->
      answer.1 = Api.fail 403 "Not your turn") /\
     (Game.status game = in_progress ->
      Game.current_turn_player_id game = Some playerId ->
      grid3x3 (Game.grid game) ->
      answer.1 = Api.fail 500 "Internal server error")).
Proof.
  intros answer. subst answer. split; [apply postMove_store|].
  split.
  { unfold Api.postMove, Database.getGameById.
    case_bool_decide as Hpid; [set_solver|].
    destruct (Database.getPlayerById playerId st) as [p|] eqn:Hp; [|set_solver].
    destruct (Database.games st !! gameId) as [game|] eqn:Hg; [|set_solver]. cbn.
    case_bool_decide as Hs; [|set_solver]. cbn.
    case_bool_decide as Ht; [|set_solver]. cbn.
    destruct (JSON_parse_cases (Game.grid game)) as [[n ->] | ->]; [|set_solver].
    unfold Api.as_grid.
    destruct (isMoveValid_no_rows row col) as [-> | ->]; set_solver. }
  unfold registered, Api.postMove, Database.getGameById.
  split; [by intros ->|].
  split; [intros Hpid Hp; by rewrite bool_decide_eq_false_2, Hp|].
  split; [intros [Hpid [p Hp]] Hg; by rewrite bool_decide_eq_false_2, Hp, Hg|].
  intros game [Hpid [p Hp]] Hg.
  rewrite bool_decide_eq_false_2, Hp, Hg by done. cbn.
  split; [intros Hs; by rewrite (bool_decide_eq_false_2 _ Hs)|].
  split.
  - intros Hs Ht.
    by rewrite (bool_decide_eq_true_2 _ Hs), (bool_decide_eq_false_2 _ Ht).
  - intros Hs Ht H3.
    rewrite (bool_decide_eq_true_2 _ Hs), (bool_decide_eq_true_2 _ Ht). cbn.
    by rewrite (JSON_parse_3x3 _ H3).
Qed.

(** The first move of scenario A, sent when B has joined. *)
Lemma postMove_answers_witness :
  Api.postMove "g" 1 0 0 scenario_A_joined
  = (Api.fail 500 "Internal server error", scenario_A_joined).
Proof.
  destruct (postMove_answers scenario_A_joined "g" 1 0 0)
    as (Hstore & _ & _ & _ & _ & Hgame).
  destruct (Hgame game_after_join) as (_ & _ & H500);
    [split; [discriminate | by eexists] | reflexivity |].
  rewrite <- Hstore at 2. rewrite <- H500; [by destruct (Api.postMove _ _ _ _ _)| | |];
    [reflexivity | reflexivity | split; [reflexivity | repeat constructor]].
Defined.

(** The writes of a request: none, a new player, a new game, or a join. *)
Lemma handle_cases (r : Api.Request) (st : Database.Store) :
  (Api.handle r st).2 = st \/
  (exists name,
     (Api.handle r st).2 =
       Database.mkStore
         (Database.players st ++ [Player.mk (Database.players_seq st + 1) name 0 0])
         (Database.players_seq st + 1) (Database.games st) (Database.moves st)) \/
  (exists playerId gameId,
     (Api.handle r st).2 =
       Database.mkStore (Database.players st) (Database.players_seq st)
         (<[gameId := Game.mk gameId (Some playerId) None (Some playerId) waiting
                        None createEmptyGrid 0]> (Database.games st))
         (Database.moves st)) \/
  (exists gameId playerId g,
     Database.games st !! gameId = Some g /\ Game.status g = waiting /\
     (Api.handle r st).2 =
       Database.mkStore (Database.players st) (Database.players_seq st)
         (<[gameId := Game.mk gameId (Game.player1_id g) (Some playerId)
                        (Game.current_turn_player_id g) in_progress
                        (Game.winner_id g) (Game.grid g) (Game.move_count g)]>
            (Database.games st))
         (Database.moves st)).
Proof.
  destruct r as [name|playerId gameId|gameId playerId|gameId playerId row col];
    cbn [Api.handle].
  - unfold Api.postPlayers, Database.createPlayer.
    case_bool_decide as Hname; [by left|].
    destruct (existsb _ _); [by left|]. right. left. by exists name.
  - unfold Api.postGames, Database.createGame.
    case_bool_decide as Hpid; [by left|].
    destruct (Database.getPlayerById playerId st) as [p|]; [|by left].
    destruct (Database.games st !! gameId); [by left|].
    right. right. left. by exists playerId, gameId.
  - unfold Api.postJoin, Database.getGameById.
    case_bool_decide as Hpid; [by left|].
    destruct (Database.getPlayerById playerId st) as [p|]; [|by left].
    destruct (Database.games st !! gameId) as [g|] eqn:Hg; [|by left]. cbn.
    destruct (decide (Game.status g = waiting)) as [Hs|Hs].
    + destruct (decide (Game.player1_id g = Some playerId)) as [Hp1|Hp1].
      * rewrite (joinGame_own_game st gameId playerId g Hg Hs Hp1). by left.
      * rewrite (joinGame_joined st gameId playerId g Hg Hs Hp1).
        right. right. right. by exists gameId, playerId, g.
    + rewrite (joinGame_not_waiting st gameId playerId g Hg Hs). by left.
  - left. apply postMove_store.
Qed.

Lemma handle_unplayed (r : Api.Request) (st : Database.Store) :
  unplayed st -> unplayed (Api.handle r st).2.
Proof.
  intros (Hmoves & Hgames & Hplayers).
  destruct (handle_cases r st)
    as [-> | [(name & ->) | [(playerId & gameId & ->) | (gameId & playerId & g & Hg & Hs & ->)]]];
    [done|..]; (split; [done|]); cbn.
  - split; [done|].
    intros p [Hp | ->%list_elem_of_singleton]%elem_of_app; [by apply Hplayers | done].
  - split; [|done]. intros other g.
    destruct (decide (gameId = other)) as [->|Hne].
    + rewrite lookup_insert_eq. intros [= <-]. cbn. auto.
    + rewrite lookup_insert_ne by done. apply Hgames.
  - split; [|done]. intros other g'.
    destruct (decide (gameId = other)) as [->|Hne].
    + rewrite lookup_insert_eq. intros [= <-]. cbn.
      destruct (Hgames _ _ Hg) as (? & ? & ? & _). auto.
    + rewrite lookup_insert_ne by done. apply Hgames.
Qed.

Lemma serve_unplayed (requests : list Api.Request) (st : Database.Store) :
  unplayed st -> unplayed (Api.serve requests st).
Proof.
  revert st. induction requests as [|r requests IH]; intros st Hst; [done|].
  cbn. apply IH. by apply handle_unplayed.
Qed.

Lemma unplayed_empty : unplayed Database.empty.
Proof.
  split; [done|]. split.
  - intros gameId g Hg. cbn in Hg. by rewrite lookup_empty in Hg.
  - intros p Hp. by apply elem_of_nil in Hp.
Qed.

(** X13. The router never records a move. Whatever requests it is sent,
    from the empty store: the moves table stays empty, every game has the
    empty grid, the move count 0, no winner and the status [waiting] or
    [in_progress], every player has the counters 0, and the leaderboard of
    either ordering is empty for every lawful engine. *)
Theorem router_never_records_a_move `{E : SqlEngine} (requests : list Api.Request)
    (by_ : Database.By) :
  lawful E ->
  let st := Api.serve requests Database.empty in
  Database.moves st = [] /\
  (forall gameId g,
     Database.games st !! gameId = Some g ->
     Game.move_count g = 0 /\ Game.grid g = createEmptyGrid /\
     Game.winner_id g = None /\
     (Game.status g = waiting \/ Game.status g = in_progress)) /\
  (forall p, p ∈ Database.players st ->
     Player.total_wins p = 0 /\ Player.total_moves_in_wins p = 0) /\
  Database.getLeaderboard by_ st = [].
Proof.
  intros HE st.
  destruct (serve_unplayed requests _ unplayed_empty) as (Hmoves & Hgames & Hplayers).
  fold st in Hmoves, Hgames, Hplayers.
  split; [done|]. split; [done|]. split; [done|].
  unfold Database.getLeaderboard.
  assert (filter (fun p => 0 < Player.total_wins p) (Database.players st) = []) as ->.
  { apply elem_of_nil_inv. intros p [Hwins Hp]%list_elem_of_filter.
    destruct (Hplayers p Hp). lia. }
  rewrite order_by_nil by done. cbn. by rewrite order_by_nil.
Qed.

(** Scenario A, sent to the router. *)
Lemma router_never_records_a_move_witness :
  let st := Api.serve scenario_A Database.empty in
  Database.moves st = [] /\
  (forall gameId g,
     Database.games st !! gameId = Some g ->
     Game.move_count g = 0 /\ Game.grid g = createEmptyGrid /\
     Game.winner_id g = None /\
     (Game.status g = waiting \/ Game.status g = in_progress)) /\
  (forall p, p ∈ Database.players st ->
     Player.total_wins p = 0 /\ Player.total_moves_in_wins p = 0) /\
  Database.getLeaderboard (H := scan_order_engine) Database.wins st = [].
Proof.
  apply (router_never_records_a_move (E := scan_order_engine) scenario_A Database.wins).
  apply scan_order_engine_lawful.
Defined.

(** X23. What [Database.makeMove] commits for a winning move: called for the
    player whose turn it is, on a free cell of a game in progress, with the
    status [win] and the player as winner, it succeeds, and the one store
    that results has the game with the new grid, the status [win], the
    player as winner and the move counter one higher, and has the player
    with one more win and with the new move counter added to the moves of
    the wins; the other players and the other games are as they were. *)
Theorem makeMove_commits_a_win st gameId game playerId player row col newGrid :
  playerId <> 0 ->
  Database.getPlayerById playerId st = Some player ->
  Database.games st !! gameId = Some game ->
  Game.status game = in_progress ->
  Game.current_turn_player_id game = Some playerId ->
  cell (Game.grid game) row col = Ok (JNum 0) ->
  exists st' game' player',
    Database.makeMove gameId playerId row col newGrid win (Some playerId) st
      = (Ok (game', Game.move_count game + 1), st') /\
    Database.games st' !! gameId = Some game' /\
    Game.status game' = win /\
    Game.winner_id game' = Some playerId /\
    Game.current_turn_player_id game' = Some playerId /\
    Game.grid game' = newGrid /\
    Game.move_count game' = Game.move_count game + 1 /\
    Database.getPlayerById playerId st' = Some player' /\
    Player.total_wins player' = Player.total_wins player + 1 /\
    Player.total_moves_in_wins player' =
      Player.total_moves_in_wins player + Game.move_count game' /\
    (forall q, q <> playerId ->
       Database.getPlayerById q st' = Database.getPlayerById q st) /\
    (forall other, other <> gameId ->
       Database.games st' !! other = Database.games st !! other) /\
    Database.moves st'
      = Database.moves st
        ++ [Move.mk gameId playerId row col (Game.move_count game + 1)].
Proof.
  intros Hpid Hp Hg Hs Ht Hcell.
  eexists _, _, _. split.
  { rewrite (makeMove_commits st gameId playerId row col newGrid win (Some playerId)
               game Hg Hs Ht Hcell).
    reflexivity. }
  unfold Database.commit_move. cbn.
  rewrite (bool_decide_eq_false_2 _ Hpid).
  unfold Database.getPlayerById in *. cbn.
  split; [apply lookup_insert_eq|].
  cbn. do 2 (split; [done|]). split; [by rewrite bool_decide_eq_false_2|].
  do 2 (split; [done|]).
  rewrite find_record_win, decide_True, Hp by done. cbn.
  split; [reflexivity|]. do 2 (split; [reflexivity|]). split; [|split; [|done]].
  - intros q Hq. by rewrite find_record_win, decide_False.
  - intros other Ho. by rewrite lookup_insert_ne.
Qed.

(** The fifth move of scenario A. *)
Lemma makeMove_commits_a_win_witness :
  let st := scenario_A_before_last in
  exists st' game' player',
    Database.makeMove "g" 1 0 2 scenario_A_grid win (Some 1) st
      = (Ok (game', 4 + 1), st') /\
    Database.games st' !! "g" = Some game' /\
    Game.status game' = win /\
    Game.winner_id game' = Some 1 /\
    Game.current_turn_player_id game' = Some 1 /\
    Game.grid game' = scenario_A_grid /\
    Game.move_count game' = 4 + 1 /\
    Database.getPlayerById 1 st' = Some player' /\
    Player.total_wins player' = 0 + 1 /\
    Player.total_moves_in_wins player' = 0 + Game.move_count game' /\
    (forall q, q <> 1 ->
       Database.getPlayerById q st' = Database.getPlayerById q st) /\
    (forall other, other <> "g" ->
       Database.games st' !! other = Database.games st !! other) /\
    Database.moves st' = Database.moves st ++ [Move.mk "g" 1 0 2 (4 + 1)].
Proof.
  apply (makeMove_commits_a_win scenario_A_before_last "g" game_before_last 1
           (Player.mk 1 "A" 0 0) 0 2 scenario_A_grid);
    (reflexivity || discriminate).
Defined.

(** X24. The answers of [GET /games/:gameId]: 404 for a game that is not
    stored, and 500 for every stored game whose grid has three rows of
    three cells, since [JSON.parse] is called on the grid that
    [getGameById] has parsed; so for every game of a store the engine
    reaches. *)
Theorem getGame_answers (st : Database.Store) gameId :
  (Database.games st !! gameId = None ->
   Api.getGame gameId st = Api.fail 404 "Game not found") /\
  (forall g,
     Database.games st !! gameId = Some g -> grid3x3 (Game.grid g) ->
     Api.getGame gameId st = Api.fail 500 "Internal server error") /\
  (reachable st -> is_Some (Database.games st !! gameId) ->
   Api.getGame gameId st = Api.fail 500 "Internal server error").
Proof.
  unfold Api.getGame, Database.getGameById.
  split; [by intros ->|].
  assert (forall g, Database.games st !! gameId = Some g -> grid3x3 (Game.grid g) ->
            match g ← Database.games st !! gameId;
                  Some (Database.mkGameWithPlayers g
                          (Database.player_info (Game.player1_id g) st)
                          (Database.player_info (Game.player2_id g) st))
            with
            | Some gp =>
                match Api.JSON_parse (Game.grid (Database.game gp)) with
                | Ok grid =>
                    Api.respond 200
                      (Api.GameBody (Game.id (Database.game gp))
                         (Game.status (Database.game gp))
                         (Game.player1_id (Database.game gp))
                         (Game.player2_id (Database.game gp))
                         (Game.current_turn_player_id (Database.game gp))
                         (Game.winner_id (Database.game gp)) grid)
                | Throw _ => Api.fail 500 "Internal server error"
                end
            | None => Api.fail 404 "Game not found"
            end = Api.fail 500 "Internal server error") as H500.
  { intros g Hg H3. rewrite Hg. cbn. by rewrite (JSON_parse_3x3 _ H3). }
  split; [exact H500|].
  intros Hst [g Hg]. apply (H500 g Hg).
  by destruct (reachable_store_ok st Hst _ _ Hg).
Qed.

Lemma getGame_answers_witness :
  Api.getGame "g" scenario_A_joined = Api.fail 500 "Internal server error" /\
  Api.getGame "g" scenario_A_store = Api.fail 500 "Internal server error".
Proof.
  split.
  - destruct (getGame_answers scenario_A_joined "g") as (_ & _ & H500).
    apply H500; [apply scenario_A_joined_reachable | by eexists].
  - destruct (getGame_answers scenario_A_store "g") as (_ & _ & H500).
    apply H500; [apply scenario_A_store_reachable | by eexists].
Defined.

(** ** The answers of the join handler *)

Lemma postJoin_table (st : Database.Store) gameId playerId :
  (playerId = 0 /\
   Api.postJoin gameId playerId st
     = (Api.fail 400 "playerId is required and must be a number", st)) \/
  (playerId <> 0 /\ Database.getPlayerById playerId st = None /\
   Api.postJoin gameId playerId st = (Api.fail 404 "Player not found", st)) \/
  (registered st playerId /\ Database.games st !! gameId = None /\
   Api.postJoin gameId playerId st = (Api.fail 404 "Game not found", st)) \/
  (exists g,
     registered st playerId /\ Database.games st !! gameId = Some g /\
     ((Game.status g <> waiting /\
       Api.postJoin gameId playerId st
         = (Api.fail 409 "Game is not in waiting state", st)) \/
      (Game.status g = waiting /\ Game.player1_id g = Some playerId /\
       Api.postJoin gameId playerId st
         = (Api.fail 409 "Cannot join your own game", st)) \/
      (Game.status g = waiting /\ Game.player1_id g <> Some playerId /\
       Api.postJoin gameId playerId st =
         (Api.respond 200
            (Api.JoinedBody "Player 2 joined. Game is now in progress." gameId
               in_progress (Game.current_turn_player_id g)),
          Database.mkStore (Database.players st) (Database.players_seq st)
            (<[gameId := Game.mk gameId (Game.player1_id g) (Some playerId)
                            (Game.current_turn_player_id g) in_progress
                            (Game.winner_id g) (Game.grid g) (Game.move_count g)]>
               (Database.games st))
            (Database.moves st))))).
Proof.
  unfold registered, Api.postJoin, Database.getGameById.
  case_bool_decide as Hpid; [by left|]. right.
  destruct (Database.getPlayerById playerId st) as [p|] eqn:Hp; [|by left]. right.
  destruct (Database.games st !! gameId) as [g|] eqn:Hg; [|by left; eauto]. right.
  exists g. split; [eauto|]. split; [done|]. cbn.
  destruct (decide (Game.status g = waiting)) as [Hs|Hs].
  - destruct (decide (Game.player1_id g = Some playerId)) as [Hp1|Hp1].
    + rewrite (joinGame_own_game st gameId playerId g Hg Hs Hp1). right. by left.
    + rewrite (joinGame_joined st gameId playerId g Hg Hs Hp1). right. by right.
  - rewrite (joinGame_not_waiting st gameId playerId g Hg Hs). by left.
Qed.

(** X14. The answers of [POST /games/:gameId/join], on any store. The
    status is 200, 400, 404 or 409. It is 200 exactly when the player is
    registered and the game is waiting with another player as first player.
    Every other answer leaves the store unchanged. A 200 seats the player as
    second player and sets the status to [in_progress]; the first player,
    the turn, the grid, the move count, the other games, the players and the
    moves are as before. *)
Theorem postJoin_answers (st : Database.Store) gameId playerId :
  let answer := Api.postJoin gameId playerId st in
  Api.status answer.1 ∈ [200; 400; 404; 409] /\
  (Api.status answer.1 = 200 <->
   registered st playerId /\
   exists g, Database.games st !! gameId = Some g /\
             Game.status g = waiting /\ Game.player1_id g <> Some playerId) /\
  (Api.status answer.1 <> 200 -> answer.2 = st) /\
  (Api.status answer.1 = 200 ->
   exists g g',
     Database.games st !! gameId = Some g /\
     Database.games answer.2 = <[gameId := g']> (Database.games st) /\
     Database.players answer.2 = Database.players st /\
     Database.moves answer.2 = Database.moves st /\
     Game.player2_id g' = Some playerId /\ Game.status g' = in_progress /\
     Game.player1_id g' = Game.player1_id g /\
     Game.current_turn_player_id g' = Game.current_turn_player_id g /\
     Game.grid g' = Game.grid g /\ Game.move_count g' = Game.move_count g /\
     Game.winner_id g' = Game.winner_id g).
Proof.
  intros answer. subst answer.
  destruct (postJoin_table st gameId playerId)
    as [(Hpid & ->)|[(Hpid & Hp & ->)|[(Hreg & Hg & ->)
        |(g & Hreg & Hg & [(Hs & ->)|[(Hs & Hp1 & ->)|(Hs & Hp1 & ->)]])]]]; cbn.
  - split; [set_solver|]. split; [|done]. split; [done|]. by intros [[? _] _].
  - split; [set_solver|]. split; [|done]. split; [done|].
    intros [[_ [? ?]] _]. congruence.
  - split; [set_solver|]. split; [|done]. split; [done|].
    intros (_ & ? & ? & _). congruence.
  - split; [set_solver|]. split; [|done]. split; [done|].
    intros (_ & ? & ? & ? & _). congruence.
  - split; [set_solver|]. split; [|done]. split; [done|].
    intros (_ & ? & ? & _ & ?). congruence.
  - split; [set_solver|].
    split; [split; [intros _; split; [done|]; by exists g | done]|].
    split; [done|].
    intros _. eexists g, _. split; [done|]. split; [done|]. cbn. done.
Qed.

Lemma postJoin_answers_witness :
  let st := Api.serve (take 3 scenario_A) Database.empty in
  let answer := Api.postJoin "g" 2 st in
  Api.status answer.1 ∈ [200; 400; 404; 409] /\
  (Api.status answer.1 = 200 <->
   registered st 2 /\
   exists g, Database.games st !! "g" = Some g /\
             Game.status g = waiting /\ Game.player1_id g <> Some 2) /\
  (Api.status answer.1 <> 200 -> answer.2 = st) /\
  (Api.status answer.1 = 200 ->
   exists g g',
     Database.games st !! "g" = Some g /\
     Database.games answer.2 = <["g" := g']> (Database.games st) /\
     Database.players answer.2 = Database.players st /\
     Database.moves answer.2 = Database.moves st /\
     Game.player2_id g' = Some 2 /\ Game.status g' = in_progress /\
     Game.player1_id g' = Game.player1_id g /\
     Game.current_turn_player_id g' = Game.current_turn_player_id g /\
     Game.grid g' = Game.grid g /\ Game.move_count g' = Game.move_count g /\
     Game.winner_id g' = Game.winner_id g).
Proof.
  apply (postJoin_answers (Api.serve (take 3 scenario_A) Database.empty) "g" 2).
Defined.

(** X15. A game is joined once. After a join that is answered 200,
    and whatever requests follow, every join of that game by a registered
    player is answered 409, Game is not in waiting state, and changes
    nothing. *)
Theorem joined_game_refuses_joins (st : Database.Store) gameId playerId
    (requests : list Api.Request) playerId' :
  Api.status (Api.postJoin gameId playerId st).1 = 200 ->
  let st' := Api.serve requests (Api.postJoin gameId playerId st).2 in
  registered st' playerId' ->
  Api.postJoin gameId playerId' st'
    = (Api.fail 409 "Game is not in waiting state", st').
Proof.
  intros H200 st' Hreg.
  assert (exists g, Database.games (Api.postJoin gameId playerId st).2 !! gameId
                      = Some g /\ Game.status g = in_progress) as (g & Hg & Hs).
  { destruct (postJoin_table st gameId playerId)
      as [(Hpid & Heq)|[(Hpid & Hp & Heq)|[(Hr & Hg & Heq)
          |(g & Hr & Hg & [(Hs & Heq)|[(Hs & Hp1 & Heq)|(Hs & Hp1 & Heq)]])]]];
      rewrite Heq in H200 |- *; try discriminate.
    eexists. cbn. by rewrite lookup_insert_eq. }
  destruct (serve_advance requests _ gameId g Hg) as (g' & Hg' & _ & _ & Hrank & _).
  fold st' in Hg'. rewrite Hs in Hrank.
  destruct (postJoin_table st' gameId playerId')
    as [(Hpid & Heq)|[(Hpid & Hp & Heq)|[(Hr & Hnone & Heq)
        |(g2 & Hr & Hg2 & [(Hs2 & Heq)|[(Hs2 & Hp1 & Heq)|(Hs2 & Hp1 & Heq)]])]]].
  - by destruct Hreg.
  - destruct Hreg as [_ [? ?]]. congruence.
  - congruence.
  - done.
  - assert (g2 = g') as -> by congruence. rewrite Hs2 in Hrank. cbn in Hrank. lia.
  - assert (g2 = g') as -> by congruence. rewrite Hs2 in Hrank. cbn in Hrank. lia.
Qed.

Lemma joined_game_refuses_joins_witness :
  let st := Api.serve (take 3 scenario_A) Database.empty in
  let st' := Api.serve (drop 4 scenario_A) (Api.postJoin "g" 2 st).2 in
  Api.postJoin "g" 2 st' = (Api.fail 409 "Game is not in waiting state", st').
Proof.
  apply (joined_game_refuses_joins
           (Api.serve (take 3 scenario_A) Database.empty) "g" 2 (drop 4 scenario_A) 2).
  - reflexivity.
  - split; [discriminate | eexists; reflexivity].
Defined.

(** ** The order of the leaderboard *)

Lemma row_number_ranks {A} (l : list A) :
  (Database.row_number l).*1 = (fun i => Z.of_nat i + 1) <$> seq 0 (length l).
Proof.
  apply list_eq. intros k. unfold Database.row_number.
  rewrite !list_lookup_fmap, list_lookup_imap.
  destruct (l !! k) as [x|] eqn:Hk; cbn.
  - rewrite lookup_seq_lt by (by eapply lookup_lt_Some). done.
  - rewrite lookup_seq_ge by (by apply lookup_ge_None). done.
Qed.

Lemma row_number_NoDup {A} (l : list A) : NoDup (Database.row_number l).*1.
Proof.
  rewrite row_number_ranks. apply NoDup_fmap_2; [|apply NoDup_seq].
  intros i j ?. lia.
Qed.

(** The rows the final ORDER BY returns: the numbered winners, in key
    order. *)
Lemma leaderboard_rows `{E : SqlEngine} (by_ : Database.By) (st : Database.Store) :
  lawful E ->
  let winners := filter (fun p => 0 < Player.total_wins p) (Database.players st) in
  exists W ordered,
    W ≡ₚ winners /\
    ordered ≡ₚ Database.row_number W /\
    StronglySorted
      (fun r r' : Z * Player.t =>
         key_le (Database.direction by_) (Database.sort_key by_ r.2)
           (Database.sort_key by_ r'.2)) ordered /\
    Database.getLeaderboard by_ st = Database.entry by_ <$> take 3 ordered.
Proof.
  intros HE winners.
  destruct (HE _ (Database.sort_key by_) (Database.direction by_) winners)
    as [Hperm _].
  destruct (HE _ (fun r : Z * Player.t => Database.sort_key by_ r.2)
              (Database.direction by_)
              (Database.row_number
                 (order_by (Database.sort_key by_) (Database.direction by_) winners)))
    as [Hperm2 Hsorted2].
  eexists _, _. split; [exact Hperm|]. split; [exact Hperm2|]. split; [|done].
  apply Sorted_StronglySorted; [|done].
  intros a b c. apply key_le_trans.
Qed.

(** X19. For either ordering and any lawful engine the leaderboard has
    as many entries as there are players with wins, up to 3; no two entries
    carry the same rank, and every rank lies between 1 and the number of
    players with wins. *)
Theorem leaderboard_ranks `{E : SqlEngine} (by_ : Database.By) (st : Database.Store) :
  lawful E ->
  let winners := filter (fun p => 0 < Player.total_wins p) (Database.players st) in
  let board := Database.getLeaderboard by_ st in
  length board = (3 `min` length winners)%nat /\
  NoDup (LeaderboardEntry.rank <$> board) /\
  (forall e, e ∈ board -> 1 <= LeaderboardEntry.rank e <= Z.of_nat (length winners)).
Proof.
  intros HE winners board.
  destruct (leaderboard_rows by_ st HE) as (W & ordered & HW & Hord & _ & Hboard).
  fold winners in HW. subst board. rewrite Hboard. clear Hboard.
  assert (length ordered = length winners) as Hlen.
  { rewrite Hord. unfold Database.row_number. by rewrite length_imap, HW. }
  split; [by rewrite length_fmap, length_take, Hlen|]. split.
  - rewrite <- list_fmap_compose.
    change (LeaderboardEntry.rank ∘ Database.entry by_) with (@fst Z Player.t).
    rewrite fmap_take. eapply sublist_NoDup; [|apply sublist_take].
    rewrite Hord. apply row_number_NoDup.
  - intros e (r & -> & Hr)%list_elem_of_fmap. cbn.
    apply subseteq_take in Hr. rewrite Hord in Hr.
    apply list_elem_of_lookup_1 in Hr as [k Hk].
    apply row_number_lookup in Hk as [-> Hk].
    apply lookup_lt_Some in Hk. rewrite HW in Hk. lia.
Qed.

Lemma leaderboard_ranks_witness :
  let winners :=
    filter (fun p => 0 < Player.total_wins p) (Database.players two_winners) in
  let board := Database.getLeaderboard (H := scan_order_engine) Database.wins two_winners in
  length board = (3 `min` length winners)%nat /\
  NoDup (LeaderboardEntry.rank <$> board) /\
  (forall e, e ∈ board -> 1 <= LeaderboardEntry.rank e <= Z.of_nat (length winners)).
Proof.
  apply (leaderboard_ranks (E := scan_order_engine) Database.wins two_winners).
  apply scan_order_engine_lawful.
Defined.

(** X20. For any lawful engine the leaderboard by wins lists its values,
    the numbers of wins, from the highest down, and no player with wins who
    is left out has more wins than an entry of the leaderboard. *)
Theorem leaderboard_wins_in_order `{E : SqlEngine} (st : Database.Store) :
  lawful E ->
  let board := Database.getLeaderboard Database.wins st in
  Sorted (fun a b => (LeaderboardEntry.value b <= LeaderboardEntry.value a)%Q) board /\
  (forall e q,
     e ∈ board -> q ∈ Database.players st -> 0 < Player.total_wins q ->
     Player.id q ∉ LeaderboardEntry.playerId <$> board ->
     (inject_Z (Player.total_wins q) <= LeaderboardEntry.value e)%Q).
Proof.
  intros HE board.
  destruct (leaderboard_rows Database.wins st HE)
    as (W & ordered & HW & Hord & Hsorted & Hboard).
  subst board. rewrite Hboard. clear Hboard. split.
  - apply StronglySorted_Sorted.
    eapply (StronglySorted_fmap (Database.entry Database.wins));
      [|rewrite <- (take_drop 3 ordered) in Hsorted;
        by apply StronglySorted_app_1_l in Hsorted].
    intros r r' Hrr'. exact Hrr'.
  - intros e q (r & -> & Hr)%list_elem_of_fmap Hq Hwins Hhidden. cbn.
    assert (q ∈ W) as [k Hk]%list_elem_of_lookup_1.
    { rewrite HW. by apply list_elem_of_filter. }
    assert ((Z.of_nat k + 1, q) ∈ ordered) as Hin.
    { rewrite Hord. eapply list_elem_of_lookup_2.
      by apply (row_number_lookup W k (Z.of_nat k + 1, q)). }
    rewrite <- (take_drop 3 ordered) in Hin, Hsorted.
    apply elem_of_app in Hin as [Hin|Hin].
    + destruct Hhidden. rewrite <- list_fmap_compose.
      apply list_elem_of_fmap. by exists (Z.of_nat k + 1, q).
    + exact (StronglySorted_app_1_elem_of _ _ _ _ _ Hsorted Hr Hin).
Qed.

Lemma leaderboard_wins_in_order_witness :
  let board := Database.getLeaderboard (H := scan_order_engine) Database.wins
                 four_winners in
  board = [ LeaderboardEntry.mk 1 2 "B" 3; LeaderboardEntry.mk 2 3 "C" 2;
            LeaderboardEntry.mk 3 1 "A" 1 ] /\
  Sorted (fun a b => (LeaderboardEntry.value b <= LeaderboardEntry.value a)%Q) board /\
  (forall e q,
     e ∈ board -> q ∈ Database.players four_winners -> 0 < Player.total_wins q ->
     Player.id q ∉ LeaderboardEntry.playerId <$> board ->
     (inject_Z (Player.total_wins q) <= LeaderboardEntry.value e)%Q).
Proof.
  split; [reflexivity|].
  apply (leaderboard_wins_in_order (E := scan_order_engine) four_winners).
  apply scan_order_engine_lawful.
Defined.

(** ** Registration and the opening of a game *)

Lemma find_snoc {A} (f : A -> bool) (l : list A) (x : A) :
  find f (l ++ [x]) =
  match find f l with Some y => Some y | None => if f x then Some x else None end.
Proof.
  induction l as [|y l IH]; cbn; [done|]. by destruct (f y).
Qed.

Lemma existsb_find {A} (f : A -> bool) (l : list A) :
  existsb f l = true <-> is_Some (find f l).
Proof.
  induction l as [|y l IH]; cbn.
  - split; [done | by intros [? ?]].
  - destruct (f y); cbn; [|done]. split; eauto.
Qed.

Lemma getPlayerById_fresh (st : Database.Store) (id : Z) :
  players_ok st -> Database.players_seq st < id -> Database.getPlayerById id st = None.
Proof.
  intros (_ & Hids & _) Hid.
  destruct (Database.getPlayerById id st) as [q|] eqn:Hq; [|done].
  apply getPlayerById_Some in Hq as [Hin <-]. apply Hids in Hin. lia.
Qed.

(** X16. [POST /players], on a store whose ids are the numbers given
    so far. An empty name is answered 400. A name that is already in the
    table is answered 500 with the store unchanged: the message that
    [createPlayer] throws is not the one the handler answers 409 for. A new
    name is answered 201 with the next id; then [getPlayerById] and
    [getPlayerByName] find the new row, with both counters 0, every other id
    and name is looked up as before, and the games and the moves are
    unchanged. *)
Theorem postPlayers_round_trip (st : Database.Store) (name : string) :
  players_ok st ->
  let answer := Api.postPlayers name st in
  (name = "" ->
   answer = (Api.fail 400 "Name is required and must be a non-empty string", st)) /\
  (name <> "" -> is_Some (Database.getPlayerByName name st) ->
   answer = (Api.fail 500 "Internal server error", st)) /\
  (name <> "" -> Database.getPlayerByName name st = None ->
   let p := Player.mk (Database.players_seq st + 1) name 0 0 in
   answer.1 = Api.respond 201 (Api.PlayerBody (Player.id p) name) /\
   Database.getPlayerById (Player.id p) answer.2 = Some p /\
   Database.getPlayerByName name answer.2 = Some p /\
   (forall id, id <> Player.id p ->
      Database.getPlayerById id answer.2 = Database.getPlayerById id st) /\
   (forall other, other <> name ->
      Database.getPlayerByName other answer.2 = Database.getPlayerByName other st) /\
   Database.players_seq answer.2 = Player.id p /\
   Database.games answer.2 = Database.games st /\
   Database.moves answer.2 = Database.moves st /\
   players_ok answer.2).
Proof.
  intros Hplayers answer. subst answer.
  unfold Api.postPlayers, Database.createPlayer.
  split; [|split].
  - intros ->. done.
  - intros Hname Hfound. rewrite bool_decide_eq_false_2 by done.
    apply existsb_find in Hfound. unfold Database.getPlayerByName in Hfound.
    by rewrite Hfound.
  - intros Hname Hnone. rewrite bool_decide_eq_false_2 by done.
    assert (existsb (fun p => bool_decide (Player.name p = name))
              (Database.players st) = false) as ->.
    { apply not_true_iff_false. rewrite existsb_find.
      unfold Database.getPlayerByName in Hnone. rewrite Hnone. by intros [? ?]. }
    cbn [fst snd]. split; [done|].
    unfold Database.getPlayerById, Database.getPlayerByName in *.
    cbn [Database.players Database.players_seq Database.games Database.moves
         Player.id Player.name].
    rewrite !find_snoc.
    pose proof (getPlayerById_fresh st (Database.players_seq st + 1) Hplayers
                  ltac:(lia)) as Hfresh.
    unfold Database.getPlayerById in Hfresh.
    split; [by rewrite Hfresh; cbn; rewrite bool_decide_eq_true_2|].
    split; [by rewrite Hnone; cbn; rewrite bool_decide_eq_true_2|].
    split.
    { intros id Hid. rewrite find_snoc.
      destruct (find (fun p => bool_decide (Player.id p = id)) _); [done|]. cbn.
      by rewrite bool_decide_eq_false_2. }
    split.
    { intros other Hother. rewrite find_snoc.
      destruct (find (fun p => bool_decide (Player.name p = other)) _); [done|]. cbn.
      by rewrite bool_decide_eq_false_2. }
    split; [done|]. split; [done|]. split; [done|].
    destruct Hplayers as (Hseq & Hids & Hndi & Hndn).
    unfold players_ok. cbn. split; [lia|]. split; [|split].
    + intros q [Hq | ->%list_elem_of_singleton]%elem_of_app; [|cbn; lia].
      apply Hids in Hq. lia.
    + rewrite fmap_app. apply NoDup_app. split; [done|]. split; [|apply NoDup_singleton].
      intros i (q & -> & Hq)%list_elem_of_fmap Hin. cbn in Hin.
      apply list_elem_of_singleton in Hin. apply Hids in Hq. lia.
    + rewrite fmap_app. apply NoDup_app. split; [done|]. split; [|apply NoDup_singleton].
      intros n (q & -> & Hq)%list_elem_of_fmap Hin. cbn in Hin.
      apply list_elem_of_singleton in Hin.
      apply find_none with (x := q) in Hnone; [|by apply list_elem_of_In].
      by apply bool_decide_eq_false in Hnone.
Qed.

Lemma postPlayers_round_trip_witness :
  let st := Api.serve (take 2 scenario_A) Database.empty in
  let answer := Api.postPlayers "C" st in
  let p := Player.mk 3 "C" 0 0 in
  answer.1 = Api.respond 201 (Api.PlayerBody 3 "C") /\
  Database.getPlayerById 3 answer.2 = Some p /\
  Database.getPlayerByName "C" answer.2 = Some p /\
  Api.postPlayers "C" answer.2 = (Api.fail 500 "Internal server error", answer.2).
Proof.
  intros st answer p.
  destruct (reachable_inv (take 2 scenario_A)) as (_ & Hplayers & _).
  destruct (postPlayers_round_trip st "C" Hplayers) as (_ & _ & Hnew).
  destruct Hnew as (H1 & H2 & H3 & _ & _ & _ & _ & _ & Hplayers');
    [discriminate | reflexivity |].
  destruct (postPlayers_round_trip answer.2 "C" Hplayers') as (_ & Hdup & _).
  split; [exact H1|]. split; [exact H2|]. split; [exact H3|].
  apply Hdup; [discriminate | eexists; reflexivity].
Defined.

(** X17. [POST /games], on any store. A player id 0 is answered 400,
    an unknown player 404, and a game id that is already in the table 500;
    none of them changes the store. Otherwise the answer is 201 with a
    waiting game and the empty grid; [getGameById] then returns that game,
    with the player as first player and turn holder, no second player and
    no winner, while [GET /games/:gameId] answers 500 for it; every other
    game is read as before, and the players and the moves are unchanged. *)
Theorem postGames_round_trip (st : Database.Store) (playerId : Z) (gameId : string) :
  let answer := Api.postGames playerId gameId st in
  (playerId = 0 ->
   answer = (Api.fail 400 "playerId is required and must be a number", st)) /\
  (playerId <> 0 -> Database.getPlayerById playerId st = None ->
   answer = (Api.fail 404 "Player not found", st)) /\
  (registered st playerId -> is_Some (Database.games st !! gameId) ->
   answer = (Api.fail 500 "Internal server error", st)) /\
  (forall player,
     playerId <> 0 -> Database.getPlayerById playerId st = Some player ->
     Database.games st !! gameId = None ->
     answer.1 = Api.respond 201 (Api.CreatedBody gameId waiting createEmptyGrid) /\
     Database.getGameById gameId answer.2 =
       Some (Database.mkGameWithPlayers
               (Game.mk gameId (Some playerId) None (Some playerId) waiting None
                  createEmptyGrid 0)
               (Some (playerId, Player.name player)) None) /\
     Api.getGame gameId answer.2 = Api.fail 500 "Internal server error" /\
     (forall other, other <> gameId ->
        Database.getGameById other answer.2 = Database.getGameById other st /\
        Api.getGame other answer.2 = Api.getGame other st) /\
     Database.players answer.2 = Database.players st /\
     Database.moves answer.2 = Database.moves st).
Proof.
  intros answer. subst answer. unfold registered, Api.postGames, Database.createGame.
  split; [by intros ->|]. split; [|split].
  - intros Hpid Hnone. by rewrite bool_decide_eq_false_2, Hnone.
  - intros [Hpid [p Hp]] [g Hg]. by rewrite bool_decide_eq_false_2, Hp, Hg.
  - intros p Hpid Hp Hg. rewrite bool_decide_eq_false_2, Hp, Hg by done.
    cbn [fst snd]. split; [done|].
    assert (Database.getGameById gameId
              (Database.mkStore (Database.players st) (Database.players_seq st)
                 (<[gameId := Game.mk gameId (Some playerId) None (Some playerId)
                                waiting None createEmptyGrid 0]> (Database.games st))
                 (Database.moves st))
            = Some (Database.mkGameWithPlayers
                      (Game.mk gameId (Some playerId) None (Some playerId) waiting
                         None createEmptyGrid 0)
                      (Some (playerId, Player.name p)) None)) as Hget.
    { unfold Database.getGameById. cbn [Database.games].
      rewrite lookup_insert_eq. cbn. unfold Database.player_info. cbn.
      rewrite bool_decide_eq_false_2 by done. cbn.
      unfold Database.getPlayerById in *. cbn. by rewrite Hp. }
    split; [exact Hget|]. split; [|split; [|done]].
    + unfold Api.getGame. by rewrite Hget.
    + intros other Hother.
      assert (Database.getGameById other
                (Database.mkStore (Database.players st) (Database.players_seq st)
                   (<[gameId := Game.mk gameId (Some playerId) None (Some playerId)
                                  waiting None createEmptyGrid 0]> (Database.games st))
                   (Database.moves st))
              = Database.getGameById other st) as Hsame.
      { unfold Database.getGameById. cbn [Database.games].
        by rewrite lookup_insert_ne. }
      split; [exact Hsame|]. unfold Api.getGame. by rewrite Hsame.
Qed.

Lemma postGames_round_trip_witness :
  let st := Api.serve (take 2 scenario_A) Database.empty in
  let answer := Api.postGames 1 "g" st in
  answer.1 = Api.respond 201 (Api.CreatedBody "g" waiting createEmptyGrid) /\
  Database.getGameById "g" answer.2 =
    Some (Database.mkGameWithPlayers
            (Game.mk "g" (Some 1) None (Some 1) waiting None createEmptyGrid 0)
            (Some (1, "A")) None) /\
  Api.getGame "g" answer.2 = Api.fail 500 "Internal server error" /\
  (forall other, other <> "g" ->
     Database.getGameById other answer.2 = Database.getGameById other st /\
     Api.getGame other answer.2 = Api.getGame other st) /\
  Database.players answer.2 = Database.players st /\
  Database.moves answer.2 = Database.moves st.
Proof.
  intros st answer.
  destruct (postGames_round_trip st 1 "g") as (_ & _ & _ & Hnew).
  apply (Hnew (Player.mk 1 "A" 0 0)); [discriminate | reflexivity | reflexivity].
Defined.

(** X18. On a reachable store [getGameById] attaches the players of
    the game it finds: [player1] is always present, with the id and the name
    of the registered first player; [player2] is absent exactly while the
    game is waiting, and otherwise carries the id and the name of the
    second player. *)
Theorem getGameById_names_the_players (requests : list Api.Request) gameId gp :
  let st := Api.serve requests Database.empty in
  Database.getGameById gameId st = Some gp ->
  Database.games st !! gameId = Some (Database.game gp) /\
  (exists p1 q1,
     Game.player1_id (Database.game gp) = Some p1 /\
     Database.getPlayerById p1 st = Some q1 /\
     Database.player1 gp = Some (p1, Player.name q1)) /\
  match Game.player2_id (Database.game gp) with
  | None => Game.status (Database.game gp) = waiting /\ Database.player2 gp = None
  | Some p2 =>
      Game.status (Database.game gp) <> waiting /\
      exists q2, Database.getPlayerById p2 st = Some q2 /\
                 Database.player2 gp = Some (p2, Player.name q2)
  end.
Proof.
  intros st Hgp. unfold Database.getGameById in Hgp.
  destruct (Database.games st !! gameId) as [g|] eqn:Hg; [|done].
  cbn in Hgp. injection Hgp as <-. cbn [Database.game Database.player1 Database.player2].
  split; [done|].
  destruct (reachable_inv requests) as (_ & _ & Hgames & _). fold st in Hgames.
  destruct (Hgames _ _ Hg) as ((_ & (p1 & Hp1 & Hne1 & [q1 Hq1]) & Hwait & Hp2) & _).
  split.
  - exists p1, q1. split; [done|]. split; [done|].
    unfold Database.player_info. rewrite Hp1. cbn.
    rewrite bool_decide_eq_false_2 by done. cbn. by rewrite Hq1.
  - destruct (Game.player2_id g) as [p2|] eqn:H2.
    + destruct (Hp2 p2 eq_refl) as [[Hne2 [q2 Hq2]] _].
      split; [intros Hs; apply Hwait in Hs; done|].
      exists q2. split; [done|].
      unfold Database.player_info. cbn.
      rewrite bool_decide_eq_false_2 by done. cbn. by rewrite Hq2.
    + split; [by apply Hwait | done].
Qed.

Lemma getGameById_names_the_players_witness :
  let st := Api.serve scenario_A Database.empty in
  let gp := Database.mkGameWithPlayers game_after_join (Some (1, "A")) (Some (2, "B")) in
  Database.games st !! "g" = Some (Database.game gp) /\
  (exists p1 q1,
     Game.player1_id (Database.game gp) = Some p1 /\
     Database.getPlayerById p1 st = Some q1 /\
     Database.player1 gp = Some (p1, Player.name q1)) /\
  (Game.status (Database.game gp) <> waiting /\
   exists q2, Database.getPlayerById 2 st = Some q2 /\
              Database.player2 gp = Some (2, Player.name q2)).
Proof.
  apply (getGameById_names_the_players scenario_A "g"
           (Database.mkGameWithPlayers game_after_join (Some (1, "A")) (Some (2, "B")))).
  reflexivity.
Defined.

(** ** The length of a game *)

Lemma marks_3x3 (p : Z) (a b c d e f x y z : jsval) :
  let n v := if is_mark p v then 1 else 0 in
  marks p [ [a; b; c]; [d; e; f]; [x; y; z] ] =
  n a + n b + n c + n d + n e + n f + n x + n y + n z.
Proof.
  assert (forall v l,
            Z.of_nat (length (filter (fun v => v = JNum p) (v :: l))) =
            (if is_mark p v then 1 else 0)
            + Z.of_nat (length (filter (fun v => v = JNum p) l))) as Hstep.
  { intros v l. rewrite filter_cons. unfold is_mark.
    destruct (decide (v = JNum p)) as [Hv|Hv].
    - rewrite bool_decide_eq_true_2 by done. cbn [length]. lia.
    - rewrite bool_decide_eq_false_2 by done. lia. }
  intros n. unfold marks. cbn [concat app].
  rewrite !Hstep. cbn. subst n. cbn. lia.
Qed.

Lemma is_mark_same (p : Z) : is_mark p (JNum p) = true.
Proof. by apply bool_decide_eq_true. Qed.

Lemma is_mark_other (p q : Z) : p <> q -> is_mark p (JNum q) = false.
Proof. intros. apply bool_decide_eq_false. congruence. Qed.

Lemma makeMove_marks (g g' : Grid) (row col p : Z) :
  grid3x3 g -> p <> 0 ->
  isMoveValid g row col = Ok true ->
  makeMove g row col p = Ok g' ->
  marks p g' = marks p g + 1 /\
  (forall q, q <> p -> q <> 0 -> marks q g' = marks q g).
Proof.
  intros Hg Hp Hv Hm.
  pose proof (is_mark_same p) as Hsame.
  pose proof (is_mark_other p 0 Hp) as Hzero.
  valid_move_cases g Hg Hv Hm;
    (split;
     [rewrite !marks_3x3; cbv zeta; rewrite Hsame, Hzero; lia
     |intros q Hqp Hq0; rewrite !marks_3x3; cbv zeta;
      rewrite (is_mark_other q p Hqp), (is_mark_other q 0 Hq0); lia]).
Qed.

Lemma checkWin_marks (g : Grid) (p : Z) :
  grid3x3 g -> checkWin g p = Ok true -> 3 <= marks p g.
Proof.
  intros Hg. grid_cases g Hg. rewrite checkWin_3x3, marks_3x3. cbv zeta.
  destruct (is_mark p c00), (is_mark p c01), (is_mark p c02), (is_mark p c10),
    (is_mark p c11), (is_mark p c12), (is_mark p c20), (is_mark p c21),
    (is_mark p c22); cbn; intros [=]; lia.
Qed.

Lemma checkDraw_marked (g : Grid) :
  grid3x3 g ->
  0 <= marked_cells g <= 9 /\
  (checkDraw g = Ok true -> marked_cells g = 9) /\
  (checkDraw g = Ok false -> marked_cells g <= 8).
Proof.
  intros Hg. grid_cases g Hg. rewrite checkDraw_3x3, marked_cells_3x3. cbv zeta.
  cbn [forallb].
  destruct (is_mark 0 c00), (is_mark 0 c01), (is_mark 0 c02), (is_mark 0 c10),
    (is_mark 0 c11), (is_mark 0 c12), (is_mark 0 c20), (is_mark 0 c21),
    (is_mark 0 c22); cbn; (split; [lia|]); split; intros [=]; lia.
Qed.

Lemma step_marks (st st' : Database.Store) :
  store_inv st -> marks_inv st -> step st st' -> marks_inv st'.
Proof.
  intros Hinv Hmarks Hstep.
  pose proof Hinv as (Hok & _ & Hgames & _).
  destruct Hstep as [|name Hname Hfresh|playerId gid Hpid Hreg Hnone
                     |gid playerId g0 Hpid Hreg Hg0 Hs Hp1
                     |gid playerId row col game newGrid newStatus winnerId
                        Hpid Hreg Hg0 Hs Ht Hv Hm He]; [done|done| | |].
  - intros gameId g. cbn. destruct (decide (gid = gameId)) as [->|Hne].
    + rewrite lookup_insert_eq. intros [= <-]. by split.
    + rewrite lookup_insert_ne by done. apply Hmarks.
  - intros gameId g. cbn. destruct (decide (gid = gameId)) as [->|Hne].
    + rewrite lookup_insert_eq. intros [= <-]. exact (Hmarks _ _ Hg0).
    + rewrite lookup_insert_ne by done. apply Hmarks.
  - intros gameId g. rewrite commit_move_store. cbn.
    destruct (decide (gid = gameId)) as [->|Hne];
      [|rewrite lookup_insert_ne by done; apply Hmarks].
    rewrite lookup_insert_eq. intros [= <-].
    destruct (Hgames _ _ Hg0) as (Hseats & Hturn & _).
    destruct (Hok _ _ Hg0) as (H3 & Hcount & _).
    destruct (mover_seat st gameId game playerId Hseats Hturn Hs Ht)
      as (_ & Hmark & _).
    destruct (Hmarks _ _ Hg0) as [Hm1 Hm2].
    pose proof (marked_cells_nonneg (Game.grid game)) as Hnonneg.
    destruct (makeMove_marks _ _ _ _ _ H3 (playerNumber_nonzero game playerId) Hv Hm)
      as [Hown Hother].
    cbv zeta in Hmark. rewrite even_to_nat in Hmark by lia.
    unfold marks_ok. cbn.
    destruct (Z.even (Game.move_count game)) eqn:Heven; rewrite Hmark in Hown, Hother.
    + apply Z.even_spec in Heven as [k Hk].
      rewrite Hown, (Hother 2), Hm1, Hm2 by done. rewrite Hk.
      split; Z.div_mod_to_equations; lia.
    + apply Bool.not_true_iff_false in Heven. rewrite Z.even_spec in Heven.
      assert (Z.Odd (Game.move_count game)) as [k Hk].
      { destruct (Z.Even_or_Odd (Game.move_count game)); [done|done]. }
      rewrite Hown, (Hother 1), Hm1, Hm2 by done. rewrite Hk.
      split; Z.div_mod_to_equations; lia.
Qed.

Lemma reachable_marks (st : Database.Store) : reachable st -> marks_inv st.
Proof.
  induction 1 as [|r st Hst IH
                  |st st' gameId playerId row col game newGrid newStatus winnerId
                     updated Hst IH Hg Hm He Hmove].
  - intros gameId g Hg. cbn in Hg. by rewrite lookup_empty in Hg.
  - apply (step_marks st); [by apply reachable_store_inv | done | apply handle_step].
  - apply (step_marks st); [by apply reachable_store_inv | done |].
    eapply move_is_step; [by apply reachable_store_inv | done..].
Qed.

Lemma last_lookup_length {A} (l : list A) (x : A) :
  last l = Some x -> l !! (length l - 1)%nat = Some x.
Proof. rewrite last_lookup. intros <-. f_equal. lia. Qed.

(** The moves of a game, by its status. *)
Lemma game_length (st : Database.Store) gameId g :
  store_inv st -> marks_inv st ->
  Database.games st !! gameId = Some g ->
  match Game.status g with
  | waiting => Game.move_count g = 0
  | in_progress => 0 <= Game.move_count g <= 8
  | win =>
      (Game.winner_id g = Game.player1_id g /\
       (Game.move_count g = 5 \/ Game.move_count g = 7 \/ Game.move_count g = 9)) \/
      (Game.winner_id g = Game.player2_id g /\
       (Game.move_count g = 6 \/ Game.move_count g = 8))
  | draw => Game.move_count g = 9
  end.
Proof.
  intros (Hok & _ & Hgames & _) Hmarks Hg.
  destruct (Hok _ _ Hg) as (H3 & Hcount & Hterm).
  destruct (Hgames _ _ Hg) as ((_ & (p1 & Hp1 & _) & _ & Hp2) & Hturn & Hout & Htrail).
  destruct (Hmarks _ _ Hg) as [Hm1 Hm2].
  destruct (checkDraw_marked _ H3) as (Hrange & Hfull & Hfree).
  unfold turn_ok in Hturn. unfold outcome_ok in Hout.
  destruct (Game.status g) eqn:Hs.
  - by destruct Hturn as (_ & ? & _).
  - destruct Hout as (_ & _ & Hd). apply Hfree in Hd. lia.
  - destruct Hout as (w & Hw & Hseated & Hwin).
    destruct Hterm as (p & _ & Hlast & Hwinner); [by left|].
    specialize (Hwinner eq_refl). assert (p = w) as -> by congruence.
    apply checkWin_marks in Hwin; [|done].
    destruct Htrail as [Hlen Hmoves].
    unfold last_mover in Hlast. fold (trail gameId (Database.moves st)) in Hlast.
    destruct (last (trail gameId (Database.moves st))) as [m|] eqn:Hm; [|done].
    apply last_lookup_length in Hm. pose proof (lookup_lt_Some _ _ _ Hm) as Hlt.
    apply Hmoves in Hm as (_ & Hseat & _).
    cbn in Hlast. injection Hlast as Hpm. rewrite Hpm in Hseat.
    unfold seat in Hseat.
    set (k := (length (trail gameId (Database.moves st)) - 1)%nat) in *.
    unfold Api.playerNumber in Hwin.
    destruct (Nat.even k) eqn:Heven.
    + left. split; [congruence|].
      rewrite bool_decide_eq_true_2 in Hwin by done.
      assert (Z.of_nat k = Game.move_count g - 1) as Hk by lia.
      apply Nat.even_spec in Heven as [j Hj].
      assert (Game.move_count g = 2 * Z.of_nat j + 1) as Hmc by lia.
      rewrite Hm1, Hmc in Hwin. revert Hwin. Z.div_mod_to_equations. lia.
    + right. split; [congruence|].
      destruct (Hp2 w) as [_ Hne]; [done|].
      rewrite bool_decide_eq_false_2 in Hwin by done.
      assert (Z.of_nat k = Game.move_count g - 1) as Hk by lia.
      apply Bool.not_true_iff_false in Heven. rewrite Nat.even_spec in Heven.
      assert (Nat.Odd k) as [j Hj].
      { destruct (Nat.Even_or_Odd k); [done|done]. }
      assert (Game.move_count g = 2 * Z.of_nat j + 2) as Hmc by lia.
      rewrite Hm2, Hmc in Hwin. revert Hwin. Z.div_mod_to_equations. lia.
  - destruct Hout as (_ & _ & Hd). apply Hfull in Hd. lia.
Qed.

(** X21. In every game of a store the engine reaches, with n the move
    count, the mark of the first player is in (n + 1) / 2 cells and the
    mark of the second in n / 2 cells. A waiting game has no move, a game
    in progress at most 8 and a drawn game exactly 9; a game won by the
    first player has 5, 7 or 9 moves, a game won by the second player 6
    or 8. *)
Theorem games_end_within_nine_moves (st : Database.Store) gameId g :
  reachable st ->
  Database.games st !! gameId = Some g ->
  marks 1 (Game.grid g) = (Game.move_count g + 1) / 2 /\
  marks 2 (Game.grid g) = Game.move_count g / 2 /\
  match Game.status g with
  | waiting => Game.move_count g = 0
  | in_progress => 0 <= Game.move_count g <= 8
  | win =>
      (Game.winner_id g = Game.player1_id g /\
       (Game.move_count g = 5 \/ Game.move_count g = 7 \/ Game.move_count g = 9)) \/
      (Game.winner_id g = Game.player2_id g /\
       (Game.move_count g = 6 \/ Game.move_count g = 8))
  | draw => Game.move_count g = 9
  end.
Proof.
  intros Hst Hg. destruct (reachable_marks st Hst _ _ Hg) as [Hm1 Hm2].
  split; [done|]. split; [done|].
  exact (game_length _ _ _ (reachable_store_inv st Hst) (reachable_marks st Hst) Hg).
Qed.

Lemma games_end_within_nine_moves_witness :
  marks 1 scenario_A_grid = 3 /\
  marks 2 scenario_A_grid = 2 /\
  ((Game.winner_id scenario_A_game = Game.player1_id scenario_A_game /\
    (Game.move_count scenario_A_game = 5 \/ Game.move_count scenario_A_game = 7
     \/ Game.move_count scenario_A_game = 9)) \/
   (Game.winner_id scenario_A_game = Game.player2_id scenario_A_game /\
    (Game.move_count scenario_A_game = 6 \/ Game.move_count scenario_A_game = 8))).
Proof.
  apply (games_end_within_nine_moves scenario_A_store "g" scenario_A_game);
    [apply scenario_A_store_reachable | reflexivity].
Defined.

(** ** The statistics of the winners *)

Lemma games_sum_won_bounds (p : Z) (games : gmap string Game.t) :
  (forall k g, games !! k = Some g -> won_by p g = true ->
               5 <= Game.move_count g <= 9) ->
  let n := games_sum (fun g => if won_by p g then 1 else 0) games in
  let moves := games_sum (fun g => if won_by p g then Game.move_count g else 0) games in
  0 <= n /\ 5 * n <= moves <= 9 * n.
Proof.
  intros Hwon. unfold games_sum.
  assert (Forall (fun kg : string * Game.t =>
                    won_by p kg.2 = true -> 5 <= Game.move_count kg.2 <= 9)
            (map_to_list games)) as Hall.
  { apply Forall_forall. intros [k g] Hkg%elem_of_map_to_list. by apply (Hwon k). }
  clear Hwon. induction Hall as [|[k g] l Hg _ IH]; cbn; [lia|].
  cbn in Hg. destruct (won_by p g); [specialize (Hg eq_refl)|]; lia.
Qed.

Lemma leaderboard_entry_player `{E : SqlEngine} (by_ : Database.By)
    (st : Database.Store) (e : LeaderboardEntry.t) :
  lawful E -> e ∈ Database.getLeaderboard by_ st ->
  exists p, p ∈ Database.players st /\ 0 < Player.total_wins p /\
            LeaderboardEntry.playerId e = Player.id p /\
            LeaderboardEntry.name e = Player.name p /\
            LeaderboardEntry.value e = Database.score by_ p.
Proof.
  intros HE He.
  destruct (leaderboard_rows by_ st HE) as (W & ordered & HW & Hord & _ & Hboard).
  rewrite Hboard in He. apply list_elem_of_fmap in He as (r & -> & Hr).
  apply subseteq_take in Hr. rewrite Hord in Hr.
  apply list_elem_of_lookup_1 in Hr as [k Hk].
  apply row_number_lookup in Hk as [_ Hk].
  apply list_elem_of_lookup_2 in Hk. rewrite HW in Hk.
  apply list_elem_of_filter in Hk as [Hwins Hp].
  exists r.2. done.
Qed.

Lemma player_statistics_bounds (st : Database.Store) (p : Player.t) :
  store_inv st -> marks_inv st -> p ∈ Database.players st ->
  0 <= Player.total_wins p /\
  5 * Player.total_wins p <= Player.total_moves_in_wins p <= 9 * Player.total_wins p.
Proof.
  intros Hinv Hmarks Hp. pose proof Hinv as (_ & _ & _ & _ & Hstats).
  destruct (Hstats p Hp) as [-> ->].
  apply games_sum_won_bounds. intros k g Hg Hwon.
  apply bool_decide_eq_true in Hwon as [Hs _].
  pose proof (game_length st k g Hinv Hmarks Hg) as Hlen.
  rewrite Hs in Hlen. lia.
Qed.

(** X22. In a store the engine reaches, the wins of every player are
    not negative and the moves in wins lie between 5 times and 9 times the
    wins. For any lawful engine, every value of the wins leaderboard is at
    least 1, and every entry of either leaderboard is a player whose moves
    in wins are at least 5 and at most 9 for each win. *)
Theorem winner_statistics_bounds `{E : SqlEngine} (st : Database.Store) :
  lawful E -> reachable st ->
  (forall p, p ∈ Database.players st ->
     0 <= Player.total_wins p /\
     5 * Player.total_wins p <= Player.total_moves_in_wins p
       <= 9 * Player.total_wins p) /\
  (forall e, e ∈ Database.getLeaderboard Database.wins st ->
     (1 <= LeaderboardEntry.value e)%Q) /\
  (forall by_ e, e ∈ Database.getLeaderboard by_ st ->
     exists p, p ∈ Database.players st /\
               LeaderboardEntry.playerId e = Player.id p /\
               LeaderboardEntry.name e = Player.name p /\
               1 <= Player.total_wins p /\
               5 * Player.total_wins p <= Player.total_moves_in_wins p
                 <= 9 * Player.total_wins p).
Proof.
  intros HE Hst.
  pose proof (reachable_store_inv st Hst) as Hinv.
  pose proof (reachable_marks st Hst) as Hmarks.
  split; [intros p Hp; by apply (player_statistics_bounds st)|]. split.
  - intros e He.
    destruct (leaderboard_entry_player _ st e HE He) as (p & Hp & Hw & _ & _ & ->).
    cbn. change 1%Q with (inject_Z 1). rewrite <- Zle_Qle. lia.
  - intros by_ e He.
    destruct (leaderboard_entry_player _ st e HE He) as (p & Hp & Hw & Hid & Hname & _).
    exists p. repeat split; try done; try lia;
      by apply (player_statistics_bounds st p Hinv Hmarks Hp).
Qed.

Lemma winner_statistics_bounds_witness :
  let st := scenario_A_store in
  (forall p, p ∈ Database.players st ->
     0 <= Player.total_wins p /\
     5 * Player.total_wins p <= Player.total_moves_in_wins p
       <= 9 * Player.total_wins p) /\
  (forall e,
     e ∈ Database.getLeaderboard (H := scan_order_engine) Database.wins st ->
     (1 <= LeaderboardEntry.value e)%Q) /\
  (forall by_ e,
     e ∈ Database.getLeaderboard (H := scan_order_engine) by_ st ->
     exists p, p ∈ Database.players st /\
               LeaderboardEntry.playerId e = Player.id p /\
               LeaderboardEntry.name e = Player.name p /\
               1 <= Player.total_wins p /\
               5 * Player.total_wins p <= Player.total_moves_in_wins p
                 <= 9 * Player.total_wins p).
Proof.
  apply (winner_statistics_bounds (E := scan_order_engine) scenario_A_store);
    [apply scan_order_engine_lawful | apply scenario_A_store_reachable].
Defined.
